(** * ZomboDB: bulk synchronisation, scroll cursors, the aborted-xid ledger
      and the scoring registry

    A shallow embedding of [src/c/elasticsearch/elasticsearch.c] and
    [src/c/scoring/scoring.c].  C structs become records, the mutable
    context becomes explicit state threaded through a small state-and-error
    monad, [elog(ERROR, ...)] becomes the [ERROR] outcome, and every request
    handed to the HTTP layer is appended to an event log so that statements
    about what is sent, and in which order, can be made on the log. *)

From Stdlib Require Import ZArith Lia Floats.SpecFloat.
From stdpp Require Import base list strings pretty.

Open Scope Z_scope.

(** ** Machine integers

    PostgreSQL is compiled with [-fwrapv]: an [int] increment wraps. *)

Definition int32 (x : Z) : Z := (x + 2 ^ 31) mod 2 ^ 32 - 2 ^ 31.
Definition u64 (x : Z) : Z := x mod 2 ^ 64.

(** [#define MAX_DOCS_PER_REQUEST 10000], "an ES limit introduced around
    Elasticsearch v5". *)
Definition MAX_DOCS_PER_REQUEST : Z := 10000.

(** [StringInfo]: a growable byte buffer; [len] is its [int] length field. *)
Definition len (s : string) : Z := Z.of_nat (String.length s).

(* ================================================================== *)
(** * The bulk pipeline *)
(* ================================================================== *)

Module Bulk.

(** [PostDataEntry]: a buffer checked out of the pool together with the slot
    it came from.  [compressed_data] is always [NULL] on this side of the
    HTTP layer and is left out. *)
Record PostDataEntry := mkEntry { buff : string; pool_idx : nat }.

(** What [bulk_prologue] puts on the [_bulk] URL besides the fixed
    [url/index/type/_bulk?filter_path=...] prefix, and the buffer it posts.
    [rq_is_final] is a ghost field: the [is_final] argument of the call of
    [bulk_prologue] that issued the request. *)
Record bulk_request := mkRequest {
  rq_wait_for_active_shards : bool;   (* "&wait_for_active_shards=all" *)
  rq_refresh : bool;                  (* "&refresh=true" *)
  rq_is_final : bool;
  rq_post : PostDataEntry
}.

Inductive event : Type :=
| EvCheckout (i : nat)         (* checkout_batch_pool emptied slot i *)
| EvPoll                       (* rest_multi_perform *)
| EvReturn (i : nat)           (* the HTTP layer put a cleared buffer back in slot i *)
| EvBulk (r : bulk_request)    (* rest_multi_call: POST .../_bulk *)
| EvDrained                    (* rest_multi_partial_cleanup(rest, true, false) is over *)
| EvRefresh.                   (* rest_call: GET url/index/_refresh *)

(** Modelled from the spec: [MultiRestState] of rest/rest.c, which is not
    among the sources.  The spec's transport collaborator dispatches at most
    [concurrency] requests at a time and owns a buffer from dispatch until
    its response has been observed.  [running] are the transfers in
    progress, [finished] those whose response has arrived and whose buffer
    has not yet been put back. *)
Record MultiRestState := mkRest {
  nhandles : nat;
  running : list PostDataEntry;
  finished : list PostDataEntry
}.

(** The part of [ElasticsearchBulkContext] that is written once by
    [ElasticsearchStartBulkProcess].  The url, the index and type names and
    the compression level only feed the fixed prefix of the request URL and
    are left out. *)
Record bulk_config := mkConfig {
  batchSize : Z;
  bulkConcurrency : nat;
  shouldRefresh : bool;
  containsJson : bool;
  containsJsonIsSet : bool
}.

(** The per-kind counters of the context; they are only read by the final
    log line. *)
Record tallies := mkTallies {
  nindex : Z; nupdate : Z; ndelete : Z; nvacuum : Z; nxid : Z
}.

(** [ElasticsearchBulkContext].  [context->rest->pool] aliases
    [context->pool]: there is one pool, kept here.  [log] is ghost state. *)
Record ElasticsearchBulkContext := mkContext {
  config : bulk_config;
  waitForActiveShards : bool;
  rest : MultiRestState;
  pool : list (option string);
  current : PostDataEntry;
  nrows : Z;
  ntotal : Z;
  nrequests : Z;
  counts : tallies;
  log : list event
}.

Definition set_waitForActiveShards (b : bool) (c : ElasticsearchBulkContext) :=
  mkContext (config c) b (rest c) (pool c) (current c) (nrows c) (ntotal c)
            (nrequests c) (counts c) (log c).
Definition set_rest (r : MultiRestState) (c : ElasticsearchBulkContext) :=
  mkContext (config c) (waitForActiveShards c) r (pool c) (current c) (nrows c)
            (ntotal c) (nrequests c) (counts c) (log c).
Definition set_pool (p : list (option string)) (c : ElasticsearchBulkContext) :=
  mkContext (config c) (waitForActiveShards c) (rest c) p (current c) (nrows c)
            (ntotal c) (nrequests c) (counts c) (log c).
Definition set_current (e : PostDataEntry) (c : ElasticsearchBulkContext) :=
  mkContext (config c) (waitForActiveShards c) (rest c) (pool c) e (nrows c)
            (ntotal c) (nrequests c) (counts c) (log c).
Definition set_nrows (n : Z) (c : ElasticsearchBulkContext) :=
  mkContext (config c) (waitForActiveShards c) (rest c) (pool c) (current c) n
            (ntotal c) (nrequests c) (counts c) (log c).
Definition set_ntotal (n : Z) (c : ElasticsearchBulkContext) :=
  mkContext (config c) (waitForActiveShards c) (rest c) (pool c) (current c)
            (nrows c) n (nrequests c) (counts c) (log c).
Definition set_nrequests (n : Z) (c : ElasticsearchBulkContext) :=
  mkContext (config c) (waitForActiveShards c) (rest c) (pool c) (current c)
            (nrows c) (ntotal c) n (counts c) (log c).
Definition set_counts (t : tallies) (c : ElasticsearchBulkContext) :=
  mkContext (config c) (waitForActiveShards c) (rest c) (pool c) (current c)
            (nrows c) (ntotal c) (nrequests c) t (log c).
Definition set_log (l : list event) (c : ElasticsearchBulkContext) :=
  mkContext (config c) (waitForActiveShards c) (rest c) (pool c) (current c)
            (nrows c) (ntotal c) (nrequests c) (counts c) l.

(** ** The monad: state plus [elog(ERROR)]

    An [ERROR] keeps the context as it was when the error was raised, so
    the log of what had been sent before is still there. *)

Inductive result (A : Type) : Type :=
| OK (a : A) (c : ElasticsearchBulkContext)
| ERROR (msg : string) (c : ElasticsearchBulkContext).
Arguments OK {A} a c.
Arguments ERROR {A} msg c.

Definition bulk (A : Type) : Type := ElasticsearchBulkContext -> result A.

Definition ret {A} (a : A) : bulk A := fun c => OK a c.
Definition bind {A B} (m : bulk A) (k : A -> bulk B) : bulk B :=
  fun c => match m c with
           | OK a c' => k a c'
           | ERROR msg c' => ERROR msg c'
           end.
Definition elog_ERROR {A} (msg : string) : bulk A := fun c => ERROR msg c.
Definition gets {A} (f : ElasticsearchBulkContext -> A) : bulk A :=
  fun c => OK (f c) c.
Definition modify (f : ElasticsearchBulkContext -> ElasticsearchBulkContext)
  : bulk unit := fun c => OK tt (f c).
Definition emit (e : event) : bulk unit :=
  modify (fun c => set_log (log c ++ [e]) c).
Definition when (b : bool) (m : bulk unit) : bulk unit :=
  if b then m else ret tt.

Declare Scope bulk_scope.
Delimit Scope bulk_scope with bulk.
Notation "x <- m ;; k" := (bind m (fun x => k))
  (at level 100, m at next level, k at level 200, right associativity) : bulk_scope.
Notation "m ;; k" := (bind m (fun _ => k))
  (at level 100, k at level 200, right associativity) : bulk_scope.
Open Scope bulk_scope.

(** The context an outcome ends in. *)
Definition final_context {A} (r : result A) : ElasticsearchBulkContext :=
  match r with OK _ c => c | ERROR _ c => c end.

Definition succeeded {A} (r : result A) : bool :=
  match r with OK _ _ => true | ERROR _ _ => false end.

(** ** [checkout_batch_pool]

    [scan_pool p i n] is the loop [for (; i < ...; i++)] with [n] iterations
    left: the first slot that is not [NULL]. *)
Fixpoint scan_pool (p : list (option string)) (i n : nat) : option (nat * string) :=
  match n with
  | O => None
  | S n' => match p !! i with
            | Some (Some b) => Some (i, b)
            | _ => scan_pool p (S i) n'
            end
  end.

Definition checkout_batch_pool : bulk PostDataEntry := fun c =>
  match scan_pool (pool c) 0 (nhandles (rest c) + 1) with
  | Some (i, b) =>
      OK (mkEntry b i)
         (set_log (log c ++ [EvCheckout i]) (set_pool (<[i := None]> (pool c)) c))
  | None => ERROR "Unable to checkout from batch pool" c
  end.

(** ** The HTTP layer

    What the transport does between two calls is not decided by this code:
    each call that polls takes the set of pool slots whose transfer has
    completed by then as an argument. *)

(** Modelled from the spec: [rest_multi_init] of rest/rest.c
    ([poolInit(concurrency, strictVersioning) -> handle]). *)
Definition rest_multi_init (concurrency : nat) (ignore_version_conflicts : bool)
  : MultiRestState := mkRest concurrency [] [].

(** Modelled from the spec: [rest_multi_perform] of rest/rest.c, the
    non-blocking poll: transfers in [done] move from [running] to
    [finished]; the answer says whether something is waiting to be
    reclaimed. *)
Definition rest_multi_perform (done : list nat) : bulk bool := fun c =>
  let r := rest c in
  let fin := finished r ++ filter (fun e => pool_idx e ∈ done) (running r) in
  let run := filter (fun e => ¬ pool_idx e ∈ done) (running r) in
  OK (match fin with [] => false | _ => true end)
     (set_log (log c ++ [EvPoll]) (set_rest (mkRest (nhandles r) run fin) c)).

(** The spec's [return(Buffer)]: "clears and re-inserts into its original
    slot". *)
Definition return_buffer (p : list (option string)) (e : PostDataEntry)
  : list (option string) := <[pool_idx e := Some EmptyString]> p.

(** Modelled from the spec: [rest_multi_partial_cleanup] of rest/rest.c
    ([poolCleanup(handle, waitAll, partial)]): the buffer of every finished
    transfer goes back to the pool; with [finalize] the call first waits for
    every running transfer. *)
Definition rest_multi_partial_cleanup (finalize fast : bool) : bulk unit := fun c =>
  let r := rest c in
  let fin := if finalize then finished r ++ running r else finished r in
  let run := if finalize then [] else running r in
  OK tt (set_log (log c ++ map (fun e => EvReturn (pool_idx e)) fin)
           (set_pool (foldl return_buffer (pool c) fin)
              (set_rest (mkRest (nhandles r) run []) c))).

(** Modelled from the spec: [rest_multi_is_available] of rest/rest.c
    ([poolReclaimAvailable(handle) -> bool]): poll, reclaim, and say whether
    a handle is free. *)
Definition rest_multi_is_available (done : list nat) : bulk bool :=
  _ <- rest_multi_perform done ;;
  rest_multi_partial_cleanup false false ;;
  r <- gets rest ;;
  ret (Nat.ltb (length (running r)) (nhandles r)).

(** Modelled from the spec: [rest_multi_all_done] of rest/rest.c
    ([poolAllDone(handle) -> bool]). *)
Definition rest_multi_all_done : bulk bool :=
  r <- gets rest ;;
  ret (match running r, finished r with [], [] => true | _, _ => false end).

(** The transfers that complete while the dispatcher waits for a handle:
    those of [wait] if one of them is running, the oldest running one
    otherwise (some transfer completes eventually). *)
Definition next_to_complete (wait : list nat) (r : MultiRestState) : list nat :=
  if bool_decide (Exists (fun e => pool_idx e ∈ wait) (running r)) then wait
  else match running r with
       | e :: _ => [pool_idx e]
       | [] => []
       end.

(** Modelled from the spec: [rest_multi_call] of rest/rest.c
    ([poolDispatch]), "bounded to concurrency simultaneous requests": when
    every handle is taken the call reclaims what has finished and, if that
    frees nothing, waits for a transfer to complete. *)
Definition rest_multi_call (wait : list nat) (rq : bulk_request) : bulk unit :=
  r <- gets rest ;;
  when (negb (Nat.ltb (length (running r) + length (finished r)) (nhandles r)))
    (rest_multi_partial_cleanup false false ;;
     r <- gets rest ;;
     when (negb (Nat.ltb (length (running r)) (nhandles r)))
       (_ <- rest_multi_perform (next_to_complete wait r) ;;
        rest_multi_partial_cleanup false false)) ;;
  modify (fun c => set_rest (mkRest (nhandles (rest c))
                               (running (rest c) ++ [rq_post rq])
                               (finished (rest c))) c) ;;
  emit (EvBulk rq).

(** What the environment decides during one append: [tk_done] are the slots
    whose transfer has completed when [bulk_prologue] polls, [tk_wait] those
    that complete while a dispatch waits for a handle. *)
Record tick := mkTick { tk_done : list nat; tk_wait : list nat }.

(** ** [bulk_prologue] and [bulk_epilogue] *)

Definition flush_due (is_final : bool) (c : ElasticsearchBulkContext) : bool :=
  (batchSize (config c) <=? len (buff (current c)))
  || (nrows c =? MAX_DOCS_PER_REQUEST)
  || is_final.

Definition bulk_prologue (is_final : bool) (tk : tick) : bulk unit :=
  b <- rest_multi_perform (tk_done tk) ;;
  when b (rest_multi_partial_cleanup false true) ;;
  due <- gets (flush_due is_final) ;;
  when due
    (c <- gets id ;;
     rest_multi_call (tk_wait tk)
       (mkRequest (waitForActiveShards c)
                  (is_final && shouldRefresh (config c) && (nrequests c =? 0))
                  is_final
                  (current c)) ;;
     modify (set_nrows 0) ;;
     modify (fun c => set_nrequests (int32 (nrequests c + 1)) c) ;;
     when (negb is_final)
       (e <- checkout_batch_pool ;;
        modify (set_current e))).

Definition bulk_epilogue : bulk unit :=
  modify (fun c => set_nrows (int32 (nrows c + 1)) c) ;;
  modify (fun c => set_ntotal (int32 (ntotal c + 1)) c).

(** ** Printing

    The JSON lines are put together from pieces; [q s] is [s] between
    double quotes. *)
Definition dquote : string := String (Ascii.ascii_of_nat 34) EmptyString.
Definition newline : string := String (Ascii.ascii_of_nat 10) EmptyString.
Definition q (s : string) : string := dquote +:+ s +:+ dquote.

(** [%lu] of a [uint64], [%d] and [%u] of a 32-bit value. *)
Definition print_lu (x : Z) : string := pretty (u64 x).
Definition print_d (x : Z) : string := pretty (int32 x).
Definition print_u (x : Z) : string := pretty (x mod 2 ^ 32).

Definition InvalidCommandId : Z := 2 ^ 32 - 1.
Definition InvalidTransactionId : Z := 0.

(** [appendStringInfo(context->current->buff, ...)] *)
Definition appendStringInfo (s : string) : bulk unit :=
  modify (fun c => set_current (mkEntry (buff (current c) +:+ s)
                                        (pool_idx (current c))) c).

Definition bump (f : tallies -> tallies) : bulk unit :=
  modify (fun c => set_counts (f (counts c)) c).
Definition incr_nindex (t : tallies) :=
  mkTallies (int32 (nindex t + 1)) (nupdate t) (ndelete t) (nvacuum t) (nxid t).
Definition incr_nupdate (t : tallies) :=
  mkTallies (nindex t) (int32 (nupdate t + 1)) (ndelete t) (nvacuum t) (nxid t).
Definition incr_ndelete (t : tallies) :=
  mkTallies (nindex t) (nupdate t) (int32 (ndelete t + 1)) (nvacuum t) (nxid t).
Definition incr_nvacuum (t : tallies) :=
  mkTallies (nindex t) (nupdate t) (ndelete t) (int32 (nvacuum t + 1)) (nxid t).
Definition incr_nxid (t : tallies) :=
  mkTallies (nindex t) (nupdate t) (ndelete t) (nvacuum t) (int32 (nxid t + 1)).

(** The script line of a conditional update: its painless source and its
    one parameter. *)
Definition script_line (source param value : string) : string :=
  "{" +:+ q "script" +:+ ":{" +:+ q "source" +:+ ":" +:+ q source +:+ ","
  +:+ q "lang" +:+ ":" +:+ q "painless" +:+ "," +:+ q "params" +:+ ":{"
  +:+ q param +:+ ":" +:+ value +:+ "}}}" +:+ newline.

(** The action line of the two ledger updates. *)
Definition ledger_action : string :=
  "{" +:+ q "update" +:+ ":{" +:+ q "_id" +:+ ":" +:+ q "zdb_aborted_xids" +:+ ","
  +:+ q "_retry_on_conflict" +:+ ":128}}" +:+ newline.

(** The script line of [ElasticsearchBulkMarkTransactionCommitted]. *)
Definition committed_script (xid : Z) : string :=
  "{" +:+ q "script" +:+ ":{" +:+ q "source" +:+ ":"
  +:+ q "ctx._source.zdb_aborted_xids.remove(ctx._source.zdb_aborted_xids.indexOf(params.XID));"
  +:+ "," +:+ q "params" +:+ ":{" +:+ q "XID" +:+ ":" +:+ print_lu xid +:+ "},"
  +:+ q "lang" +:+ ":" +:+ q "painless" +:+ "}}" +:+ newline.

(** ** The entry points

    A row locator ([ItemPointer]) is given by [ItemPointerToUint64] of it,
    [None] for [NULL]; the two ledger entry points take the transaction id
    that [convert_xid(GetCurrentTransactionId())] yields; a [tick] says
    what the transport does during the call. *)

Section Appends.

(** [replace_line_breaks(as_string, len, ' ')] and
    [strip_json_ending(as_string, len)] of the utility code, as functions
    of the text: what the first leaves in [as_string], and the bytes that
    [appendBinaryStringInfo] copies from the second. *)
Variable replace_line_breaks : string -> string.
Variable strip_json_ending : string -> string.

Definition ElasticsearchBulkInsertRow (tk : tick) (ctid : option Z) (json : string)
    (cmin cmax xmin xmax : Z) : bulk unit :=
  bulk_prologue false tk ;;
  j <- gets (fun c => containsJson (config c)) ;;
  let as_string := if j then replace_line_breaks json else json in
  appendStringInfo
    match ctid with
    | Some id => "{" +:+ q "index" +:+ ":{" +:+ q "_id" +:+ ":" +:+ q (print_lu id)
                 +:+ "}}" +:+ newline
    | None => "{" +:+ q "index" +:+ ":{}}" +:+ newline
    end ;;
  (* the second line is the json form of the document... *)
  appendStringInfo (strip_json_ending as_string) ;;
  match ctid with
  | Some id =>
      (* ...but we tack on our zdb_ctid property *)
      appendStringInfo ("," +:+ q "zdb_ctid" +:+ ":" +:+ print_lu id)
  | None => ret tt
  end ;;
  (* ...and cmin/cmax *)
  appendStringInfo ("," +:+ q "zdb_cmin" +:+ ":" +:+ print_d cmin) ;;
  when (negb (cmax =? InvalidCommandId))
    (appendStringInfo ("," +:+ q "zdb_cmax" +:+ ":" +:+ print_d cmax)) ;;
  (* ...and xmin/xmax *)
  appendStringInfo ("," +:+ q "zdb_xmin" +:+ ":" +:+ print_lu xmin) ;;
  when (negb (xmax =? InvalidTransactionId))
    (appendStringInfo ("," +:+ q "zdb_xmax" +:+ ":" +:+ print_lu xmax)) ;;
  appendStringInfo ("}" +:+ newline) ;;
  bump incr_nindex ;;
  bulk_epilogue.

Definition ElasticsearchBulkUpdateTuple (tk : tick) (ctid : option Z)
    (llapi_id : string) (cmax xmax : Z) : bulk unit :=
  bulk_prologue false tk ;;
  appendStringInfo
    ("{" +:+ q "update" +:+ ":{" +:+ q "_id" +:+ ":"
     +:+ q match ctid with Some id => print_lu id | None => llapi_id end
     +:+ "," +:+ q "_retry_on_conflict" +:+ ":1}}" +:+ newline) ;;
  appendStringInfo
    ("{" +:+ q "script" +:+ ":{" +:+ q "source" +:+ ":"
     +:+ q "ctx._source.zdb_cmax=params.CMAX;ctx._source.zdb_xmax=params.XMAX;"
     +:+ "," +:+ q "lang" +:+ ":" +:+ q "painless" +:+ "," +:+ q "params" +:+ ":{"
     +:+ q "CMAX" +:+ ":" +:+ print_u cmax +:+ "," +:+ q "XMAX" +:+ ":"
     +:+ print_lu xmax +:+ "}}}" +:+ newline) ;;
  bump incr_nupdate ;;
  bulk_epilogue.

Definition ElasticsearchBulkVacuumXmax (tk : tick) (_id : string)
    (expected_xmax : Z) : bulk unit :=
  bulk_prologue false tk ;;
  appendStringInfo
    ("{" +:+ q "update" +:+ ":{" +:+ q "_id" +:+ ":" +:+ q _id +:+ ","
     +:+ q "_retry_on_conflict" +:+ ":0}}" +:+ newline) ;;
  appendStringInfo
    (script_line
       "if (ctx._source.zdb_xmax != params.EXPECTED_XMAX) {   ctx.op='none';} else {   ctx._source.zdb_xmax=null;}"
       "EXPECTED_XMAX" (print_lu expected_xmax)) ;;
  bump incr_nvacuum ;;
  bulk_epilogue.

Definition ElasticsearchBulkDeleteRowByXmin (tk : tick) (_id : string) (xmin : Z)
  : bulk unit :=
  (* important to tag this before we do the work in bulk_prologue() *)
  modify (set_waitForActiveShards true) ;;
  bulk_prologue false tk ;;
  appendStringInfo
    ("{" +:+ q "update" +:+ ":{" +:+ q "_id" +:+ ":" +:+ q _id +:+ "}}" +:+ newline) ;;
  appendStringInfo
    (script_line
       "if (ctx._source.zdb_xmin == params.EXPECTED_XMIN) {   ctx.op='delete';} else {   ctx.op='none';}"
       "EXPECTED_XMIN" (print_lu xmin)) ;;
  bump incr_ndelete ;;
  bulk_epilogue.

Definition ElasticsearchBulkDeleteRowByXmax (tk : tick) (_id : string) (xmax : Z)
  : bulk unit :=
  (* important to tag this before we do the work in bulk_prologue() *)
  modify (set_waitForActiveShards true) ;;
  bulk_prologue false tk ;;
  appendStringInfo
    ("{" +:+ q "update" +:+ ":{" +:+ q "_id" +:+ ":" +:+ q _id +:+ "}}" +:+ newline) ;;
  appendStringInfo
    (script_line
       "if (ctx._source.zdb_xmax == params.EXPECTED_XMAX) {   ctx.op='delete';} else {   ctx.op='none';}"
       "EXPECTED_XMAX" (print_lu xmax)) ;;
  bump incr_ndelete ;;
  bulk_epilogue.

Definition ElasticsearchBulkMarkTransactionInProgress (tk : tick) (xid : Z)
  : bulk unit :=
  bulk_prologue false tk ;;
  appendStringInfo ledger_action ;;
  appendStringInfo
    ("{" +:+ q "upsert" +:+ ":{" +:+ q "zdb_aborted_xids" +:+ ":[" +:+ print_lu xid
     +:+ "]}," +:+ q "script" +:+ ":{" +:+ q "source" +:+ ":"
     +:+ q "ctx._source.zdb_aborted_xids.add(params.XID);" +:+ ","
     +:+ q "lang" +:+ ":" +:+ q "painless" +:+ "," +:+ q "params" +:+ ":{"
     +:+ q "XID" +:+ ":" +:+ print_lu xid +:+ "}}}" +:+ newline) ;;
  bump incr_nxid ;;
  bulk_epilogue.

Definition ElasticsearchBulkMarkTransactionCommitted (xid : Z) : bulk unit :=
  appendStringInfo ledger_action ;;
  appendStringInfo (committed_script xid) ;;
  bump incr_nxid.

(** One call of the interface, with its arguments. *)
Inductive mutation : Type :=
| InsertRow (ctid : option Z) (json : string) (cmin cmax xmin xmax : Z)
| UpdateTuple (ctid : option Z) (llapi_id : string) (cmax xmax : Z)
| VacuumXmax (_id : string) (expected_xmax : Z)
| DeleteRowByXmin (_id : string) (xmin : Z)
| DeleteRowByXmax (_id : string) (xmax : Z)
| MarkTransactionInProgress (xid : Z)
| MarkTransactionCommitted (xid : Z).

Definition append_mutation (tk : tick) (m : mutation) : bulk unit :=
  match m with
  | InsertRow ctid json cmin cmax xmin xmax =>
      ElasticsearchBulkInsertRow tk ctid json cmin cmax xmin xmax
  | UpdateTuple ctid llapi_id cmax xmax =>
      ElasticsearchBulkUpdateTuple tk ctid llapi_id cmax xmax
  | VacuumXmax _id x => ElasticsearchBulkVacuumXmax tk _id x
  | DeleteRowByXmin _id x => ElasticsearchBulkDeleteRowByXmin tk _id x
  | DeleteRowByXmax _id x => ElasticsearchBulkDeleteRowByXmax tk _id x
  | MarkTransactionInProgress xid => ElasticsearchBulkMarkTransactionInProgress tk xid
  | MarkTransactionCommitted xid => ElasticsearchBulkMarkTransactionCommitted xid
  end.

Fixpoint append_all (ms : list (tick * mutation)) : bulk unit :=
  match ms with
  | [] => ret tt
  | (tk, m) :: ms' => append_mutation tk m ;; append_all ms'
  end.

End Appends.

(** ** [ElasticsearchStartBulkProcess] *)

(** The index options the function reads through the [ZDBIndexOptionsGet*]
    macros. *)
Record index_options := mkOptions {
  opt_relation_name : string;          (* RelationGetRelationName(indexRel) *)
  opt_index_name : option string;
  opt_batch_size : Z;
  opt_bulk_concurrency : nat;
  opt_refresh_interval : string
}.

(** [palloc0]: every field zero.  [current] is a pointer; the null pointer is
    shown as an entry on slot 0 that is never used, since the function
    either raises before anything else or sets [current]. *)
Definition palloc0 : ElasticsearchBulkContext :=
  mkContext (mkConfig 0 0 false false false) false (mkRest 0 [] []) []
            (mkEntry EmptyString 0) 0 0 0 (mkTallies 0 0 0 0 0) [].

(** [tupdesc] is [None] for [NULL], and otherwise carries what
    [tuple_desc_contains_json] answers for the descriptor. *)
Definition ElasticsearchStartBulkProcess (indexRel : index_options)
    (indexName : option string) (tupdesc : option bool)
    (ignore_version_conflicts : bool) : result unit :=
  let indexName' := match indexName with
                    | Some n => Some n
                    | None => opt_index_name indexRel
                    end in
  match indexName' with
  | None => ERROR ("The 'uuid' property is not set on "
                   +:+ opt_relation_name indexRel) palloc0
  | Some _ =>
      let cfg := mkConfig (opt_batch_size indexRel)
                          (opt_bulk_concurrency indexRel)
                          (bool_decide (opt_refresh_interval indexRel = "-1"))
                          (match tupdesc with Some j => j | None => false end)
                          (match tupdesc with Some _ => true | None => false end) in
      let context :=
        mkContext cfg false
          (rest_multi_init (opt_bulk_concurrency indexRel) ignore_version_conflicts)
          (replicate (opt_bulk_concurrency indexRel + 1) (Some EmptyString))
          (mkEntry EmptyString 0) 0 0 0 (mkTallies 0 0 0 0 0) [] in
      (e <- checkout_batch_pool ;;
       modify (set_current e) ;;
       modify (set_waitForActiveShards false)) context
  end.

(** ** [ElasticsearchFinishBulkProcess] *)

(** One turn of the wait loop as the environment decides it: the slots whose
    transfer has completed at this poll, and whether a cancellation is
    pending when [CHECK_FOR_INTERRUPTS()] runs. *)
Record drain_turn := mkTurn { dt_done : list nat; dt_interrupt : bool }.

Definition CHECK_FOR_INTERRUPTS (pending : bool) : bulk unit :=
  if pending then elog_ERROR "canceling statement due to user request" else ret tt.

(** [while (!rest_multi_all_done(rest)) { rest_multi_is_available(rest);
    CHECK_FOR_INTERRUPTS(); }].  The schedule lists the turns the environment
    takes; when it is used up, every transfer still running completes at the
    next poll (the transport finishes every request in the end). *)
Fixpoint wait_all_done (schedule : list drain_turn) : bulk unit :=
  done <- rest_multi_all_done ;;
  if done then ret tt
  else match schedule with
       | t :: schedule' =>
           _ <- rest_multi_is_available (dt_done t) ;;
           CHECK_FOR_INTERRUPTS (dt_interrupt t) ;;
           wait_all_done schedule'
       | [] =>
           r <- gets rest ;;
           _ <- rest_multi_is_available (map pool_idx (running r)) ;;
           ret tt
       end.

Definition ElasticsearchFinishBulkProcess (tk : tick) (schedule : list drain_turn)
  : bulk unit :=
  n <- gets (fun c => len (buff (current c))) ;;
  when (0 <? n)
    (* we have more data to send to ES via curl *)
    (bulk_prologue true tk) ;;
  (* wait for all outstanding HTTP requests to finish *)
  n <- gets nrequests ;;
  when (0 <? n) (wait_all_done schedule) ;;
  (* after this call, context->rest is no longer usable *)
  rest_multi_partial_cleanup true false ;;
  emit EvDrained ;;
  c <- gets id ;;
  when (shouldRefresh (config c) && (1 <? nrequests c))
    (* we did more than 1 request, so force a full refresh across the entire index *)
    (emit EvRefresh).

(** A whole session: start, the appends, the final drain. *)
Definition bulk_session (replace_line_breaks strip_json_ending : string -> string)
    (indexRel : index_options)
    (indexName : option string) (tupdesc : option bool)
    (ms : list (tick * mutation)) (tk : tick) (schedule : list drain_turn)
  : result unit :=
  match ElasticsearchStartBulkProcess indexRel indexName tupdesc false with
  | OK _ c =>
      (append_all replace_line_breaks strip_json_ending ms ;;
       ElasticsearchFinishBulkProcess tk schedule) c
  | ERROR msg c => ERROR msg c
  end.

(** The bulk requests of a log, oldest first. *)
Definition bulk_requests (l : list event) : list bulk_request :=
  omap (fun e => match e with EvBulk r => Some r | _ => None end) l.

(** Buffers out of the pool after the events of [l]: checkouts minus
    returns. *)
Definition checked_out (l : list event) : Z :=
  foldl (fun n e => match e with
                    | EvCheckout _ => n + 1
                    | EvReturn _ => n - 1
                    | _ => n
                    end) 0 l.

(** ** Sample inputs *)

(** Nothing completes at this poll. *)
Definition quiet_tick : tick := mkTick [] [].

(** Batches of 15 bytes, one request at a time, refresh interval [-1]. *)
Definition sample_options : index_options := mkOptions "idx_rel" (Some "idx") 15 1 "-1".

Definition sample_appends : list (tick * mutation) :=
  [(quiet_tick, InsertRow None "{}" 0 0 2 0);
   (quiet_tick, VacuumXmax "1" 5);
   (quiet_tick, UpdateTuple (Some 1) "1" 0 7);
   (quiet_tick, DeleteRowByXmin "1" 5);
   (quiet_tick, MarkTransactionInProgress 8)].

(** The context after a start with batches of 5 bytes and one insert; the
    two helpers of the utility code stand as the identity. *)
Definition sample_context : ElasticsearchBulkContext :=
  match ElasticsearchStartBulkProcess (mkOptions "idx_rel" (Some "idx") 5 1 "-1") None None false with
  | OK _ c => final_context (ElasticsearchBulkInsertRow id id quiet_tick None
                                                        "{}" 0 0 2 0 c)
  | ERROR _ c => c
  end.

(** A pool of two slots, both empty. *)
Definition exhausted_context : ElasticsearchBulkContext :=
  mkContext (mkConfig 15 1 true false false) false (mkRest 1 [] []) [None; None]
            (mkEntry EmptyString 0) 0 0 0 (mkTallies 0 0 0 0 0) [].

End Bulk.

(* ================================================================== *)
(** * Scroll cursors *)
(* ================================================================== *)

(** [ItemPointerData]: block number (32 bits) and offset (16 bits). *)
Record ItemPointerData := mkItemPointer { ip_blkid : Z; ip_posid : Z }.

(** [ItemPointerSet(ctid, (BlockNumber) (x >> 32), (OffsetNumber) x)] *)
Definition ItemPointerSet_from_uint64 (x : Z) : ItemPointerData :=
  mkItemPointer (Z.land (Z.shiftr x 32) (Z.ones 32)) (Z.land x (Z.ones 16)).

Module Scroll.

Inductive SortByDir : Type :=
| SORTBY_DEFAULT | SORTBY_ASC | SORTBY_DESC | SORTBY_USING.

(** The [sort] member of the search body: [[{"field":"order"}]] when a sort
    is needed, the bare [["_score"]] or [["_doc"]] otherwise. *)
Inductive sort_clause : Type :=
| SortBy (field order : string)
| SortBare (field : string).

Record ZDBHighlightInfo := mkHighlight { hl_name : string; hl_json : string }.

(** The search that [ElasticsearchOpenScroll] posts: the members of the JSON
    body and the parameters of the URL that depend on the arguments.
    [scroll=10m], [_source=false] and [filter_path] are fixed. *)
Record search_request := mkSearch {
  sq_track_scores : bool;
  sq_sort : sort_clause;
  sq_query : string;
  sq_highlight : list ZDBHighlightInfo;
  sq_size : Z;
  sq_stored_fields : string;
  sq_docvalue_fields : string
}.

(** [float8] and [float4]: IEEE 754 binary64 and binary32.  The cast
    [(float4) x] rounds to the nearest binary32, ties to even. *)
Definition float8 : Type := spec_float.

Definition float4_of_float8 (x : float8) : spec_float :=
  match x with
  | S754_finite s m e => binary_round 24 128 s m e
  | _ => x
  end.

(** One element of [hits.hits] as far as the cursor reads it: what the
    JSON readers give for its members. *)
Record hit := mkHit {
  hit_id : string;                 (* get_json_object_string(hit, "_id") *)
  hit_zdb_ctid : Z;                (* fields.zdb_ctid[0], a uint64 *)
  hit_score : float8;              (* get_json_object_real(hit, "_score") *)
  hit_highlight : option string    (* get_json_object_object(hit, "highlight", true) *)
}.

(** A parsed response, as what the JSON readers give for it: [rs_error] is
    the response text when [get_json_object_object] finds an [error]
    member (the text is what [ereport] then shows), then [_scroll_id],
    [hits.total], and for [rs_hits] what [get_json_object_array] gives
    for [hits.hits], [None] standing for [NULL]. *)
Record search_response := mkResponse {
  rs_error : option string;
  rs_scroll_id : string;
  rs_total : Z;
  rs_hits : option (list hit)
}.

Inductive http_request : Type :=
| ReqSearch (rq : search_request)      (* POST url/index/type/_search?... *)
| ReqScroll (scroll_id : string).      (* POST url/_search/scroll, body {scroll, scroll_id} *)

(** The search engine behind [rest_call], as an interface: how it answers
    the first search and a continuation. *)
Class Backend (B : Type) := {
  es_search : search_request -> B -> search_response * B;
  es_scroll : string -> B -> search_response * B
}.

(** The world a cursor runs in: the engine and the requests sent so far. *)
Record world (B : Type) := mkWorld { engine : B; sent : list http_request }.
Arguments mkWorld {B} engine sent.
Arguments engine {B} w.
Arguments sent {B} w.

Definition rest_call_search {B} `{Backend B} (rq : search_request) (w : world B)
  : search_response * world B :=
  let (r, b) := es_search rq (engine w) in
  (r, mkWorld b (sent w ++ [ReqSearch rq])).

Definition rest_call_scroll {B} `{Backend B} (scroll_id : string) (w : world B)
  : search_response * world B :=
  let (r, b) := es_scroll scroll_id (engine w) in
  (r, mkWorld b (sent w ++ [ReqScroll scroll_id])).

(** What lives in [jsonMemoryContext]: one entry for each call of a JSON
    reader that is handed the context to allocate in, since the last
    [MemoryContextReset]. *)
Inductive json_object : Type :=
| JResponse (r : search_response)    (* parse_json_object *)
| JHit (h : hit)                     (* get_json_array_element_object *)
| JNumber (n : Z).                   (* get_json_array_element_uint64 *)

(** A pointer into [jsonMemoryContext]: [NULL], a pointer to an object
    that the context holds, or a pointer that a [MemoryContextReset] has
    left behind, whose object is gone. *)
Inductive pointer (A : Type) : Type :=
| NULL
| Ref (a : A)
| Dangling.
Arguments NULL {A}.
Arguments Ref {A} a.
Arguments Dangling {A}.

(** The pointer that a reader returns. *)
Definition to_pointer {A} (o : option A) : pointer A :=
  match o with Some a => Ref a | None => NULL end.

(** A pointer after [MemoryContextReset]. *)
Definition after_reset {A} (p : pointer A) : pointer A :=
  match p with NULL => NULL | _ => Dangling end.

(** [ElasticsearchScrollContext].  [cnt], [currpos], [total] and [limit]
    are [uint64], [nhits] is an [int]; the field [fields] is the [fields]
    member of [hitEntry] and is not kept apart. *)
Record ElasticsearchScrollContext := mkScroll {
  usingId : bool;
  scrollId : string;
  hasHighlights : bool;
  cnt : Z;
  currpos : Z;
  total : Z;
  limit : Z;
  extraFields : list string;
  hits : pointer (list hit);
  nhits : Z;
  hitEntry : pointer hit;
  jsonMemoryContext : list json_object
}.

(** What a call gives: it returns, it raises, or it reads through a
    dangling pointer, and what the code does from that state on is not
    defined. *)
Inductive outcome (A B : Type) : Type :=
| SOK (a : A) (c : ElasticsearchScrollContext) (w : world B)
| SERR (msg : string) (c : ElasticsearchScrollContext) (w : world B)
| SUNDEFINED (c : ElasticsearchScrollContext) (w : world B).
Arguments SOK {A B} a c w.
Arguments SERR {A B} msg c w.
Arguments SUNDEFINED {A B} c w.

(** ** [ElasticsearchOpenScroll] *)

(** Lines 656-705: the request built from the arguments. *)
Definition open_scroll_request (queryDSL : string) (use_id needSort needScore : bool)
    (limit : Z) (sortField : option string) (direction : SortByDir)
    (highlights : list ZDBHighlightInfo) (extraFields : list string)
  : search_request :=
  (* we'll assume we want scoring if we have a limit *)
  let needScore := needScore || (0 <? limit) in
  let '(needSort, sortField, direction) :=
    match sortField with
    | Some f => (true, f, direction)
    | None =>
        if needSort then
          (* need a default sorting here *)
          (needSort,
           if needScore then "_score" else "zdb_ctid",
           match direction with
           | SORTBY_DEFAULT => if needScore then SORTBY_DESC else SORTBY_ASC
           | d => d
           end)
        else (needSort, EmptyString, direction)
    end in
  mkSearch needScore
    (if needSort then
       SortBy sortField
              match direction with
              | SORTBY_DEFAULT | SORTBY_ASC => "asc"
              | _ => "desc"
              end
     else SortBare (if needScore then "_score" else "_doc"))
    queryDSL
    highlights
    (if limit =? 0 then MAX_DOCS_PER_REQUEST else limit)
    (match highlights with
     | _ :: _ => "type"
     | [] => if use_id then "_id" else "_none_"
     end)
    (foldl (fun acc f => acc +:+ "," +:+ f) "zdb_ctid" extraFields).

(** [palloc0] *)
Definition scroll_palloc0 : ElasticsearchScrollContext :=
  mkScroll false EmptyString false 0 0 0 0 [] NULL 0 NULL [].

(** [hits == NULL ? 0 : get_json_array_length(hits)], an [int]. *)
Definition array_length (h : option (list hit)) : Z :=
  match h with None => 0 | Some l => int32 (Z.of_nat (length l)) end.

Definition ElasticsearchOpenScroll {B} `{Backend B} (queryDSL : string)
    (use_id needSort needScore : bool) (limit : Z) (sortField : option string)
    (direction : SortByDir) (highlights : list ZDBHighlightInfo)
    (extraFields : list string) (w : world B)
  : outcome unit B :=
  let rq := open_scroll_request queryDSL use_id needSort needScore limit sortField
                                direction highlights extraFields in
  let (response, w') := rest_call_search rq w in
  let mem := [JResponse response] in
  let context0 := mkScroll false EmptyString false 0 0 0 0 [] NULL 0 NULL mem in
  match rs_error response with
  | Some body => SERR body context0 w'
  | None =>
      let total := u64 (rs_total response) in
      SOK tt
        (mkScroll use_id (rs_scroll_id response)
                  (match highlights with [] => false | _ => true end)
                  0 0 total limit extraFields
                  (if 0 <? total then to_pointer (rs_hits response) else NULL)
                  (if 0 <? total then array_length (rs_hits response) else 0)
                  NULL mem)
        w'
  end.

(** ** [ElasticsearchGetNextItemPointer] *)

(** Lines 755-788, the body of [if (context->currpos == context->nhits)]:
    "we exhausted the current set of hits, so go get more".  The memory is
    reset before the response is looked at: when the response carries an
    error, the function raises with [hits] and [hitEntry] still pointing
    into the memory that is gone. *)
Definition fetch_more {B} `{Backend B} (c : ElasticsearchScrollContext) (w : world B)
  : outcome unit B :=
  let (response, w') := rest_call_scroll (scrollId c) w in
  (* make sure we don't leak the hits json from the previous request *)
  let reset := match hits c with NULL => false | _ => true end in
  let mem := if reset then [] else jsonMemoryContext c in
  let hits' := if reset then after_reset (hits c) else hits c in
  let hitEntry' := if reset then after_reset (hitEntry c) else hitEntry c in
  let mem := mem ++ [JResponse response] in
  match rs_error response with
  | Some body =>
      SERR body
           (mkScroll (usingId c) (scrollId c) (hasHighlights c) (cnt c) (currpos c)
                     (total c) (limit c) (extraFields c) hits' (nhits c)
                     hitEntry' mem) w'
  | None =>
      SOK tt
          (mkScroll (usingId c) (rs_scroll_id response) (hasHighlights c) (cnt c) 0
                    (total c) (limit c) (extraFields c)
                    (to_pointer (rs_hits response))
                    (array_length (rs_hits response)) hitEntry' mem) w'
  end.

(** Which of the out parameters [ctid], [_id], [score] and [highlights]
    the caller passes, the others being [NULL]. *)
Record out_parameters := mkOut {
  out_ctid : bool;
  out_id : bool;
  out_score : bool;
  out_highlights : bool
}.

(** What a call writes through its out parameters, [None] for one that
    it does not write.  [*_id] and [*highlights] can be set to [NULL]. *)
Record item := mkItem {
  it_ctid : option ItemPointerData;
  it_id : option (option string);
  it_score : option spec_float;
  it_highlights : option (option string)
}.

(** Lines 790-826.  [get_json_array_element_object] is not defined in
    elasticsearch.c: an index beyond the page is taken to make it raise,
    and the text stands for its message. *)
Definition take_hit {B} (want : out_parameters) (c : ElasticsearchScrollContext)
    (w : world B) : outcome item B :=
  match hits c with
  | NULL => SERR "No results found when loading next scroll context" c w
  | Dangling => SUNDEFINED c w
  | Ref page =>
      match page !! Z.to_nat (currpos c) with
      | None => SERR "json array index out of range" c w
      | Some h =>
          let es_id := if usingId c then Some (hit_id h) else None in
          let reads_ctid := negb (usingId c) && out_ctid want in
          (* set ctid out parameter *)
          let ctid := if reads_ctid
                      then Some (ItemPointerSet_from_uint64 (hit_zdb_ctid h))
                      else None in
          (* set our out parameters *)
          SOK (mkItem ctid
                      (if out_id want then Some es_id else None)
                      (if out_score want
                       then Some (float4_of_float8 (hit_score h)) else None)
                      (if out_highlights want
                       then Some (if hasHighlights c then hit_highlight h else None)
                       else None))
              (mkScroll (usingId c) (scrollId c) (hasHighlights c)
                        (u64 (cnt c + 1)) (u64 (currpos c + 1))
                        (total c) (limit c) (extraFields c) (hits c) (nhits c)
                        (Ref h)
                        (jsonMemoryContext c
                         ++ JHit h :: (if reads_ctid
                                       then [JNumber (hit_zdb_ctid h)] else [])))
              w
      end
  end.

(** In [context->currpos == context->nhits] the [int] is converted to
    [uint64]. *)
Definition ElasticsearchGetNextItemPointer {B} `{Backend B} (want : out_parameters)
    (c : ElasticsearchScrollContext) (w : world B) : outcome item B :=
  if total c <=? cnt c then
    SERR ("Attempt to read past total number of hits of " +:+ Bulk.print_lu (total c))
         c w
  else if currpos c =? u64 (nhits c) then
    match fetch_more c w with
    | SOK _ c' w' => take_hit want c' w'
    | SERR msg c' w' => SERR msg c' w'
    | SUNDEFINED c' w' => SUNDEFINED c' w'
    end
  else take_hit want c w.

(** The context and the world that a call leaves; for a call whose
    behaviour is not defined, those in which it reads through the dangling
    pointer. *)
Definition outcome_context {A B} (o : outcome A B) : ElasticsearchScrollContext :=
  match o with SOK _ c _ => c | SERR _ c _ => c | SUNDEFINED c _ => c end.

Definition outcome_world {A B} (o : outcome A B) : world B :=
  match o with SOK _ _ w => w | SERR _ _ w => w | SUNDEFINED _ w => w end.

(** [n] calls of [ElasticsearchGetNextItemPointer] in a row: what they
    hand out through the out parameters, or [None] as soon as one does not
    return. *)
Fixpoint read_hits {B} `{Backend B} (want : out_parameters) (n : nat)
    (c : ElasticsearchScrollContext) (w : world B)
  : option (list item * ElasticsearchScrollContext * world B) :=
  match n with
  | O => Some ([], c, w)
  | S n' =>
      match ElasticsearchGetNextItemPointer want c w with
      | SOK it c' w' =>
          match read_hits want n' c' w' with
          | Some (l, c'', w'') => Some (it :: l, c'', w'')
          | None => None
          end
      | _ => None
      end
  end.


(** ** A paging engine

    An engine that answers as the scroll API does: the hits of a search in
    sort order, handed out [size] at a time; each answer carries a new
    continuation token and only the last one handed out is honoured; the
    response filter drops an empty [hits.hits]. *)
Record paged := mkPaged {
  pg_all : list hit;
  pg_pending : list hit;
  pg_size : nat;
  pg_serial : nat
}.

Definition token (n : nat) : string := pretty n.

Definition page_of (l : list hit) : option (list hit) :=
  match l with [] => None | _ => Some l end.

Definition paged_search (rq : search_request) (b : paged) : search_response * paged :=
  let n := Z.to_nat (sq_size rq) in
  (mkResponse None (token (S (pg_serial b))) (Z.of_nat (length (pg_all b)))
              (page_of (take n (pg_all b))),
   mkPaged (pg_all b) (drop n (pg_all b)) n (S (pg_serial b))).

Definition paged_scroll (scroll_id : string) (b : paged) : search_response * paged :=
  if bool_decide (scroll_id = token (pg_serial b)) then
    (mkResponse None (token (S (pg_serial b))) (Z.of_nat (length (pg_all b)))
                (page_of (take (pg_size b) (pg_pending b))),
     mkPaged (pg_all b) (drop (pg_size b) (pg_pending b)) (pg_size b)
             (S (pg_serial b)))
  else
    (mkResponse (Some "search_context_missing_exception") EmptyString 0 None, b).

#[export] Instance paged_backend : Backend paged :=
  {| es_search := paged_search; es_scroll := paged_scroll |}.

Definition paged_world (hs : list hit) : world paged :=
  mkWorld (mkPaged hs [] 0 0) [].

(** The binary64 number 1.0. *)
Definition float8_one : float8 := S754_finite false 4503599627370496 (-52).

(** Every out parameter is passed. *)
Definition every_out : out_parameters := mkOut true true true true.

(** A hit of block 7, offset 3. *)
Definition packed_hit : hit := mkHit "a" (Z.lor (Z.shiftl 7 32) 3) float8_one None.

(** [n] hits numbered from [k]. *)
Fixpoint numbered_hits (k : Z) (n : nat) : list hit :=
  match n with
  | O => []
  | S n' => mkHit (pretty k) k float8_one None :: numbered_hits (k + 1) n'
  end.

(** The scenario of the spec: 25 hits, scrolled 10 at a time. *)
Definition scenario_hits : list hit := numbered_hits 0 25.

(** The cursor and the world after the open and [k] calls of next;
    the cursor is [scroll_palloc0] if any of them raised. *)
Definition scenario_after (k : nat)
  : ElasticsearchScrollContext * world paged :=
  match ElasticsearchOpenScroll "{}" false false false 10 None SORTBY_DEFAULT [] []
                                (paged_world scenario_hits) with
  | SOK _ c w =>
      match read_hits every_out k c w with
      | Some (_, c', w') => (c', w')
      | None => (scroll_palloc0, w)
      end
  | SERR _ c w | SUNDEFINED c w => (scroll_palloc0, w)
  end.

End Scroll.

(* ================================================================== *)
(** * The ledger of aborted transaction ids *)
(* ================================================================== *)

Module Ledger.

Inductive script : Type :=
| RemoveXid (xid : Z)
    (* ctx._source.zdb_aborted_xids.remove(...indexOf(params.XID)), {"XID":%lu} *)
| RemoveAllXids (xids_array : string).
    (* ctx._source.zdb_aborted_xids.removeAll(params.XIDS), {"XIDS":[%s]} *)

(** [POST url/index/type/<doc>/_update?retry_on_conflict=<n>] with
    [&refresh=true] when [up_refresh]. *)
Record update_request := mkUpdate {
  up_doc : string;
  up_retry_on_conflict : Z;
  up_refresh : bool;
  up_script : script
}.

(** [appendStringInfo(xidsArray, "%lu", xid)] *)
Definition print_lu (xid : Z) : string := pretty (u64 xid).

(** The [foreach] loop that fills [xidsArray]. *)
Definition xids_array (xids : list Z) : string :=
  foldl (fun xidsArray xid =>
           (if 0 <? len xidsArray then xidsArray +:+ "," else xidsArray)
           +:+ print_lu xid)
        EmptyString xids.

(** [refresh_interval] is the index's configured refresh interval; [sent]
    are the requests sent so far. *)
Definition ElasticsearchCommitCurrentTransaction (refresh_interval : string)
    (xid : Z) (sent : list update_request) : list update_request :=
  sent ++ [mkUpdate "zdb_aborted_xids" 128
                    (bool_decide (refresh_interval = "-1")) (RemoveXid xid)].

Definition ElasticsearchRemoveAbortedTransactions (refresh_interval : string)
    (xids : list Z) (sent : list update_request) : list update_request :=
  if (0 <? length xids)%nat then
    sent ++ [mkUpdate "zdb_aborted_xids" 128 true (RemoveAllXids (xids_array xids))]
  else sent.

End Ledger.

(* ================================================================== *)
(** * The scoring registry *)
(* ================================================================== *)

Module Scoring.

(** [float4]: IEEE 754 binary32. *)
Definition float4 : Type := spec_float.
Definition float4_add (x y : float4) : float4 := SFadd 24 128 x y.
Definition float4_zero : float4 := S754_zero false.

Section Registry.

(** What a callback is handed as its [void *arg]. *)
Variable callback_arg : Type.

Definition score_lookup_callback : Type :=
  ItemPointerData -> callback_arg -> float4.

Record ZDBScoringSupportData := mkSupport {
  heapOid : Z;
  callbacks : list score_lookup_callback;
  callback_data : list callback_arg
}.

(** [scoring_support_cleanup]: [scoreEntries = NULL]. *)
Definition scoring_support_cleanup : list ZDBScoringSupportData := [].

(** [scoring_register_callback]: the [foreach] over [scoreEntries] that
    extends the first entry of the relation, and the new entry appended
    when the loop finds none. *)
Fixpoint scoring_register_callback (oid : Z) (callback : score_lookup_callback)
    (data : callback_arg) (scoreEntries : list ZDBScoringSupportData)
  : list ZDBScoringSupportData :=
  match scoreEntries with
  | [] => [mkSupport oid [callback] [data]]
  | existing :: entries =>
      if oid =? heapOid existing then
        mkSupport (heapOid existing) (callbacks existing ++ [callback])
                  (callback_data existing ++ [data]) :: entries
      else existing :: scoring_register_callback oid callback data entries
  end.

(** [forboth(lc2, entry->callbacks, lc3, entry->callback_data)]:
    [score += callback(ctid, arg)]. *)
Definition add_entry_scores (ctid : ItemPointerData) (score : float4)
    (entry : ZDBScoringSupportData) : float4 :=
  foldl (fun s ca => float4_add s (fst ca ctid (snd ca))) score
        (zip (callbacks entry) (callback_data entry)).

Definition scoring_lookup_score (oid : Z) (ctid : ItemPointerData)
    (scoreEntries : list ZDBScoringSupportData) : float4 :=
  foldl (fun score entry =>
           if oid =? heapOid entry then add_entry_scores ctid score entry
           else score)
        float4_zero scoreEntries.

(** The first argument of the [FuncExpr]: a [Var] with its range-table
    index, or something else. *)
Inductive Node : Type :=
| Var (varnoold : nat)
| OtherNode.

(** [zdb_score]; [rt_relid] is [rt_fetch(i, rtable)->relid]. *)
Definition zdb_score (ctid : ItemPointerData) (firstArg : Node) (rt_relid : nat -> Z)
    (scoreEntries : list ZDBScoringSupportData) : string + float4 :=
  match firstArg with
  | Var varnoold => inr (scoring_lookup_score (rt_relid varnoold) ctid scoreEntries)
  | OtherNode =>
      inl "zdb_score()'s argument is not a direct table ctid column reference"
  end.

(** A registration, and the registry after a list of them. *)
Record registration := mkRegistration {
  reg_oid : Z;
  reg_callback : score_lookup_callback;
  reg_data : callback_arg
}.

Definition register_all (rs : list registration) : list ZDBScoringSupportData :=
  foldl (fun entries r =>
           scoring_register_callback (reg_oid r) (reg_callback r) (reg_data r) entries)
        scoring_support_cleanup rs.

(** The values the callbacks registered for [oid] give at [ctid], in the
    order of registration, added up from [0.0]. *)
Definition sum_of_registered (oid : Z) (ctid : ItemPointerData)
    (rs : list registration) : float4 :=
  foldl (fun s r => float4_add s (reg_callback r ctid (reg_data r))) float4_zero
        (List.filter (fun r => oid =? reg_oid r) rs).

End Registry.

Arguments mkSupport {callback_arg} heapOid callbacks callback_data.
Arguments heapOid {callback_arg} z.
Arguments callbacks {callback_arg} z.
Arguments callback_data {callback_arg} z.
Arguments mkRegistration {callback_arg} reg_oid reg_callback reg_data.
Arguments reg_oid {callback_arg} r.
Arguments reg_callback {callback_arg} r.
Arguments reg_data {callback_arg} r.
Arguments scoring_register_callback {callback_arg} oid callback data scoreEntries.
Arguments scoring_lookup_score {callback_arg} oid ctid scoreEntries.
Arguments add_entry_scores {callback_arg} ctid score entry.
Arguments zdb_score {callback_arg} ctid firstArg rt_relid scoreEntries.
Arguments register_all {callback_arg} rs.
Arguments sum_of_registered {callback_arg} oid ctid rs.

(** The binary32 numbers 1.0, 2.0 and 0.5. *)
Definition one : float4 := S754_finite false 8388608 (-23).
Definition two : float4 := S754_finite false 8388608 (-22).
Definition half : float4 := S754_finite false 8388608 (-24).

(** Callbacks that give the number they are handed, and twice that. *)
Definition constant_score : score_lookup_callback float4 := fun _ x => x.
Definition doubled_score : score_lookup_callback float4 :=
  fun _ x => float4_add x x.

(** Two callbacks for relation 16384, one for 16385, a third for 16384. *)
Definition sample_registrations : list (registration float4) :=
  [mkRegistration 16384 constant_score one;
   mkRegistration 16385 constant_score two;
   mkRegistration 16384 doubled_score half;
   mkRegistration 16384 constant_score half].

End Scoring.

(* ================================================================== *)
(** * Index management and aggregates *)
(* ================================================================== *)

Module Admin.

Local Abbreviation q := Bulk.q.
Local Abbreviation print_lu := Bulk.print_lu.
Local Abbreviation print_d := Bulk.print_d.
Local Abbreviation print_u := Bulk.print_u.

Definition INT32_MAX : Z := 2 ^ 31 - 1.

(** [%s] of a [char *] that may be [NULL]: [vsnprintf] prints [(null)]. *)
Definition percent_s (s : option string) : string := default "(null)" s.

(** What this code reads of an index relation: its catalog entry (name,
    oid, namespace, and the name and oid of the heap relation that
    [IndexGetRelation] finds for it) and its options, under the names of
    the macros that read them.  An option of type [char *] that the code
    tests against [NULL] is an [option]. *)
Record Relation := mkRelation {
  RelationGetRelationName : string;
  RelationGetRelid : Z;
  RelationGetNamespace : Z;
  namespace_name : string;          (* get_namespace_name(RelationGetNamespace(indexRel)) *)
  heap_name : string;               (* RelationGetRelationName(heapRel) *)
  heap_relid : Z;                   (* RelationGetRelid(heapRel) *)
  ZDBIndexOptionsGetUrl : string;
  ZDBIndexOptionsGetIndexName : option string;
  ZDBIndexOptionsGetAlias : option string;
  ZDBIndexOptionsGetTypeName : string;
  ZDBIndexOptionsGetNumberOfShards : Z;
  ZDBIndexOptionsGetNumberOfReplicas : Z;
  ZDBIndexOptionsGetRefreshInterval : string;
  ZDBIndexOptionsGetCompressionLevel : Z
}.

(** One call of [rest_call(method, url, postData, compressionLevel)]. *)
Record rest_request := mkCall {
  rc_method : string;
  rc_url : string;
  rc_post : option string;
  rc_compression : Z
}.

(** A function of this part either returns, or raises through
    [elog(ERROR)]; either way [sent] are the requests made so far. *)
Inductive answer (A : Type) : Type :=
| Returned (a : A) (sent : list rest_request)
| Raised (msg : string) (sent : list rest_request).
Arguments Returned {A} a sent.
Arguments Raised {A} msg sent.

Definition rest (A : Type) : Type := list rest_request -> answer A.

Definition rest_ret {A} (a : A) : rest A := fun sent => Returned a sent.
Definition rest_bind {A B} (m : rest A) (k : A -> rest B) : rest B :=
  fun sent => match m sent with
              | Returned a sent' => k a sent'
              | Raised msg sent' => Raised msg sent'
              end.
Definition rest_elog_ERROR {A} (msg : string) : rest A := fun sent => Raised msg sent.

Declare Scope rest_scope.
Delimit Scope rest_scope with rest.
Notation "x <- m ;; k" := (rest_bind m (fun x => k))
  (at level 100, m at next level, k at level 200, right associativity) : rest_scope.
Notation "m ;; k" := (rest_bind m (fun _ => k))
  (at level 100, k at level 200, right associativity) : rest_scope.
Open Scope rest_scope.

Definition requests_of {A} (r : answer A) : list rest_request :=
  match r with Returned _ sent => sent | Raised _ sent => sent end.

(** What the function returned, if it did. *)
Definition returned {A} (r : answer A) : option A :=
  match r with Returned a _ => Some a | Raised _ _ => None end.

Section Calls.

(** The caller's query object and the DSL builder of querygen.c. *)
Variable ZDBQueryType : Type.
Variable convert_to_query_dsl : Relation -> ZDBQueryType -> string.

(** Modelled from the spec: [rest_call] of rest/rest.c
    ([call(method, url, body, compression) -> response], synchronous; a
    transport error is fatal).  The cluster answers a request, given those
    it has seen before, with a response ([inr]) or the call fails
    ([inl]). *)
Variable cluster : list rest_request -> rest_request -> string + string.

Definition rest_call (method url : string) (postData : option string)
    (compressionLevel : Z) : rest string :=
  fun sent =>
    let rq := mkCall method url postData compressionLevel in
    match cluster sent rq with
    | inr response => Returned response (sent ++ [rq])
    | inl msg => Raised msg (sent ++ [rq])
    end.

(** [validate_alias(indexRel)] *)
Definition validate_alias (indexRel : Relation) : rest unit :=
  match ZDBIndexOptionsGetAlias indexRel with
  | None => rest_elog_ERROR ("index '" +:+ RelationGetRelationName indexRel
                             +:+ "' doesn't have an alias")
  | Some _ => rest_ret tt
  end.

(** ** Names *)

(** [str_tolower(name, strlen(name), DEFAULT_COLLATION_OID)] of
    PostgreSQL, and [get_database_name(MyDatabaseId)] with
    [MyDatabaseId]. *)
Variable str_tolower : string -> string.
Variable database_name : string.
Variable MyDatabaseId : Z.

Definition make_alias_name (indexRel : Relation) (force_default : bool) : string :=
  match force_default, ZDBIndexOptionsGetAlias indexRel with
  | false, Some alias => alias
  | _, _ =>
      str_tolower (database_name +:+ "." +:+ namespace_name indexRel +:+ "."
                   +:+ heap_name indexRel +:+ "."
                   +:+ RelationGetRelationName indexRel +:+ "-"
                   +:+ print_d (RelationGetRelid indexRel))
  end.

(** [rnd] is what [random()] returns. *)
Definition generate_uuid_index_name (indexRel : Relation) (rnd : Z) : string :=
  print_d MyDatabaseId +:+ "." +:+ print_d (RelationGetNamespace indexRel) +:+ "."
  +:+ print_d (heap_relid indexRel) +:+ "." +:+ print_d (RelationGetRelid indexRel)
  +:+ "-" +:+ print_lu rnd.

(** ** Requests on the index itself *)

(** [endpoint[0] == '/'] and [endpoint + 1]. *)
Definition starts_with_slash (endpoint : string) : bool :=
  match endpoint with
  | String c _ => Ascii.eqb c (Ascii.ascii_of_nat 47)
  | EmptyString => false
  end.
Definition plus_one (endpoint : string) : string :=
  match endpoint with
  | String _ rest_of_endpoint => rest_of_endpoint
  | EmptyString => EmptyString
  end.

Definition ElasticsearchArbitraryRequest (indexRel : Relation) (method endpoint : string)
    (postData : option string) : rest string :=
  if starts_with_slash endpoint then
    (* caller wants to directly query the cluster from the root *)
    rest_call method (ZDBIndexOptionsGetUrl indexRel +:+ plus_one endpoint) postData
              (ZDBIndexOptionsGetCompressionLevel indexRel)
  else
    (* caller wants to query the index *)
    rest_call method
              (ZDBIndexOptionsGetUrl indexRel
               +:+ percent_s (ZDBIndexOptionsGetIndexName indexRel) +:+ "/"
               +:+ endpoint)
              postData (ZDBIndexOptionsGetCompressionLevel indexRel).

Definition ElasticsearchDeleteIndex (indexRel : Relation) : rest unit :=
  _ <- rest_call "DELETE"
         (ZDBIndexOptionsGetUrl indexRel
          +:+ percent_s (ZDBIndexOptionsGetIndexName indexRel))
         None (ZDBIndexOptionsGetCompressionLevel indexRel) ;;
  rest_ret tt.

(** [lookup_analysis_thing(CurrentMemoryContext, kind)] of the mapping
    code; [mapping] below is the text that [generate_mapping(heapRel,
    tupdesc)] gives. *)
Variable lookup_analysis_thing : string -> string.

Definition create_index_settings (indexRel : Relation) (mapping aliasName : string)
  : string :=
    "{" +:+
    "   " +:+ q "settings" +:+ ": {" +:+
    "      " +:+ q "number_of_shards" +:+ ": "
             +:+ print_d (ZDBIndexOptionsGetNumberOfShards indexRel) +:+ "," +:+
    "      " +:+ q "index.number_of_replicas" +:+ ": 0," +:+
    "      " +:+ q "index.refresh_interval" +:+ ": " +:+ q "-1" +:+ "," +:+
    "      " +:+ q "index.query.default_field" +:+ ": " +:+ q "zdb_all" +:+ "," +:+
    "      " +:+ q "analysis" +:+ ": {" +:+
    "         " +:+ q "filter" +:+ ": { " +:+ lookup_analysis_thing "filters" +:+ " }," +:+
    "         " +:+ q "char_filter" +:+ " : { "
                +:+ lookup_analysis_thing "char_filters" +:+ " }," +:+
    "         " +:+ q "tokenizer" +:+ " : { "
                +:+ lookup_analysis_thing "tokenizers" +:+ " }," +:+
    "         " +:+ q "analyzer" +:+ ": { " +:+ lookup_analysis_thing "analyzers" +:+ " }," +:+
    "         " +:+ q "normalizer" +:+ ": { "
                +:+ lookup_analysis_thing "normalizers" +:+ " }" +:+
    "      }" +:+
    "   }," +:+
    "   " +:+ q "mappings" +:+ ": {" +:+
    "      " +:+ q (ZDBIndexOptionsGetTypeName indexRel) +:+ ": { " +:+
    "         " +:+ q "_source" +:+ ": { " +:+ q "enabled" +:+ ": true }," +:+
    "         " +:+ q "dynamic_templates" +:+ ": [" +:+
    "              {" +:+
    "                 " +:+ q "strings" +:+ ": {" +:+
    "                    " +:+ q "match_mapping_type" +:+ ": " +:+ q "string" +:+ "," +:+
    "                    " +:+ q "mapping" +:+ ": {" +:+
    "                       " +:+ q "type" +:+ ": " +:+ q "keyword" +:+ "," +:+
    "                       " +:+ q "ignore_above" +:+ ": 10922," +:+
    "                       " +:+ q "normalizer" +:+ ": " +:+ q "lowercase" +:+ "," +:+
    "                       " +:+ q "copy_to" +:+ ": " +:+ q "zdb_all" +:+
    "                     }" +:+
    "                  }" +:+
    "              }," +:+
    "              {" +:+
    "                 " +:+ q "dates_times" +:+ ": {" +:+
    "                    " +:+ q "match_mapping_type" +:+ ": " +:+ q "date" +:+ "," +:+
    "                    " +:+ q "mapping" +:+ ": {" +:+
    "                       " +:+ q "type" +:+ ": " +:+ q "date" +:+ "," +:+
    "                       " +:+ q "format" +:+ ": "
      +:+ q "strict_date_optional_time||epoch_millis||HH:mm:ss.SSSSSS||HH:mm:ss.SSSSSSZZ"
      +:+ "," +:+
    "                       " +:+ q "copy_to" +:+ ": " +:+ q "zdb_all" +:+
    "                     }" +:+
    "                  }" +:+
    "              }" +:+
    "         ]," +:+
    "         " +:+ q "_all" +:+ ": {" +:+ q "enabled" +:+ ":false}," +:+
    "         " +:+ q "properties" +:+ ": { " +:+ mapping +:+ "}" +:+
    "      }" +:+
    "   }," +:+
    "   " +:+ q "aliases" +:+ ": {" +:+
    "      " +:+ q aliasName +:+ ": {}" +:+
    "   }" +:+
    "}".

(** The function returns the name of the index it created. *)
Definition ElasticsearchCreateIndex (indexRel : Relation) (mapping : string)
    (rnd : Z) (aliasName : string) : rest string :=
  let indexName := match ZDBIndexOptionsGetIndexName indexRel with
                   | Some name => name        (* Reusing index with name '%s' *)
                   | None => generate_uuid_index_name indexRel rnd
                   end in
  let settings := create_index_settings indexRel mapping aliasName in
  (* first, delete the old index *)
  ElasticsearchDeleteIndex indexRel ;;
  (* secondly, create the new index *)
  _ <- rest_call "PUT" (ZDBIndexOptionsGetUrl indexRel +:+ indexName) (Some settings)
         (ZDBIndexOptionsGetCompressionLevel indexRel) ;;
  rest_ret indexName.

(** The body that [ElasticsearchFinalizeIndexCreation] puts. *)
Definition index_settings (indexRel : Relation) : string :=
    "{" +:+
    "   " +:+ q "index" +:+ ": {" +:+
    "      " +:+ q "refresh_interval" +:+ ": "
             +:+ q (ZDBIndexOptionsGetRefreshInterval indexRel) +:+ "," +:+
    "      " +:+ q "number_of_replicas" +:+ ": "
             +:+ print_d (ZDBIndexOptionsGetNumberOfReplicas indexRel) +:+
    "   }" +:+
    "}".

Definition ElasticsearchFinalizeIndexCreation (indexRel : Relation) : rest unit :=
  let settings := index_settings indexRel in
  _ <- rest_call "PUT"
         (ZDBIndexOptionsGetUrl indexRel
          +:+ percent_s (ZDBIndexOptionsGetIndexName indexRel) +:+ "/_settings")
         (Some settings) (ZDBIndexOptionsGetCompressionLevel indexRel) ;;
  rest_ret tt.

(** The body that [ElasticsearchUpdateSettings] posts to [_aliases]. *)
Definition alias_actions (indexRel : Relation) (oldAlias newAlias : string) : string :=
    "{" +:+
    "   " +:+ q "actions" +:+ ": [" +:+
    "      {" +:+ q "remove" +:+ ": {" +:+ q "index" +:+ ": "
             +:+ q (percent_s (ZDBIndexOptionsGetIndexName indexRel)) +:+ ", "
             +:+ q "alias" +:+ ":" +:+ q oldAlias +:+ " } }," +:+
    "      {" +:+ q "add" +:+ ": {" +:+ q "index" +:+ ": "
             +:+ q (percent_s (ZDBIndexOptionsGetIndexName indexRel)) +:+ ", "
             +:+ q "alias" +:+ ":" +:+ q newAlias +:+ " } }" +:+
    "   ]" +:+
    "}".

Definition ElasticsearchUpdateSettings (indexRel : Relation)
    (oldAlias newAlias : option string) : rest unit :=
  let oldAlias := match oldAlias with
                  | Some a => a
                  | None => make_alias_name indexRel true
                  end in
  let newAlias := match newAlias with
                  | Some a => a
                  | None => make_alias_name indexRel false
                  end in
  (if negb (String.eqb oldAlias newAlias) then
     let settings := alias_actions indexRel oldAlias newAlias in
     _ <- rest_call "POST" (ZDBIndexOptionsGetUrl indexRel +:+ "_aliases")
            (Some settings) (ZDBIndexOptionsGetCompressionLevel indexRel) ;;
     rest_ret tt
   else rest_ret tt) ;;
  ElasticsearchFinalizeIndexCreation indexRel.

(** ** Counting *)

(** [get_json_object_uint64(parse_json_object(response), "count")] of the
    JSON code. *)
Variable response_count : string -> Z.

Definition ElasticsearchCount (indexRel : Relation) (query : ZDBQueryType) : rest Z :=
  validate_alias indexRel ;;
  let postData := "{" +:+ q "query" +:+ ":" +:+ convert_to_query_dsl indexRel query
                  +:+ "}" in
  response <- rest_call "POST"
                (ZDBIndexOptionsGetUrl indexRel
                 +:+ percent_s (ZDBIndexOptionsGetAlias indexRel)
                 +:+ "/_count?filter_path=count")
                (Some postData) (ZDBIndexOptionsGetCompressionLevel indexRel) ;;
  rest_ret (response_count response).

(** ** Aggregates *)

(** [query] is [None] for [NULL]. *)
Definition makeAggRequest (indexRel : Relation) (query : option ZDBQueryType)
    (agg : string) (arbitrary : bool) : rest string :=
  validate_alias indexRel ;;
  let postData := "{" in
  let postData := match query with
                  | Some query =>
                      postData +:+ q "query" +:+ ":"
                      +:+ convert_to_query_dsl indexRel query +:+ ","
                  | None => postData
                  end in
  let postData := if arbitrary
                  then postData +:+ q "aggs" +:+ ":" +:+ agg
                  else postData +:+ q "aggs" +:+ ":{" +:+ q "the_agg" +:+ ":" +:+ agg
                       +:+ "}" in
  let postData := postData +:+ "}" in
  rest_call "POST"
            (ZDBIndexOptionsGetUrl indexRel
             +:+ percent_s (ZDBIndexOptionsGetAlias indexRel) +:+ "/_search?size=0")
            (Some postData) (ZDBIndexOptionsGetCompressionLevel indexRel).

Definition ElasticsearchArbitraryAgg (indexRel : Relation)
    (query : option ZDBQueryType) (agg : string) : rest string :=
  makeAggRequest indexRel query agg true.

Definition makeTermsOrderClause (order : string) : string :=
  if String.eqb "count" order then
    "," +:+ q "order" +:+ ":{" +:+ q "_count" +:+ ":" +:+ q "desc" +:+ "}"
  else if String.eqb "term" order then
    "," +:+ q "order" +:+ ":{" +:+ q "_term" +:+ ":" +:+ q "asc" +:+ "}"
  else if String.eqb "reverse_count" order then
    "," +:+ q "order" +:+ ":{" +:+ q "_count" +:+ ":" +:+ q "asc" +:+ "}"
  else if String.eqb "reverse_term" order then
    "," +:+ q "order" +:+ ":{" +:+ q "_term" +:+ ":" +:+ q "desc" +:+ "}"
  else EmptyString.

(** [size] is a [uint64]. *)
Definition ElasticsearchTerms (indexRel : Relation) (field : string)
    (query : option ZDBQueryType) (order : string) (size : Z) : rest string :=
  let orderClause := makeTermsOrderClause order in
  let size := if size =? 0 then INT32_MAX else size in
  makeAggRequest indexRel query
    ("{" +:+ q "terms" +:+ ":{" +:+ q "field" +:+ ":" +:+ q field +:+ ","
     +:+ q "size" +:+ ":" +:+ print_lu size +:+ orderClause +:+ "}}")
    false.

Definition terms_agg_only_keys (indexRel : Relation) (field : string)
    (query : option ZDBQueryType) (order : string) (size : Z) : rest string :=
  let orderClause := makeTermsOrderClause order in
  let size := if size =? 0 then INT32_MAX else size in
  let postData := "{" in
  let postData := match query with
                  | Some query =>
                      postData +:+ q "query" +:+ ":"
                      +:+ convert_to_query_dsl indexRel query +:+ ","
                  | None => postData
                  end in
  let postData :=
    postData +:+ q "aggs" +:+ ":{" +:+ q "the_agg" +:+ ":{" +:+ q "terms" +:+ ":{"
    +:+ q "field" +:+ ":" +:+ q field +:+ "," +:+ q "size" +:+ ":" +:+ print_lu size
    +:+ orderClause +:+ "}}}" in
  let postData := postData +:+ "}" in
  rest_call "POST"
            (ZDBIndexOptionsGetUrl indexRel
             +:+ percent_s (ZDBIndexOptionsGetIndexName indexRel)
             +:+ "/_search?size=0&filter_path=aggregations.the_agg.buckets.key")
            (Some postData) (ZDBIndexOptionsGetCompressionLevel indexRel).

(** The parsed response and the readers of the JSON code that
    [ElasticsearchTermsAsArray] uses; an object reader called with
    [missing_ok] gives [None] for [NULL]. *)
Variable json : Type.
Variable parse_json_object : string -> json.
Variable get_json_object_object : json -> string -> bool -> option json.
Variable get_json_object_array : json -> string -> bool -> option json.
Variable get_json_array_length : json -> Z.
Variable get_json_array_element_object : json -> Z -> json.
Variable get_json_object_string_force : json -> string -> string.

(** [accumArrayResult(astate, ...)]: the state is created by the first
    value. *)
Definition accumArrayResult (astate : option (list string)) (term : string)
  : option (list string) :=
  Some (default [] astate ++ [term]).

(** The loop [for (i = 0; i < len; i++)] over the buckets. *)
Definition accumulate_keys (buckets : json) (astate : option (list string))
  : option (list string) :=
  foldl (fun astate i =>
           let obj := get_json_array_element_object buckets (Z.of_nat i) in
           let term := get_json_object_string_force obj "key" in
           accumArrayResult astate term)
        astate (seq 0 (Z.to_nat (get_json_array_length buckets))).

(** The result is [None] for a [NULL] array. *)
Definition ElasticsearchTermsAsArray (indexRel : Relation) (field : string)
    (query : option ZDBQueryType) (order : string) (size : Z)
  : rest (option (list string)) :=
  response <- terms_agg_only_keys indexRel field query order size ;;
  let astate := None in
  let json := parse_json_object response in
  let astate :=
    match get_json_object_object json "aggregations" true with
    | Some aggregations =>
        match get_json_object_object aggregations "the_agg" true with
        | Some the_agg =>
            match get_json_object_array the_agg "buckets" true with
            | Some buckets => accumulate_keys buckets astate
            | None => astate
            end
        | None => astate
        end
    | None => astate
    end in
  rest_ret astate.

Definition ElasticsearchTermsTwoLevel (indexRel : Relation)
    (firstField secondField : string) (query : option ZDBQueryType) (order : string)
    (size : Z) : rest string :=
  let orderClause := makeTermsOrderClause order in
  let size := if size =? 0 then INT32_MAX else size in
  makeAggRequest indexRel query
    ("{" +:+
     q "terms" +:+ ":{" +:+ q "field" +:+ ":" +:+ q firstField +:+ ", " +:+ q "size"
       +:+ ":" +:+ print_lu size +:+ orderClause +:+ "}," +:+
     "   " +:+ q "aggregations" +:+ ":{" +:+
     "      " +:+ q "sub_agg" +:+ ":{" +:+
     "         " +:+ q "terms" +:+ ":{" +:+ q "field" +:+ ":" +:+ q secondField +:+ ","
                 +:+ q "size" +:+ ":" +:+ print_d INT32_MAX +:+ "}" +:+
     "      }" +:+
     "   }" +:+
     "}")
    false.

Definition ElasticsearchPercentiles (indexRel : Relation) (field : string)
    (query : option ZDBQueryType) (percents : string) : rest string :=
  makeAggRequest indexRel query
    ("{" +:+ q "percentiles" +:+ ":{" +:+ q "field" +:+ ":" +:+ q field
     +:+ (if (0 <? String.length percents)%nat
          then "," +:+ q "percents" +:+ ":[" +:+ percents +:+ "]"
          else EmptyString)
     +:+ "}}")
    false.

Definition ElasticsearchPercentileRanks (indexRel : Relation) (field : string)
    (query : option ZDBQueryType) (values : string) : rest string :=
  makeAggRequest indexRel query
    ("{" +:+ q "percentiles" +:+ ":{" +:+ q "field" +:+ ":" +:+ q field
     +:+ (if (0 <? String.length values)%nat
          then "," +:+ q "values" +:+ ":[" +:+ values +:+ "]"
          else EmptyString)
     +:+ "}}")
    false.

(** [sigma] is an [int]. *)
Definition ElasticsearchExtendedStats (indexRel : Relation) (field : string)
    (query : option ZDBQueryType) (sigma : Z) : rest string :=
  makeAggRequest indexRel query
    ("{" +:+ q "extended_stats" +:+ ":{" +:+ q "field" +:+ ":" +:+ q field
     +:+ (if 0 <? sigma then "," +:+ q "sigma" +:+ ":" +:+ print_d sigma
          else EmptyString)
     +:+ "}}")
    false.

Definition ElasticsearchSignificantTermsTwoLevel (indexRel : Relation)
    (firstField secondField : string) (query : option ZDBQueryType) (size : Z)
  : rest string :=
  makeAggRequest indexRel query
    ("{" +:+
     q "terms" +:+ ":{" +:+ q "field" +:+ ":" +:+ q firstField
       +:+ (if 0 <? size then "," +:+ q "size" +:+ ":" +:+ print_lu size
            else EmptyString)
       +:+ "}," +:+
     "   " +:+ q "aggregations" +:+ ":{" +:+
     "      " +:+ q "sub_agg" +:+ ":{" +:+
     "         " +:+ q "significant_terms" +:+ ":{" +:+ q "field" +:+ ":"
                 +:+ q secondField +:+ "}" +:+
     "      }" +:+
     "   }" +:+
     "}")
    false.

(** The loop [for (i = 0; i < nfilters; i++)] of [ElasticsearchFilters] and
    [ElasticsearchAdjacencyMatrix] over [labels[i]] and [filters[i]], the
    two arrays given as one list of pairs. *)
Fixpoint filters_loop (indexRel : Relation) (i : Z)
    (entries : list (string * ZDBQueryType)) (agg : string) : string :=
  match entries with
  | [] => agg
  | (label, filter) :: entries' =>
      let agg := if 0 <? i then agg +:+ "," else agg in
      let agg := agg +:+ q label +:+ ":" +:+ convert_to_query_dsl indexRel filter in
      filters_loop indexRel (i + 1) entries' agg
  end.

Definition ElasticsearchFilters (indexRel : Relation)
    (entries : list (string * ZDBQueryType)) : rest string :=
  let agg := "{" +:+ q "filters" +:+ ":{" +:+ q "filters" +:+ ":{" in
  let agg := filters_loop indexRel 0 entries agg in
  let agg := agg +:+ "}}}" in
  makeAggRequest indexRel None agg false.

Definition ElasticsearchAdjacencyMatrix (indexRel : Relation)
    (entries : list (string * ZDBQueryType)) : rest string :=
  let agg := "{" +:+ q "adjacency_matrix" +:+ ":{" +:+ q "filters" +:+ ":{" in
  let agg := filters_loop indexRel 0 entries agg in
  let agg := agg +:+ "}}}" in
  makeAggRequest indexRel None agg false.

(** The loop [for (i = 0; i < nfields; i++)] of [ElasticsearchMatrixStats]
    and [ElasticsearchTopHits]. *)
Fixpoint fields_loop (i : Z) (fields : list string) (agg : string) : string :=
  match fields with
  | [] => agg
  | field :: fields' =>
      let agg := if 0 <? i then agg +:+ "," else agg in
      let agg := agg +:+ q field in
      fields_loop (i + 1) fields' agg
  end.

Definition ElasticsearchMatrixStats (indexRel : Relation)
    (query : option ZDBQueryType) (fields : list string) : rest string :=
  let agg := "{" +:+ q "matrix_stats" +:+ ":{" +:+ q "fields" +:+ ":[" in
  let agg := fields_loop 0 fields agg in
  let agg := agg +:+ "]}}" in
  makeAggRequest indexRel query agg false.

(** [size] is a [uint32]. *)
Definition ElasticsearchTopHits (indexRel : Relation) (query : option ZDBQueryType)
    (fields : list string) (size : Z) : rest string :=
  let size := if size =? 0 then INT32_MAX else size in
  let agg := "{" +:+ q "top_hits" +:+ ":{" +:+ q "_source" +:+ ":[" in
  let agg := fields_loop 0 fields agg in
  let agg := agg +:+ "]" in
  let agg := agg +:+ "," +:+ q "size" +:+ ":" +:+ print_u size +:+ "}}" in
  makeAggRequest indexRel query agg false.

(** [sample_size] is an [int]. *)
Definition ElasticsearchSignificantText (indexRel : Relation) (field : string)
    (query : option ZDBQueryType) (sample_size : Z) (filter_duplicate_text : bool)
  : rest string :=
  let sample_size := if sample_size =? 0 then INT32_MAX else sample_size in
  makeAggRequest indexRel query
    ("{" +:+
     q "sampler" +:+ ":{" +:+ q "shard_size" +:+ ":" +:+ print_d sample_size +:+ "},"
     +:+
     "   " +:+ q "aggregations" +:+ ":{" +:+
     "      " +:+ q "sub_agg" +:+ ":{" +:+
     "         " +:+ q "significant_text" +:+ ":{" +:+ q "field" +:+ ":" +:+ q field
                 +:+ "," +:+ q "filter_duplicate_text" +:+ ":"
                 +:+ (if filter_duplicate_text then "true" else "false") +:+ "}" +:+
     "      }" +:+
     "   }" +:+
     "}")
    false.

(** [Max(1, shard_size / ZDBIndexOptionsGetNumberOfShards(indexRel))]:
    [shard_size] is a [uint32] and the number of shards an [int], so the
    division and the comparison are unsigned 32-bit ones; the result is
    then printed with [%d].  A division by zero is undefined in C; it
    gives 0 here. *)
Definition shard_sample_size (indexRel : Relation) (shard_size : Z) : Z :=
  Z.max 1 ((shard_size mod 2 ^ 32)
           / (ZDBIndexOptionsGetNumberOfShards indexRel mod 2 ^ 32)).

Definition ElasticsearchSampler (indexRel : Relation) (shard_size : Z)
    (query : option ZDBQueryType) : rest string :=
  makeAggRequest indexRel query
    ("{" +:+
     q "sampler" +:+ ":{" +:+ q "shard_size" +:+ ":"
       +:+ print_d (shard_sample_size indexRel shard_size) +:+ "}," +:+
     "   " +:+ q "aggregations" +:+ ":{" +:+
     "      " +:+ q "sub_agg" +:+ ":{" +:+
     "         " +:+ q "terms" +:+ ":{" +:+ q "field" +:+ ":" +:+ q "zdb_ctid" +:+ ","
                 +:+ q "size" +:+ ":" +:+ print_d INT32_MAX +:+ "}" +:+
     "      }" +:+
     "   }" +:+
     "}")
    false.

Definition ElasticsearchDiversifiedSampler (indexRel : Relation) (shard_size : Z)
    (field : string) (query : option ZDBQueryType) : rest string :=
  makeAggRequest indexRel query
    ("{" +:+
     q "diversified_sampler" +:+ ":{" +:+ q "shard_size" +:+ ":"
       +:+ print_d (shard_sample_size indexRel shard_size) +:+ "," +:+ q "field" +:+ ":"
       +:+ q field +:+ "}," +:+
     "   " +:+ q "aggregations" +:+ ":{" +:+
     "      " +:+ q "sub_agg" +:+ ":{" +:+
     "         " +:+ q "terms" +:+ ":{" +:+ q "field" +:+ ":" +:+ q "zdb_ctid" +:+ ","
                 +:+ q "size" +:+ ":" +:+ print_d INT32_MAX +:+ "}" +:+
     "      }" +:+
     "   }" +:+
     "}")
    false.

End Calls.

Arguments ElasticsearchCount {ZDBQueryType} convert_to_query_dsl cluster
  response_count indexRel query _.
Arguments makeAggRequest {ZDBQueryType} convert_to_query_dsl cluster indexRel query
  agg arbitrary _.
Arguments ElasticsearchArbitraryAgg {ZDBQueryType} convert_to_query_dsl cluster
  indexRel query agg _.
Arguments ElasticsearchTerms {ZDBQueryType} convert_to_query_dsl cluster indexRel
  field query order size _.
Arguments terms_agg_only_keys {ZDBQueryType} convert_to_query_dsl cluster indexRel
  field query order size _.
Arguments ElasticsearchTermsAsArray {ZDBQueryType} convert_to_query_dsl cluster {json}
  parse_json_object get_json_object_object get_json_object_array
  get_json_array_length get_json_array_element_object get_json_object_string_force
  indexRel field query order size _.
Arguments accumulate_keys {json} get_json_array_length get_json_array_element_object
  get_json_object_string_force buckets astate.
Arguments ElasticsearchTermsTwoLevel {ZDBQueryType} convert_to_query_dsl cluster
  indexRel firstField secondField query order size _.
Arguments filters_loop {ZDBQueryType} convert_to_query_dsl indexRel i entries agg.
Arguments ElasticsearchFilters {ZDBQueryType} convert_to_query_dsl cluster indexRel
  entries _.
Arguments ElasticsearchAdjacencyMatrix {ZDBQueryType} convert_to_query_dsl cluster
  indexRel entries _.
Arguments ElasticsearchMatrixStats {ZDBQueryType} convert_to_query_dsl cluster
  indexRel query fields _.
Arguments ElasticsearchTopHits {ZDBQueryType} convert_to_query_dsl cluster indexRel
  query fields size _.
Arguments ElasticsearchSampler {ZDBQueryType} convert_to_query_dsl cluster indexRel
  shard_size query _.
Arguments ElasticsearchDiversifiedSampler {ZDBQueryType} convert_to_query_dsl cluster
  indexRel shard_size field query _.

(** ** Sample inputs *)

(** An index with a name and an alias, on five shards; the same index
    without the alias, and without the name. *)
Definition sample_relation : Relation :=
  mkRelation "idx" 16400 2200 "public" "heap" 16390 "http://localhost:9200/"
             (Some "16384.2200.16390.16400-1") (Some "my_alias") "doc" 5 1 "-1" 1.
Definition unaliased_relation : Relation :=
  mkRelation "idx" 16400 2200 "public" "heap" 16390 "http://localhost:9200/"
             (Some "16384.2200.16390.16400-1") None "doc" 5 1 "-1" 1.
Definition new_relation : Relation :=
  mkRelation "idx" 16400 2200 "public" "heap" 16390 "http://localhost:9200/"
             None None "doc" 5 1 "-1" 1.

(** A query object that is its own DSL text, and a cluster that answers
    every request with [{}]. *)
Definition sample_dsl (indexRel : Relation) (query : string) : string := query.
Definition sample_cluster (seen : list rest_request) (rq : rest_request)
  : string + string := inr "{}".

(** A parsed response that is just the keys of its buckets, [None] when
    it has no [aggregations]; the readers for it; and a cluster whose
    responses hold two buckets. *)
Definition sample_parse (response : string) : option (list string) :=
  if String.eqb response "{}" then None else Some ["a"; "b"].
Definition sample_member (j : option (list string)) (name : string)
    (missing_ok : bool) : option (option (list string)) :=
  match j with Some _ => Some j | None => None end.
Definition sample_length (j : option (list string)) : Z :=
  Z.of_nat (length (default [] j)).
Definition sample_element (j : option (list string)) (i : Z)
  : option (list string) :=
  Some (take 1 (drop (Z.to_nat i) (default [] j))).
Definition sample_string_force (j : option (list string)) (name : string) : string :=
  match j with Some (key :: _) => key | _ => EmptyString end.
Definition bucket_cluster (seen : list rest_request) (rq : rest_request)
  : string + string := inr "{...}".

(** A cluster that fails every [DELETE]. *)
Definition failing_cluster (seen : list rest_request) (rq : rest_request)
  : string + string :=
  if String.eqb (rc_method rq) "DELETE" then inl "couldn't connect to host"
  else inr "{}".

End Admin.

(* ================================================================== *)
(** * Looking for [zdb.score()] in an expression *)
(* ================================================================== *)

Module Walker.

#[local] Set Warnings "-register-all".

(** An expression tree as far as the walker tells nodes apart: [NULL], a
    function call with its arguments, a column reference with the index
    of its range-table entry, and any other node with its direct
    sub-nodes. *)
Inductive Node : Type :=
| NullNode
| FuncExpr (funcid : Z) (args : list Node)
| Var (varnoold : nat)
| OtherNode (subnodes : list Node).

Record WantScoresWalkerContext := mkWalkerContext {
  funcOid : Z;
  scan : option nat;            (* the scan descriptor, as an address *)
  heapRelid : Z;
  foundFunc : bool;
  foundScan : bool;
  depth : Z;
  funcDepth : Z
}.

(** What a walk gives: the [bool] it returns and the context it leaves,
    or the error it raises. *)
Inductive walked : Type :=
| Walked (rc : bool) (context : WantScoresWalkerContext)
| WalkError (msg : string).

(** [expression_tree_walker] of PostgreSQL (nodeFuncs.c) on a node with
    the direct sub-nodes [l]: it calls the walker on each of them in
    order, and returns [true] as soon as one call does. *)
Definition walk_subnodes (walker : Node -> WantScoresWalkerContext -> walked)
  : list Node -> WantScoresWalkerContext -> walked :=
  fix go (l : list Node) (context : WantScoresWalkerContext) : walked :=
    match l with
    | [] => Walked false context
    | node :: l' =>
        match walker node context with
        | Walked true context' => Walked true context'
        | Walked false context' => go l' context'
        | WalkError msg => WalkError msg
        end
    end.

Section Walk.

(** [rt_fetch(varnoold, currentQuery->plannedstmt->rtable)->relid] for the
    query on top of [currentQueryStack]. *)
Variable rt_relid : nat -> Z.

(** [zdb.score] is looked up with one argument, so [linitial] finds one in
    a call of it; on a call without arguments or with a [NULL] one, where
    the code would read through a null pointer, the model raises. *)
Fixpoint want_scores_expr_walker (node : Node) (context : WantScoresWalkerContext)
  : walked :=
  match node with
  | NullNode => Walked false context
  | FuncExpr funcid args =>
      if funcid =? funcOid context then
        match args with
        | Var varnoold :: _ =>
            Walked true
              (if rt_relid varnoold =? heapRelid context then
                 mkWalkerContext (funcOid context) (scan context) (heapRelid context)
                                 true (foundScan context) (depth context)
                                 (depth context)
               else context)
        | _ => WalkError "argument to zdb.score() must be the 'ctid' system column"
        end
      else walk_subnodes want_scores_expr_walker args context
  | Var _ => Walked false context
  | OtherNode subnodes => walk_subnodes want_scores_expr_walker subnodes context
  end.

End Walk.

(** ** Sample inputs *)

(** [zdb.score] has oid 9000; range-table entry 1 is relation 16384 and
    entry 2 relation 16385. *)
Definition sample_rtable (varno : nat) : Z :=
  match varno with 1%nat => 16384 | _ => 16385 end.
Definition sample_walker_context : WantScoresWalkerContext :=
  mkWalkerContext 9000 None 16385 false false 3 (-1).

(** An expression that calls [zdb.score] on the [ctid] of entry 1 and then
    on that of entry 2. *)
Definition two_score_calls : Node :=
  OtherNode [FuncExpr 9000 [Var 1]; FuncExpr 9000 [Var 2]].

End Walker.

(* ================================================================== *)
(** * The vocabulary of the statements *)
(* ================================================================== *)

Module WalkerSpec.
Import Walker.

(** The first of [l] for which [f] finds something. *)
Definition first_found {A} (f : Node -> option A) : list Node -> option A :=
  fix go (l : list Node) : option A :=
    match l with
    | [] => None
    | node :: l' => match f node with Some a => Some a | None => go l' end
    end.

(** The arguments of the first call of the function [oid] in the tree, in
    the order of a walk: a node before its sub-nodes, the sub-nodes from
    left to right. *)
Fixpoint first_call (oid : Z) (node : Node) : option (list Node) :=
  match node with
  | NullNode | Var _ => None
  | FuncExpr funcid args =>
      if funcid =? oid then Some args else first_found (first_call oid) args
  | OtherNode subnodes => first_found (first_call oid) subnodes
  end.

End WalkerSpec.

Module BulkSpec.
Import Bulk.

(** [post r Q E]: an outcome [OK a c] satisfies [Q a c], an [ERROR] raised
    in context [c] satisfies [E c]. *)
Definition post {A} (r : result A) (Q : A -> ElasticsearchBulkContext -> Prop)
    (E : ElasticsearchBulkContext -> Prop) : Prop :=
  match r with
  | OK a c => Q a c
  | ERROR _ c => E c
  end.

(** [held] are the slots of the buffers that are out of the pool: the one
    being filled and those handed to the HTTP layer. *)
Record pool_ok (n : nat) (p : list (option string)) (l : list event)
    (held : list nat) : Prop := mkPoolOk {
  pk_len : length p = (n + 1)%nat;
  pk_nodup : NoDup held;
  pk_null : forall i, i ∈ held -> p !! i = Some None;
  pk_count : checked_out l = Z.of_nat (length held);
  pk_log : forall l', l' `prefix_of` l -> 0 <= checked_out l' <= Z.of_nat (n + 1)
}.

(** The slots of the buffers that the HTTP layer holds. *)
Definition in_flight (c : ElasticsearchBulkContext) : list nat :=
  map pool_idx (running (rest c) ++ finished (rest c)).

(** [filling] says that the current buffer has not been handed over yet. *)
Definition context_ok (filling : bool) (c : ElasticsearchBulkContext) : Prop :=
  pool_ok (nhandles (rest c)) (pool c) (log c)
          ((if filling then [pool_idx (current c)] else []) ++ in_flight c)
  /\ nhandles (rest c) = bulkConcurrency (config c).

(** Events of the HTTP layer that carry no request. *)
Definition quiet (e : event) : Prop := e = EvPoll \/ exists i, e = EvReturn i.

(** The context changed only in what the HTTP layer owns. *)
Record rest_only (c c' : ElasticsearchBulkContext) : Prop := mkRestOnly {
  ro_config : config c' = config c;
  ro_wait : waitForActiveShards c' = waitForActiveShards c;
  ro_current : current c' = current c;
  ro_nrows : nrows c' = nrows c;
  ro_ntotal : ntotal c' = ntotal c;
  ro_nrequests : nrequests c' = nrequests c;
  ro_counts : counts c' = counts c;
  ro_nhandles : nhandles (rest c') = nhandles (rest c);
  ro_log : exists evs, log c' = log c ++ evs /\ Forall quiet evs
}.

(** The request a flush sends from context [c]. *)
Definition flush_request (is_final : bool) (c : ElasticsearchBulkContext)
  : bulk_request :=
  mkRequest (waitForActiveShards c)
            (is_final && shouldRefresh (config c) && (nrequests c =? 0))
            is_final (current c).

(** No event of the end of a session. *)
Definition midway (e : event) : Prop := e <> EvRefresh /\ e <> EvDrained.

(** What one call of [bulk_prologue] does to context [c]; [ok] tells
    whether it returned. *)
Record prologue_step (is_final : bool) (c c' : ElasticsearchBulkContext)
    (ok : bool) : Prop := mkPrologueStep {
  ps_config : config c' = config c;
  ps_wait : waitForActiveShards c' = waitForActiveShards c;
  ps_ntotal : ntotal c' = ntotal c;
  ps_counts : counts c' = counts c;
  ps_log : exists evs,
      log c' = log c ++ EvPoll :: evs
      /\ bulk_requests evs =
         (if flush_due is_final c then [flush_request is_final c] else [])
      /\ Forall midway evs;
  ps_nrequests :
    nrequests c' = if flush_due is_final c then int32 (nrequests c + 1)
                   else nrequests c;
  ps_nrows : nrows c' = if flush_due is_final c then 0 else nrows c;
  ps_kept : flush_due is_final c = false \/ is_final = true ->
            current c' = current c /\ ok = true;
  ps_fresh : flush_due is_final c = true -> is_final = false -> ok = true ->
             exists evs i b,
               log c' = evs ++ [EvCheckout i] /\ current c' = mkEntry b i;
  ps_pool : context_ok true c -> context_ok (ok && negb is_final) c'
}.

(** The two delete entry points tag the session before anything else. *)
Definition sets_wait (m : mutation) : bool :=
  match m with
  | DeleteRowByXmin _ _ | DeleteRowByXmax _ _ => true
  | _ => false
  end.

(** The entry points that start with [bulk_prologue(context, false)]. *)
Definition runs_prologue (m : mutation) : bool :=
  match m with
  | MarkTransactionCommitted _ => false
  | _ => true
  end.

(** The context in which the prologue of the append of [m] runs. *)
Definition entering (m : mutation) (c : ElasticsearchBulkContext)
  : ElasticsearchBulkContext :=
  if sets_wait m then set_waitForActiveShards true c else c.

(** What the append of [m] does to context [c]. *)
Record append_step (m : mutation) (c c' : ElasticsearchBulkContext) (ok : bool)
  : Prop := mkAppendStep {
  as_config : config c' = config c;
  as_wait : waitForActiveShards c' = waitForActiveShards c || sets_wait m;
  as_log : exists evs,
      log c' = log c ++ evs
      /\ Forall midway evs
      /\ bulk_requests evs =
         (if runs_prologue m && flush_due false c
          then [flush_request false (entering m c)] else [])
      /\ (if runs_prologue m then exists evs', evs = EvPoll :: evs' else evs = []);
  as_nrequests :
    nrequests c' = if runs_prologue m && flush_due false c
                   then int32 (nrequests c + 1) else nrequests c;
  as_nrows : ok = true ->
    nrows c' = if runs_prologue m
               then int32 ((if flush_due false c then 0 else nrows c) + 1)
               else nrows c;
  as_fresh : runs_prologue m && flush_due false c = true -> ok = true ->
    exists evs i, log c' = evs ++ [EvCheckout i] /\ pool_idx (current c') = i;
  as_error : ok = false -> runs_prologue m && flush_due false c = true;
  as_pool : context_ok true c -> context_ok ok c'
}.

(** What [ElasticsearchFinishBulkProcess] does to context [c]. *)
Record finish_step (c c' : ElasticsearchBulkContext) (ok : bool) : Prop :=
  mkFinishStep {
  fs_config : config c' = config c;
  fs_wait : waitForActiveShards c' = waitForActiveShards c;
  fs_nrequests :
    nrequests c' = if 0 <? len (buff (current c))
                   then int32 (nrequests c + 1) else nrequests c;
  fs_log : exists evs,
      log c' = log c ++ evs
      /\ bulk_requests evs =
         (if 0 <? len (buff (current c)) then [flush_request true c] else [])
      /\ (if ok
          then exists pre,
              evs = pre ++ EvDrained ::
                    (if shouldRefresh (config c') && (1 <? nrequests c')
                     then [EvRefresh] else [])
              /\ Forall midway pre
          else Forall midway evs);
  fs_drained : ok = true -> running (rest c') = [] /\ finished (rest c') = [];
  fs_pool : context_ok true c -> exists f, context_ok f c'
}.

(** A request sent by an append: never final, never refreshing; it waits
    for the shards when [w] says the flag was already set. *)
Definition append_request (w : bool) (r : bulk_request) : Prop :=
  rq_is_final r = false /\ rq_refresh r = false
  /\ (w = true -> rq_wait_for_active_shards r = true).

(** [nrequests] counts the requests of the log, as a C [int] does. *)
Definition tallied (c : ElasticsearchBulkContext) : Prop :=
  nrequests c = int32 (Z.of_nat (length (bulk_requests (log c)))).

(** [nrows] stays within the rows of one request. *)
Definition rows_in_range (c : ElasticsearchBulkContext) : Prop :=
  0 <= nrows c <= MAX_DOCS_PER_REQUEST.

(** What a run of appends does to context [c]. *)
Record appends_run (n : nat) (c c' : ElasticsearchBulkContext) (ok : bool)
  : Prop := mkAppendsRun {
  ar_config : config c' = config c;
  ar_wait : waitForActiveShards c = true -> waitForActiveShards c' = true;
  ar_log : exists evs,
      log c' = log c ++ evs
      /\ Forall midway evs
      /\ Forall (append_request (waitForActiveShards c)) (bulk_requests evs)
      /\ (length (bulk_requests evs) <= n)%nat;
  ar_tally : tallied c -> tallied c';
  ar_nrows : rows_in_range c -> ok = true -> rows_in_range c';
  ar_pool : context_ok true c -> context_ok ok c'
}.

(** What a context is like right after [ElasticsearchStartBulkProcess]. *)
Record started (indexRel : index_options) (c : ElasticsearchBulkContext) : Prop :=
  mkStarted {
  st_batchSize : batchSize (config c) = opt_batch_size indexRel;
  st_concurrency : bulkConcurrency (config c) = opt_bulk_concurrency indexRel;
  st_refresh : shouldRefresh (config c)
               = bool_decide (opt_refresh_interval indexRel = "-1");
  st_wait : waitForActiveShards c = false;
  st_slots : length (pool c) = (opt_bulk_concurrency indexRel + 1)%nat;
  st_handles : nhandles (rest c) = opt_bulk_concurrency indexRel;
  st_current : current c = mkEntry EmptyString 0;
  st_log : log c = [EvCheckout 0];
  st_nrequests : nrequests c = 0;
  st_nrows : nrows c = 0;
  st_pool : context_ok true c
}.

(** How a session ends: [c'] is the context it ends in and [ok] tells
    whether it returned. *)
Definition session_shape (indexRel : index_options) (n : nat)
    (c' : ElasticsearchBulkContext) (ok : bool) : Prop :=
  (c' = palloc0 /\ ok = false)
  \/ (exists c0, started indexRel c0 /\ appends_run n c0 c' false /\ ok = false)
  \/ (exists c0 c1, started indexRel c0 /\ appends_run n c0 c1 true
                    /\ finish_step c1 c' ok).

End BulkSpec.

Module ScrollSpec.
Import Scroll.

(** The consumed count is within the total, and the total is a [uint64]. *)
Definition count_ok (c : ElasticsearchScrollContext) : Prop :=
  0 <= cnt c <= total c /\ total c < 2 ^ 64.

(** The hits of the page the cursor holds, none before the first response. *)
Definition page (c : ElasticsearchScrollContext) : list hit :=
  match hits c with Ref pg => pg | _ => [] end.

(** What next hands out for the hit [h], through the out parameters that
    the caller passes: the row locator unpacked from [zdb_ctid] (the block
    number in bits 32 to 63, the offset in bits 0 to 15), except on a
    cursor that passes ids through; the external id on such a cursor and
    [NULL] otherwise; the score as a [float4]; and the highlights when the
    cursor was opened with some, [NULL] otherwise. *)
Definition handed_out (want : out_parameters) (c : ElasticsearchScrollContext)
    (h : hit) : item :=
  mkItem (if usingId c then None
          else if out_ctid want
               then Some (mkItemPointer ((hit_zdb_ctid h / 2 ^ 32) mod 2 ^ 32)
                                        (hit_zdb_ctid h mod 2 ^ 16))
               else None)
         (if out_id want then Some (if usingId c then Some (hit_id h) else None)
          else None)
         (if out_score want then Some (float4_of_float8 (hit_score h)) else None)
         (if out_highlights want
          then Some (if hasHighlights c then hit_highlight h else None)
          else None).

(** The cursor [c] and the engine of [w] agree, and [rest] are the hits
    still to be read, in order. *)
Record paged_inv (c : ElasticsearchScrollContext) (w : world paged)
    (rest : list hit) : Prop := mkPagedInv {
  pi_total : total c = Z.of_nat (length (pg_all (engine w)));
  pi_small : Z.of_nat (length (pg_all (engine w))) < 2 ^ 31;
  pi_cnt : 0 <= cnt c /\ cnt c + Z.of_nat (length rest) = total c;
  pi_pos : 0 <= currpos c <= nhits c;
  pi_nhits : nhits c = Z.of_nat (length (page c));
  pi_page : Z.of_nat (length (page c)) < 2 ^ 31;
  pi_pending : Z.of_nat (length (pg_pending (engine w))) < 2 ^ 31;
  pi_rest : rest = drop (Z.to_nat (currpos c)) (page c) ++ pg_pending (engine w);
  pi_token : scrollId c = token (pg_serial (engine w));
  pi_size : (0 < pg_size (engine w))%nat
}.

End ScrollSpec.

Module ScoringSpec.
Import Scoring.

Section Registry.

Context {callback_arg : Type}.

(** The loop of [scoring_lookup_score], started from [score]. *)
Definition lookup_from (oid : Z) (ctid : ItemPointerData) (score : float4)
    (entries : list (ZDBScoringSupportData callback_arg)) : float4 :=
  foldl (fun score entry =>
           if oid =? heapOid entry then add_entry_scores ctid score entry
           else score)
        score entries.

(** Every relation has at most one entry, and every entry as many
    arguments as callbacks. *)
Definition registry_ok (entries : list (ZDBScoringSupportData callback_arg)) : Prop :=
  NoDup (map heapOid entries)
  /\ Forall (fun e => length (callbacks e) = length (callback_data e)) entries.

(** The values that the callbacks of the entries of [oid] give at [ctid],
    entry after entry. *)
Definition matching_values (oid : Z) (ctid : ItemPointerData)
    (entries : list (ZDBScoringSupportData callback_arg)) : list float4 :=
  flat_map (fun e => if oid =? heapOid e
                     then map (fun ca => fst ca ctid (snd ca))
                              (zip (callbacks e) (callback_data e))
                     else []) entries.

End Registry.

End ScoringSpec.

Module BulkTextSpec.
Import Bulk.

(** The bodies of the bulk requests of a log, one after the other in the
    order in which they were handed to the HTTP layer. *)
Definition posted (l : list event) : string :=
  foldr (fun r s => buff (rq_post r) +:+ s) EmptyString (bulk_requests l).

(** A context with an empty buffer in which no flush is due; [j] is its
    [containsJson]. *)
Definition blank (j : bool) : ElasticsearchBulkContext :=
  mkContext (mkConfig 1 0 false j true) false (mkRest 0 [] []) []
            (mkEntry EmptyString 0) 0 0 0 (mkTallies 0 0 0 0 0) [].

Section Rendered.

Variable replace_line_breaks strip_json_ending : string -> string.

(** The lines of a mutation: what its entry point leaves in the empty
    buffer of [blank j]. *)
Definition rendered (j : bool) (m : mutation) : string :=
  buff (current (final_context
                   (append_mutation replace_line_breaks strip_json_ending
                                    quiet_tick m (blank j)))).

(** The lines of a list of mutations, in order. *)
Definition rendered_all (j : bool) (ms : list (tick * mutation)) : string :=
  foldr (fun tm s => rendered j tm.2 +:+ s) EmptyString ms.

End Rendered.

(** Every buffer that sits in the pool is empty. *)
Definition clean (p : list (option string)) : Prop :=
  forall i b, p !! i = Some (Some b) -> b = EmptyString.

(** All the text appended so far is [txt]: what was posted, then what is
    in the buffer being filled. *)
Definition accounted (txt : string) (c : ElasticsearchBulkContext) : Prop :=
  clean (pool c) /\ posted (log c) +:+ buff (current c) = txt.

(** [m] only appends to the buffer being filled, and what it appends
    depends on the context through [containsJson] alone: run on [c] and on
    [c0], it returns on both and appends the same text. *)
Definition writes_alike (m : bulk unit) : Prop :=
  forall c c0 b0,
    containsJson (config c0) = containsJson (config c) ->
    buff (current c) = b0 +:+ buff (current c0) ->
    exists c' c0',
      m c = OK tt c' /\ m c0 = OK tt c0'
      /\ config c' = config c /\ config c0' = config c0
      /\ log c' = log c /\ pool c' = pool c
      /\ buff (current c') = b0 +:+ buff (current c0').

(** A step of the HTTP layer on the way: it leaves the buffer being
    filled, the options and the row count alone, and puts only empty
    buffers into the pool. *)
Definition keeps (c c' : ElasticsearchBulkContext) : Prop :=
  current c' = current c /\ config c' = config c /\ nrows c' = nrows c
  /\ (clean (pool c) -> clean (pool c')).

(** The counter that the append of [m] increments. *)
Definition counted (m : mutation) : tallies -> tallies :=
  match m with
  | InsertRow _ _ _ _ _ _ => incr_nindex
  | UpdateTuple _ _ _ _ => incr_nupdate
  | VacuumXmax _ _ => incr_nvacuum
  | DeleteRowByXmin _ _ | DeleteRowByXmax _ _ => incr_ndelete
  | MarkTransactionInProgress _ | MarkTransactionCommitted _ => incr_nxid
  end.

(** The kinds of mutation, by the counter they go to. *)
Inductive kind : Type := KIndex | KUpdate | KDelete | KVacuum | KXid.

Definition kind_of (m : mutation) : kind :=
  match m with
  | InsertRow _ _ _ _ _ _ => KIndex
  | UpdateTuple _ _ _ _ => KUpdate
  | VacuumXmax _ _ => KVacuum
  | DeleteRowByXmin _ _ | DeleteRowByXmax _ _ => KDelete
  | MarkTransactionInProgress _ | MarkTransactionCommitted _ => KXid
  end.

Definition kind_eqb (a b : kind) : bool :=
  match a, b with
  | KIndex, KIndex | KUpdate, KUpdate | KDelete, KDelete
  | KVacuum, KVacuum | KXid, KXid => true
  | _, _ => false
  end.

(** The counter of a kind. *)
Definition tally (k : kind) (t : tallies) : Z :=
  match k with
  | KIndex => nindex t
  | KUpdate => nupdate t
  | KDelete => ndelete t
  | KVacuum => nvacuum t
  | KXid => nxid t
  end.

(** How many of [ms] are of kind [k]; how many are not
    mark-transaction-committed. *)
Definition how_many (k : kind) (ms : list (tick * mutation)) : Z :=
  Z.of_nat (length (List.filter (fun tm => kind_eqb k (kind_of tm.2)) ms)).
Definition how_many_rows (ms : list (tick * mutation)) : Z :=
  Z.of_nat (length (List.filter
                      (fun tm => match tm.2 with
                                 | MarkTransactionCommitted _ => false
                                 | _ => true
                                 end) ms)).

(** The sample session right after its start, and its appends followed
    by a mark-transaction-committed. *)
Definition started_sample : ElasticsearchBulkContext :=
  final_context (ElasticsearchStartBulkProcess sample_options None None false).
Definition six_appends : list (tick * mutation) :=
  sample_appends ++ [(quiet_tick, MarkTransactionCommitted 8)].

End BulkTextSpec.

Module ScrollMemorySpec.
Import Scroll.

(** What the read of the hit [h] leaves in the memory context: the
    element of the page, and in a read that sets the row locator the
    number it is unpacked from. *)
Definition read_entries (h : hit) (reads_ctid : bool) : list json_object :=
  JHit h :: if reads_ctid then [JNumber (hit_zdb_ctid h)] else [].

(** The memory context holds one page and no more: the response that
    brought the page of the cursor, and after it what the reads of the
    hits up to the position have left, hit by hit in the order of the
    page ([reads] says for each of them whether it set the row locator).
    The position is within the count, and the total is a [uint64]. *)
Definition holds_one_page (c : ElasticsearchScrollContext) : Prop :=
  0 <= currpos c <= cnt c /\ total c < 2 ^ 64
  /\ exists response pg reads,
      hits c = Ref pg
      /\ rs_hits response = Some pg
      /\ Z.of_nat (length reads) = currpos c
      /\ (length reads <= length pg)%nat
      /\ jsonMemoryContext c
         = JResponse response :: concat (zip_with read_entries pg reads).

(** A cursor at the end of a first page of ten hits out of 25, whose
    scroll id the engine does not know. *)
Definition stale_cursor : ElasticsearchScrollContext :=
  mkScroll false "stale" false 10 10 25 10 [] (Ref (numbered_hits 0 10)) 10 NULL
           [JResponse (mkResponse None "stale" 25 (Some (numbered_hits 0 10)))].

End ScrollMemorySpec.

Module AdminSpec.
Import Admin.

Section Buckets.

Context {json : Type}.
Variable get_json_object_object : json -> string -> bool -> option json.
Variable get_json_object_array : json -> string -> bool -> option json.
Variable get_json_array_length : json -> Z.
Variable get_json_array_element_object : json -> Z -> json.
Variable get_json_object_string_force : json -> string -> string.

(** The array [aggregations.the_agg.buckets] of a parsed response, if all
    three are there. *)
Definition buckets_of (response : json) : option json :=
  match get_json_object_object response "aggregations" true with
  | Some aggregations =>
      match get_json_object_object aggregations "the_agg" true with
      | Some the_agg => get_json_object_array the_agg "buckets" true
      | None => None
      end
  | None => None
  end.

(** The [key] of every bucket, in the order of the array. *)
Definition bucket_keys (buckets : json) : list string :=
  map (fun i => get_json_object_string_force
                  (get_json_array_element_object buckets (Z.of_nat i)) "key")
      (seq 0 (Z.to_nat (get_json_array_length buckets))).

End Buckets.

End AdminSpec.

(* ================================================================== *)
(** * Facts about machine integers *)
(* ================================================================== *)

Lemma int32_succ x : int32 (int32 x + 1) = int32 (x + 1).
Proof.
  unfold int32.
  replace ((x + 2 ^ 31) mod 2 ^ 32 - 2 ^ 31 + 1 + 2 ^ 31)
    with ((x + 2 ^ 31) mod 2 ^ 32 + 1) by lia.
  rewrite Zplus_mod_idemp_l. do 2 f_equal. lia.
Qed.

Lemma int32_small x : - 2 ^ 31 <= x < 2 ^ 31 -> int32 x = x.
Proof. intros Hx. unfold int32. rewrite Z.mod_small; lia. Qed.

Lemma u64_range x : 0 <= u64 x < 2 ^ 64.
Proof. unfold u64. apply Z.mod_pos_bound. lia. Qed.

Lemma u64_small x : 0 <= x < 2 ^ 64 -> u64 x = x.
Proof. intros Hx. unfold u64. apply Z.mod_small. lia. Qed.

(* ================================================================== *)
(** * Facts about the bulk pipeline *)
(* ================================================================== *)

Module BulkProofs.
Import Bulk BulkSpec.

(** ** Outcomes of monadic code *)

Lemma post_bind {A B} (m : bulk A) (k : A -> bulk B) Q E c :
  post (m c) (fun a c' => post (k a c') Q E) E -> post (bind m k c) Q E.
Proof. unfold bind. destruct (m c); simpl; auto. Qed.

Lemma post_gets {A B} (f : ElasticsearchBulkContext -> A) (k : A -> bulk B) Q E c :
  post (k (f c) c) Q E -> post (bind (gets f) k c) Q E.
Proof. exact id. Qed.

Lemma post_modify {B} (f : ElasticsearchBulkContext -> ElasticsearchBulkContext)
    (k : unit -> bulk B) Q E c :
  post (k tt (f c)) Q E -> post (bind (modify f) k c) Q E.
Proof. exact id. Qed.

Lemma post_emit {B} (e : event) (k : unit -> bulk B) Q E c :
  post (k tt (set_log (log c ++ [e]) c)) Q E -> post (bind (emit e) k c) Q E.
Proof. exact id. Qed.

Lemma post_ret {A} (a : A) (Q : A -> ElasticsearchBulkContext -> Prop) E c :
  Q a c -> post (ret a c) Q E.
Proof. exact id. Qed.

Lemma post_ret_bind {A B} (a : A) (k : A -> bulk B) Q E c :
  post (k a c) Q E -> post (bind (ret a) k c) Q E.
Proof. exact id. Qed.

(** [appendStringInfo] writes to the buffer being filled and to nothing
    else. *)
Lemma post_appendStringInfo {B} (s : string) (k : unit -> bulk B) Q E c :
  (forall b, post (k tt (set_current (mkEntry b (pool_idx (current c))) c)) Q E) ->
  post (bind (appendStringInfo s) k c) Q E.
Proof. intros H. apply H. Qed.

Lemma post_mono {A} (r : result A) (Q Q' : A -> ElasticsearchBulkContext -> Prop)
    (E E' : ElasticsearchBulkContext -> Prop) :
  post r Q E -> (forall a c, Q a c -> Q' a c) -> (forall c, E c -> E' c) ->
  post r Q' E'.
Proof. destruct r; simpl; auto. Qed.

Lemma post_final {A} (r : result A) (I : ElasticsearchBulkContext -> Prop) :
  post r (fun _ c => I c) I <-> I (final_context r).
Proof. destruct r; simpl; tauto. Qed.

(** ** Logs *)

Lemma bulk_requests_app l1 l2 :
  bulk_requests (l1 ++ l2) = bulk_requests l1 ++ bulk_requests l2.
Proof. apply omap_app. Qed.

Lemma bulk_requests_returns (es : list PostDataEntry) :
  bulk_requests (map (fun e => EvReturn (pool_idx e)) es) = [].
Proof. induction es; simpl; auto. Qed.

Lemma checked_out_app l1 l2 :
  checked_out (l1 ++ l2) =
  checked_out l1 + checked_out l2.
Proof.
  unfold checked_out. rewrite foldl_app.
  generalize (foldl (fun n e => match e with
                                | EvCheckout _ => n + 1
                                | EvReturn _ => n - 1
                                | _ => n
                                end) 0 l1).
  induction l2 as [|e l2 IH] using rev_ind; intros z; simpl; [lia|].
  rewrite !foldl_snoc, IH. destruct e; lia.
Qed.

Lemma checked_out_returns (es : list nat) :
  checked_out (map EvReturn es) = - Z.of_nat (length es).
Proof.
  induction es as [|e es IH]; [reflexivity|].
  change (map EvReturn (e :: es)) with ([EvReturn e] ++ map EvReturn es).
  rewrite checked_out_app, IH. simpl length. unfold checked_out; simpl. lia.
Qed.

(** ** The pool and who holds its buffers *)

Lemma pool_ok_bound n p l held :
  pool_ok n p l held -> (length held <= n + 1)%nat.
Proof.
  intros [Hlen Hnd Hnull _ _].
  rewrite <- Hlen, <- (length_seq (length p) 0).
  apply submseteq_length, NoDup_submseteq; [exact Hnd|].
  intros i Hi. apply elem_of_seq. apply Hnull, lookup_lt_Some in Hi. lia.
Qed.

Lemma pool_ok_perm n p l held held' :
  held ≡ₚ held' -> pool_ok n p l held -> pool_ok n p l held'.
Proof.
  intros Hp [Hlen Hnd Hnull Hc Hl]. split; auto.
  - by rewrite <- Hp.
  - intros i Hi. apply Hnull. by rewrite Hp.
  - by rewrite <- Hp.
Qed.

Lemma prefix_snoc_cases {A} (l' l : list A) (x : A) :
  l' `prefix_of` l ++ [x] -> l' `prefix_of` l \/ l' = l ++ [x].
Proof.
  intros [k Hk]. destruct k as [|y k _] using rev_ind.
  - right. by rewrite app_nil_r in Hk.
  - left. rewrite app_assoc in Hk. apply app_inj_tail in Hk as [-> _].
    by exists k.
Qed.

Lemma pool_ok_event n p l held e :
  pool_ok n p l held ->
  checked_out [e] = 0 ->
  pool_ok n p (l ++ [e]) held.
Proof.
  intros [Hlen Hnd Hnull Hc Hl] He. split; auto.
  - rewrite checked_out_app, He. lia.
  - intros l' [Hl'| ->]%prefix_snoc_cases; [auto|].
    rewrite checked_out_app, He, Z.add_0_r. apply Hl. done.
Qed.

(** A checkout of slot [i], which holds a buffer. *)
Lemma pool_ok_checkout n p l held i b :
  pool_ok n p l held ->
  p !! i = Some (Some b) ->
  pool_ok n (<[i := None]> p) (l ++ [EvCheckout i]) (i :: held).
Proof.
  intros Hok Hi. pose proof Hok as [Hlen Hnd Hnull Hc Hl].
  assert (Hfresh : i ∉ held).
  { intros Hin. apply Hnull in Hin. congruence. }
  assert (Hnull' : forall j, j ∈ i :: held -> <[i := None]> p !! j = Some None).
  { intros j [->|Hj]%elem_of_cons.
    - apply list_lookup_insert_eq. by eapply lookup_lt_Some.
    - rewrite list_lookup_insert_ne; [auto|]. intros ->. done. }
  assert (Hb : (length (i :: held) <= n + 1)%nat).
  { assert (Hlen' : length (<[i := None]> p) = (n + 1)%nat)
      by (by rewrite length_insert).
    rewrite <- Hlen', <- (length_seq (length (<[i := None]> p)) 0).
    apply submseteq_length, NoDup_submseteq; [by constructor|].
    intros j Hj. apply elem_of_seq. apply Hnull', lookup_lt_Some in Hj. lia. }
  split.
  - by rewrite length_insert.
  - by constructor.
  - exact Hnull'.
  - rewrite checked_out_app, Hc.
    change (checked_out [EvCheckout i]) with 1. rewrite length_cons. lia.
  - intros l' [Hl'| ->]%prefix_snoc_cases; [auto|].
    rewrite checked_out_app, Hc.
    change (checked_out [EvCheckout i]) with 1. rewrite length_cons in Hb. lia.
Qed.

(** The HTTP layer puts the buffers of [es] back. *)
Lemma pool_ok_return n p l (es : list PostDataEntry) held :
  pool_ok n p l (map pool_idx es ++ held) ->
  pool_ok n (foldl return_buffer p es)
          (l ++ map (fun e => EvReturn (pool_idx e)) es) held.
Proof.
  revert p l. induction es as [|e es IH]; intros p l Hok; simpl.
  - by rewrite app_nil_r.
  - change (l ++ EvReturn (pool_idx e) :: map (fun e => EvReturn (pool_idx e)) es)
      with (l ++ [EvReturn (pool_idx e)] ++ map (fun e => EvReturn (pool_idx e)) es).
    rewrite app_assoc. apply IH.
    change (map pool_idx (e :: es) ++ held)
      with (pool_idx e :: (map pool_idx es ++ held)) in Hok.
    destruct Hok as [Hlen Hnd Hnull Hc Hl]. rewrite length_cons in Hc.
    apply NoDup_cons in Hnd as [Hfresh Hnd].
    split.
    + unfold return_buffer. by rewrite length_insert.
    + exact Hnd.
    + intros i Hi. unfold return_buffer.
      rewrite list_lookup_insert_ne; [apply Hnull; by right|].
      intros <-. done.
    + rewrite checked_out_app, Hc.
      change (checked_out [EvReturn (pool_idx e)]) with (-1). lia.
    + intros l' [Hl'| ->]%prefix_snoc_cases; [auto|].
      rewrite checked_out_app, Hc.
      change (checked_out [EvReturn (pool_idx e)]) with (-1).
      specialize (Hl l ltac:(done)). lia.
Qed.

(** ** What the HTTP layer may change *)

Lemma rest_only_refl c : rest_only c c.
Proof. split; auto. exists []. by rewrite app_nil_r. Qed.

Lemma rest_only_trans c1 c2 c3 :
  rest_only c1 c2 -> rest_only c2 c3 -> rest_only c1 c3.
Proof.
  intros [] []. split; try congruence.
  destruct ro_log0 as (e1 & L1 & H1), ro_log1 as (e2 & L2 & H2).
  exists (e1 ++ e2). rewrite L2, L1, app_assoc. split; [done|]. by apply Forall_app.
Qed.

Lemma quiet_returns (es : list PostDataEntry) :
  Forall quiet (map (fun e => EvReturn (pool_idx e)) es).
Proof. apply Forall_forall. intros e (x & -> & _)%list_elem_of_fmap. right. eauto. Qed.

Lemma quiet_requests (evs : list event) :
  Forall quiet evs -> bulk_requests evs = [].
Proof.
  induction 1 as [|e evs [->|[i ->]] _ IH]; simpl; auto.
Qed.

Lemma quiet_checked_out e : quiet e -> checked_out [e] = 0 \/ checked_out [e] = -1.
Proof. intros [->|[i ->]]; auto. Qed.

(** [rest_multi_perform]: always answers, logs the poll, keeps the buffers
    where they are. *)
Lemma post_perform done c (Q : bool -> ElasticsearchBulkContext -> Prop) E :
  (forall b c', rest_only c c' ->
                log c' = log c ++ [EvPoll] ->
                pool c' = pool c ->
                (forall f, context_ok f c -> context_ok f c') ->
                Q b c') ->
  post (rest_multi_perform done c) Q E.
Proof.
  intros HQ. unfold rest_multi_perform. simpl. apply HQ; simpl; auto.
  - split; simpl; auto. exists [EvPoll]. split; [done|].
    constructor; [by left|constructor].
  - intros f [Hok Hn]. split; [|exact Hn]. simpl.
    apply pool_ok_event; [|done].
    eapply pool_ok_perm; [|exact Hok].
    apply Permutation_app_head. unfold in_flight. simpl.
    apply fmap_Permutation.
    rewrite (Permutation_app_comm (finished (rest c))), app_assoc.
    apply Permutation_app_tail.
    rewrite Permutation_app_comm.
    symmetry. apply (filter_app_complement (fun e => pool_idx e ∈ done)).
Qed.

(** [rest_multi_partial_cleanup]: always returns; buffers go back to the
    slots they came from. *)
Lemma post_cleanup finalize fast c (Q : unit -> ElasticsearchBulkContext -> Prop) E :
  (forall c', rest_only c c' ->
              (forall f, context_ok f c -> context_ok f c') ->
              finished (rest c') = [] ->
              (finalize = true -> running (rest c') = []) ->
              Q tt c') ->
  post (rest_multi_partial_cleanup finalize fast c) Q E.
Proof.
  intros HQ. unfold rest_multi_partial_cleanup. simpl. apply HQ; simpl; auto.
  - split; simpl; auto. eexists. split; [done|]. apply quiet_returns.
  - intros f [Hok Hn]. split; [|exact Hn]. simpl.
    apply pool_ok_return.
    eapply pool_ok_perm; [|exact Hok].
    unfold in_flight. simpl.
    generalize (if f then [pool_idx (current c)] else []). intros cur.
    destruct finalize; simpl; rewrite ?app_nil_r, !fmap_app.
    + rewrite (Permutation_app_comm cur).
      apply Permutation_app_tail, Permutation_app_comm.
    + rewrite (app_assoc _ cur), (Permutation_app_comm _ cur), <- app_assoc.
      apply Permutation_app_head, Permutation_app_comm.
  - by intros ->.
Qed.

(** [rest_multi_call]: always returns; whatever it reclaims first, it ends
    by taking the buffer and logging the request. *)
Lemma post_call wait rq c (Q : unit -> ElasticsearchBulkContext -> Prop) E :
  (forall c1 c',
      rest_only c c1 ->
      c' = set_log (log c1 ++ [EvBulk rq])
             (set_rest (mkRest (nhandles (rest c1))
                               (running (rest c1) ++ [rq_post rq])
                               (finished (rest c1))) c1) ->
      (pool_idx (rq_post rq) = pool_idx (current c) ->
       context_ok true c -> context_ok false c') ->
      Q tt c') ->
  post (rest_multi_call wait rq c) Q E.
Proof.
  intros HQ.
  assert (Hend : forall c1,
             rest_only c c1 ->
             (forall f, context_ok f c -> context_ok f c1) ->
             post ((modify (fun c => set_rest (mkRest (nhandles (rest c))
                                       (running (rest c) ++ [rq_post rq])
                                       (finished (rest c))) c) ;;
                    emit (EvBulk rq)) c1) Q E).
  { intros c1 Hro Hok. apply post_modify. unfold emit, modify, post.
    eapply HQ; [exact Hro|reflexivity|].
    intros Hidx Hc. apply Hok in Hc as [Hc Hn]. split; [|exact Hn].
    simpl. apply pool_ok_event; [|done].
    eapply pool_ok_perm; [|exact Hc].
    unfold in_flight. simpl. rewrite !fmap_app. simpl.
    rewrite Hidx, <- (ro_current _ _ Hro).
    rewrite <- app_assoc. simpl. apply Permutation_middle. }
  unfold rest_multi_call. apply post_gets, post_bind.
  destruct (negb _); unfold when.
  - apply post_bind, post_cleanup. intros c1 Hro1 Hok1 _ _.
    apply post_gets. destruct (negb _).
    + apply post_bind, post_perform. intros b c2 Hro2 _ _ Hok2.
      apply post_cleanup. intros c3 Hro3 Hok3 _ _.
      apply Hend; [|by auto].
      eauto using rest_only_trans.
    + apply Hend; auto.
  - apply Hend; [apply rest_only_refl|auto].
Qed.

(** [scan_pool] answers with a slot that holds a buffer, and answers
    whenever there is one among the slots it visits. *)
Lemma scan_pool_Some p i n j b :
  scan_pool p i n = Some (j, b) -> p !! j = Some (Some b).
Proof.
  revert i. induction n as [|n IH]; intros i; simpl; [done|].
  destruct (p !! i) as [[b'|]|] eqn:Hi; eauto.
  intros [= <- <-]. exact Hi.
Qed.

Lemma scan_pool_None p i n :
  (forall j b, (i <= j < i + n)%nat -> p !! j <> Some (Some b)) ->
  scan_pool p i n = None.
Proof.
  revert i. induction n as [|n IH]; intros i Hempty; simpl; [done|].
  destruct (p !! i) as [[b'|]|] eqn:Hi.
  - exfalso. apply (Hempty i b'); [lia|done].
  - apply IH. intros j b Hj. apply Hempty. lia.
  - apply IH. intros j b Hj. apply Hempty. lia.
Qed.

Lemma post_checkout c (Q : PostDataEntry -> ElasticsearchBulkContext -> Prop) E :
  (forall i b, pool c !! i = Some (Some b) ->
               Q (mkEntry b i)
                 (set_log (log c ++ [EvCheckout i])
                          (set_pool (<[i := None]> (pool c)) c))) ->
  E c ->
  post (checkout_batch_pool c) Q E.
Proof.
  intros HQ HE. unfold checkout_batch_pool.
  destruct (scan_pool _ _ _) as [[i b]|] eqn:Hs; simpl; [|exact HE].
  apply HQ. eapply scan_pool_Some, Hs.
Qed.

Lemma context_ok_checkout c i b :
  context_ok false c ->
  pool c !! i = Some (Some b) ->
  context_ok true
    (set_current (mkEntry b i)
       (set_log (log c ++ [EvCheckout i]) (set_pool (<[i := None]> (pool c)) c))).
Proof.
  intros [Hok Hn] Hi. split; [|exact Hn]. simpl.
  by apply (pool_ok_checkout _ _ _ _ _ b).
Qed.

(** ** [bulk_prologue] *)

Lemma quiet_midway evs : Forall quiet evs -> Forall midway evs.
Proof.
  intros H. eapply Forall_impl; [exact H|].
  intros e [->|[i ->]]; split; discriminate.
Qed.

Lemma post_prologue is_final tk c (Q : unit -> ElasticsearchBulkContext -> Prop) E :
  (forall c', prologue_step is_final c c' true -> Q tt c') ->
  (forall c', prologue_step is_final c c' false -> E c') ->
  post (bulk_prologue is_final tk c) Q E.
Proof.
  intros HQ HE. unfold bulk_prologue.
  apply post_bind, post_perform. intros b c1 Hro1 Hl1 _ Hok1.
  apply post_bind.
  apply (post_mono _ (fun _ c2 => rest_only c1 c2
                                  /\ forall f, context_ok f c1 -> context_ok f c2)
                   _ (fun _ => False)); [| |done].
  { destruct b; unfold when.
    - apply post_cleanup. auto.
    - split; [apply rest_only_refl|auto]. }
  intros [] c2 [Hro2 Hok2].
  assert (Hro : rest_only c c2) by eauto using rest_only_trans.
  assert (Hdue : flush_due is_final c2 = flush_due is_final c).
  { unfold flush_due. destruct Hro. congruence. }
  assert (Hlog2 : exists evs, log c2 = log c ++ EvPoll :: evs /\ Forall quiet evs).
  { destruct (ro_log _ _ Hro2) as (evs & -> & Hq). rewrite Hl1.
    exists evs. by rewrite <- app_assoc. }
  destruct Hlog2 as (evs2 & Hlog2 & Hq2).
  apply post_gets. rewrite Hdue.
  destruct (flush_due is_final c) eqn:Hd; unfold when.
  2:{ apply HQ. destruct Hro. split; rewrite ?Hd; auto; try done.
      - exists evs2. split; [done|]. split; [by apply quiet_requests|].
        by apply quiet_midway.
      - intros Hc. replace (true && negb is_final) with true; [auto|].
        unfold flush_due in Hd. destruct is_final; [|done].
        by rewrite orb_true_r in Hd. }
  apply post_gets. unfold id. apply post_bind, post_call.
  intros c3 c4 Hro3 -> Hok4.
  assert (Hro' : rest_only c c3) by eauto using rest_only_trans.
  destruct (ro_log _ _ Hro3) as (evs3 & Hlog3 & Hq3).
  assert (Hrq : mkRequest (waitForActiveShards c2)
                  (is_final && shouldRefresh (config c2) && (nrequests c2 =? 0))
                  is_final (current c2) = flush_request is_final c).
  { unfold flush_request. destruct Hro. congruence. }
  rewrite Hrq in *. clear Hrq.
  apply post_modify, post_modify.
  assert (Hreq : bulk_requests (evs2 ++ evs3 ++ [EvBulk (flush_request is_final c)])
                 = [flush_request is_final c]).
  { rewrite !bulk_requests_app, !quiet_requests by done. done. }
  assert (Hmid : Forall midway (evs2 ++ evs3 ++ [EvBulk (flush_request is_final c)])).
  { rewrite !Forall_app. repeat split; try by apply quiet_midway.
    constructor; [split; discriminate|constructor]. }
  assert (Hlog4 : log c3 ++ [EvBulk (flush_request is_final c)]
                  = log c ++ EvPoll :: evs2 ++ evs3 ++ [EvBulk (flush_request is_final c)]).
  { rewrite Hlog3, Hlog2. by rewrite <- !app_assoc. }
  assert (Hok : context_ok true c ->
                context_ok false
                  (set_log (log c3 ++ [EvBulk (flush_request is_final c)])
                     (set_rest (mkRest (nhandles (rest c3))
                                  (running (rest c3) ++ [current c])
                                  (finished (rest c3))) c3))).
  { intros Hc. apply Hok4; [simpl; by rewrite (ro_current _ _ Hro)|auto]. }
  destruct is_final; unfold when, negb.
  - apply post_ret, HQ.
    destruct Hro'. split; rewrite ?Hd; simpl; auto; try congruence.
    eexists. split; [exact Hlog4|]. by split.
  - apply post_bind, post_checkout.
    + intros i buf Hi. apply HQ.
      destruct Hro'. split; rewrite ?Hd; simpl; auto; try congruence.
      * exists ((evs2 ++ evs3 ++ [EvBulk (flush_request false c)]) ++ [EvCheckout i]).
        rewrite Hlog4. split; [by rewrite <- (app_assoc (log c))|].
        rewrite bulk_requests_app, Hreq. split; [done|].
        apply Forall_app. split; [done|].
        constructor; [split; discriminate|constructor].
      * by intros [|].
      * intros _ _ _. eexists _, i, buf. done.
      * intros Hc. apply Hok in Hc.
        by apply (context_ok_checkout _ i buf) in Hc.
    + apply HE. destruct Hro'. split; rewrite ?Hd; simpl; auto; try congruence.
      * eexists. split; [exact Hlog4|]. by split.
      * by intros [|].
Qed.

(** ** The appends *)

Lemma flush_due_entering is_final m c :
  flush_due is_final (entering m c) = flush_due is_final c.
Proof. unfold entering. by destruct (sets_wait m). Qed.

Lemma context_ok_entering f m c : context_ok f c -> context_ok f (entering m c).
Proof. unfold entering. by destruct (sets_wait m). Qed.

Section AppendFacts.

#[local] Arguments int32 : simpl never.
#[local] Arguments flush_due : simpl never.
#[local] Arguments flush_request : simpl never.

Variable replace_line_breaks strip_json_ending : string -> string.

Local Ltac fill :=
  cbn [when negb];
  repeat match goal with
         | |- post (bind (gets _) _ _) _ _ => apply post_gets
         | |- post (bind (ret _) _ _) _ _ => apply post_ret_bind
         | |- post (bind (appendStringInfo _) _ _) _ _ =>
             let text := fresh "text" in apply post_appendStringInfo; intros text
         end.

Local Ltac after_prologue HQ HE :=
  apply post_bind, post_prologue;
  [ let c1 := fresh "c1" in
    intros c1 [Hcfg Hwait _ _ (evs & Hlog & Hreq & Hmid) Hnreq Hnrows _ Hfresh Hp];
    fill;
    apply HQ;
    split;
    [ exact Hcfg
    | rewrite ?orb_false_r, ?orb_true_r; exact Hwait
    | exists (EvPoll :: evs);
      split; [exact Hlog|];
      split; [constructor; [split; discriminate|exact Hmid]|];
      split; [exact Hreq|by exists evs]
    | exact Hnreq
    | intros _; cbn [nrows set_nrows set_ntotal set_counts set_current];
      rewrite Hnrows; reflexivity
    | intros Hd _;
      destruct (Hfresh Hd eq_refl eq_refl) as (evs' & i & b & Hl & Hcur);
      exists evs', i; split; [exact Hl|];
      cbn [current set_nrows set_ntotal set_counts set_current pool_idx];
      by rewrite Hcur
    | intros [=]
    | intros Hc; exact (Hp Hc) ]
  | let c1 := fresh "c1" in
    intros c1 [Hcfg Hwait _ _ (evs & Hlog & Hreq & Hmid) Hnreq Hnrows Hkept _ Hp];
    apply HE;
    split;
    [ exact Hcfg
    | rewrite ?orb_false_r, ?orb_true_r; exact Hwait
    | exists (EvPoll :: evs);
      split; [exact Hlog|];
      split; [constructor; [split; discriminate|exact Hmid]|];
      split; [exact Hreq|by exists evs]
    | exact Hnreq
    | intros [=]
    | intros _ [=]
    | intros _; apply not_false_is_true; intros Hd;
      by destruct Hkept as [_ ?]; [left; exact Hd|]
    | intros Hc; exact (Hp Hc) ] ].

Lemma post_append tk m c (Q : unit -> ElasticsearchBulkContext -> Prop) E :
  (forall c', append_step m c c' true -> Q tt c') ->
  (forall c', append_step m c c' false -> E c') ->
  post (append_mutation replace_line_breaks strip_json_ending tk m c) Q E.
Proof.
  intros HQ HE. destruct m; simpl.
  - unfold ElasticsearchBulkInsertRow.
    destruct ctid, (cmax =? InvalidCommandId), (xmax =? InvalidTransactionId);
      after_prologue HQ HE.
  - unfold ElasticsearchBulkUpdateTuple.
    after_prologue HQ HE.
  - unfold ElasticsearchBulkVacuumXmax.
    after_prologue HQ HE.
  - unfold ElasticsearchBulkDeleteRowByXmin. apply post_modify.
    change (set_waitForActiveShards true c)
      with (entering (DeleteRowByXmin _id xmin) c).
    after_prologue HQ HE.
  - unfold ElasticsearchBulkDeleteRowByXmax. apply post_modify.
    change (set_waitForActiveShards true c)
      with (entering (DeleteRowByXmax _id xmax) c).
    after_prologue HQ HE.
  - unfold ElasticsearchBulkMarkTransactionInProgress.
    after_prologue HQ HE.
  - unfold ElasticsearchBulkMarkTransactionCommitted. fill. apply HQ.
    split; simpl; auto; try done.
    + by rewrite orb_false_r.
    + exists []. by rewrite app_nil_r.
Qed.

End AppendFacts.

(** ** The final drain *)

Lemma flush_due_final c : flush_due true c = true.
Proof. unfold flush_due. apply orb_true_r. Qed.

Lemma post_is_available done c (Q : bool -> ElasticsearchBulkContext -> Prop) E :
  (forall b c', rest_only c c' ->
                (forall f, context_ok f c -> context_ok f c') ->
                Q b c') ->
  post (rest_multi_is_available done c) Q E.
Proof.
  intros HQ. unfold rest_multi_is_available.
  apply post_bind, post_perform. intros b c1 Hro1 _ _ Hok1.
  apply post_bind, post_cleanup. intros c2 Hro2 Hok2 _ _.
  apply post_gets, post_ret, HQ; [|by auto].
  eauto using rest_only_trans.
Qed.

Lemma post_wait_all_done schedule c (Q : unit -> ElasticsearchBulkContext -> Prop)
    (E : ElasticsearchBulkContext -> Prop) :
  (forall c', rest_only c c' ->
              (forall f, context_ok f c -> context_ok f c') ->
              Q tt c' /\ E c') ->
  post (wait_all_done schedule c) Q E.
Proof.
  revert c. induction schedule as [|t schedule IH]; intros c HQ; simpl.
  - unfold rest_multi_all_done. apply post_gets.
    change (bind (ret ?a) ?k c) with (k a c). cbv beta.
    destruct (match running (rest c), finished (rest c) with
              | [], [] => true | _, _ => false end).
    + apply post_ret, HQ; [apply rest_only_refl|auto].
    + apply post_gets, post_bind, post_is_available. intros b c1 Hro Hok.
      apply post_ret, HQ; auto.
  - unfold rest_multi_all_done. apply post_gets.
    change (bind (ret ?a) ?k c) with (k a c). cbv beta.
    destruct (match running (rest c), finished (rest c) with
              | [], [] => true | _, _ => false end).
    + apply post_ret, HQ; [apply rest_only_refl|auto].
    + apply post_bind, post_is_available. intros b c1 Hro Hok.
      apply post_bind. unfold CHECK_FOR_INTERRUPTS.
      destruct (dt_interrupt t).
      * unfold elog_ERROR, post. apply HQ; auto.
      * apply post_ret, IH. intros c2 Hro2 Hok2.
        apply HQ; [|by auto]. eauto using rest_only_trans.
Qed.

Lemma post_finish tk schedule c (Q : unit -> ElasticsearchBulkContext -> Prop) E :
  (forall c', finish_step c c' true -> Q tt c') ->
  (forall c', finish_step c c' false -> E c') ->
  post (ElasticsearchFinishBulkProcess tk schedule c) Q E.
Proof.
  intros HQ HE. unfold ElasticsearchFinishBulkProcess.
  apply post_gets, post_bind.
  (* the final flush *)
  apply (post_mono _
           (fun _ c1 => exists f,
                config c1 = config c
                /\ waitForActiveShards c1 = waitForActiveShards c
                /\ nrequests c1 = (if 0 <? len (buff (current c))
                                   then int32 (nrequests c + 1) else nrequests c)
                /\ (exists evs, log c1 = log c ++ evs
                      /\ bulk_requests evs =
                         (if 0 <? len (buff (current c))
                          then [flush_request true c] else [])
                      /\ Forall midway evs)
                /\ (context_ok true c -> context_ok f c1))
           _ (fun _ => False)); [| |done].
  { unfold when. destruct (0 <? len (buff (current c))).
    - apply post_prologue.
      + intros c1 [Hcfg Hw _ _ (evs & Hl & Hr & Hm) Hn _ _ _ Hp].
        rewrite flush_due_final in Hr, Hn.
        exists false. split; [exact Hcfg|]. split; [exact Hw|].
        split; [exact Hn|]. split; [|exact Hp].
        exists (EvPoll :: evs). split; [done|]. split; [done|].
        constructor; [split; discriminate|done].
      + intros c1 Hs. by destruct (ps_kept _ _ _ _ Hs) as [_ ?]; [right|].
    - apply post_ret. exists true. do 3 (split; [done|]). split; [|done].
      exists []. by rewrite app_nil_r. }
  intros [] c1 (f & Hcfg & Hw & Hn & (evs1 & Hl1 & Hr1 & Hm1) & Hp1).
  apply post_gets, post_bind.
  (* the wait loop *)
  apply (post_mono _
           (fun _ c2 => rest_only c1 c2
                        /\ forall f, context_ok f c1 -> context_ok f c2)
           _ (fun c2 => rest_only c1 c2
                        /\ forall f, context_ok f c1 -> context_ok f c2)).
  { unfold when. destruct (0 <? nrequests c1).
    - apply post_wait_all_done. auto.
    - apply post_ret. split; [apply rest_only_refl|auto]. }
  2:{ intros c2 [Hro Hok]. apply HE.
      destruct Hro as [? ? ? ? ? ? ? ? (evs2 & Hl2 & Hq2)].
      split; try congruence.
      - exists (evs1 ++ evs2). rewrite Hl2, Hl1, app_assoc.
        split; [done|]. rewrite bulk_requests_app, Hr1, quiet_requests by done.
        split; [by rewrite app_nil_r|].
        apply Forall_app. split; [done|by apply quiet_midway].
      - intros Hc. exists f. auto. }
  intros [] c2 [Hro2 Hok2].
  apply post_bind, post_cleanup. intros c3 Hro3 Hok3 Hfin Hrun.
  assert (Hro : rest_only c1 c3) by eauto using rest_only_trans.
  destruct Hro as [? ? ? ? ? ? ? ? (evs3 & Hl3 & Hq3)].
  apply post_emit, post_gets. unfold id, when.
  set (c4 := set_log (log c3 ++ [EvDrained]) c3).
  assert (Hc4 : forall g, context_ok g c3 -> context_ok g c4).
  { intros g [Hg Hn']. split; [|done]. by apply pool_ok_event. }
  destruct (shouldRefresh (config c4) && (1 <? nrequests c4)) eqn:Href.
  - unfold emit, modify, post. apply HQ.
    split; simpl; try congruence.
    + exists ((evs1 ++ evs3 ++ [EvDrained]) ++ [EvRefresh]).
      rewrite Hl3, Hl1, <- !app_assoc. split; [done|].
      rewrite !bulk_requests_app, Hr1, (quiet_requests evs3) by done.
      split; [by rewrite app_nil_r|].
      exists (evs1 ++ evs3). simpl in Href. rewrite Href.
      rewrite <- !app_assoc. split; [done|].
      apply Forall_app. split; [done|by apply quiet_midway].
    + auto.
    + intros Hc. exists f. split; [|apply (Hc4 f); auto].
      simpl. apply pool_ok_event; [|done]. apply (Hc4 f); auto.
  - apply post_ret, HQ.
    split; simpl; try congruence.
    + exists (evs1 ++ evs3 ++ [EvDrained]).
      rewrite Hl3, Hl1, <- !app_assoc. split; [done|].
      rewrite !bulk_requests_app, Hr1, (quiet_requests evs3) by done.
      split; [by rewrite app_nil_r|].
      exists (evs1 ++ evs3). simpl in Href. rewrite Href.
      rewrite <- !app_assoc. split; [done|].
      apply Forall_app. split; [done|by apply quiet_midway].
    + auto.
    + intros Hc. exists f. apply Hc4; auto.
Qed.

(** ** Runs of appends *)

Lemma appends_run_nil c : appends_run 0 c c true.
Proof.
  split; auto. exists []. rewrite app_nil_r. repeat split; auto; constructor.
Qed.

Lemma appends_run_one m c c' ok : append_step m c c' ok -> appends_run 1 c c' ok.
Proof.
  intros [Hcfg Hw (evs & Hl & Hm & Hr & _) Hn Hrows _ _ Hp].
  assert (Hlen : length (bulk_requests evs)
                 = if runs_prologue m && flush_due false c then 1%nat else 0%nat).
  { rewrite Hr. by destruct (_ && _). }
  split; auto.
  - intros Hc. rewrite Hw, Hc. done.
  - exists evs. split; [done|]. split; [done|]. split.
    + rewrite Hr. destruct (_ && _); constructor; [|constructor].
      split; [done|]. split; [done|]. simpl. intros Hc.
      unfold entering. by destruct (sets_wait m).
    + rewrite Hlen. destruct (_ && _); lia.
  - unfold tallied. intros Ht. rewrite Hn, Hl, bulk_requests_app, length_app, Hlen.
    destruct (_ && _).
    + rewrite Ht, int32_succ. f_equal. lia.
    + rewrite Ht. f_equal. lia.
  - unfold rows_in_range, MAX_DOCS_PER_REQUEST. intros Hc ->.
    rewrite (Hrows eq_refl). destruct (runs_prologue m); [|done].
    destruct (flush_due false c) eqn:Hd.
    + rewrite int32_small; lia.
    + unfold flush_due in Hd. apply orb_false_elim in Hd as [Hd _].
      apply orb_false_elim in Hd as [_ Hd].
      unfold MAX_DOCS_PER_REQUEST in Hd. rewrite int32_small; lia.
Qed.

Lemma appends_run_trans n1 n2 c c1 c2 ok :
  appends_run n1 c c1 true -> appends_run n2 c1 c2 ok ->
  appends_run (n1 + n2) c c2 ok.
Proof.
  intros [Hcfg1 Hw1 (e1 & Hl1 & Hm1 & Hr1 & Hn1) Ht1 Hrows1 Hp1]
         [Hcfg2 Hw2 (e2 & Hl2 & Hm2 & Hr2 & Hn2) Ht2 Hrows2 Hp2].
  split; auto; try congruence.
  exists (e1 ++ e2). rewrite Hl2, Hl1, app_assoc. split; [done|].
  split; [by apply Forall_app|].
  rewrite bulk_requests_app, length_app. split; [|lia].
  apply Forall_app. split; [done|].
  eapply Forall_impl; [exact Hr2|].
  intros r (? & ? & Hw). repeat split; auto.
Qed.

Section RunFacts.

Variable replace_line_breaks strip_json_ending : string -> string.

Lemma post_append_all ms c (Q : unit -> ElasticsearchBulkContext -> Prop) E :
  (forall c', appends_run (length ms) c c' true -> Q tt c') ->
  (forall c', appends_run (length ms) c c' false -> E c') ->
  post (append_all replace_line_breaks strip_json_ending ms c) Q E.
Proof.
  revert c Q E.
  induction ms as [|[tk m] ms IH]; intros c Q E HQ HE; cbn [append_all length].
  - apply post_ret, HQ, appends_run_nil.
  - apply post_bind, post_append.
    + intros c1 H1%appends_run_one. apply IH.
      * intros c2 H2. apply HQ. apply (appends_run_trans 1 _ _ _ _ _ H1 H2).
      * intros c2 H2. apply HE. apply (appends_run_trans 1 _ _ _ _ _ H1 H2).
    + intros c1 [Hcfg Hw Hl Ht Hrows Hp]%appends_run_one. apply HE.
      split; auto.
      destruct Hl as (evs & Hl & Hm & Hr & Hn). exists evs.
      split; [done|]. split; [done|]. split; [done|]. rewrite length_cons. lia.
Qed.

End RunFacts.

(** ** The start of a session *)

Lemma String_length_append a b :
  String.length (a +:+ b) = (String.length a + String.length b)%nat.
Proof. induction a as [|x a IH]; simpl; [done|]. by rewrite IH. Qed.

Lemma len_append a b : len (a +:+ b) = len a + len b.
Proof. unfold len. rewrite String_length_append. lia. Qed.

Lemma pool_ok_fresh n :
  pool_ok n (replicate (n + 1) (Some EmptyString)) [] [].
Proof.
  split.
  - apply length_replicate.
  - constructor.
  - intros i Hi. by apply elem_of_nil in Hi.
  - done.
  - intros l' Hl'. apply prefix_nil_inv in Hl' as ->.
    change (checked_out []) with 0. lia.
Qed.

Lemma start_cases indexRel indexName tupdesc ivc :
  (exists c, ElasticsearchStartBulkProcess indexRel indexName tupdesc ivc = OK tt c
             /\ started indexRel c)
  \/ (exists msg, ElasticsearchStartBulkProcess indexRel indexName tupdesc ivc
                  = ERROR msg palloc0).
Proof.
  unfold ElasticsearchStartBulkProcess.
  destruct (match indexName with Some n => Some n | None => opt_index_name indexRel end);
    [left|right; eauto].
  unfold bind, checkout_batch_pool, rest_multi_init.
  cbn [pool rest nhandles].
  rewrite Nat.add_1_r. cbn [replicate scan_pool lookup list_lookup].
  eexists. split; [reflexivity|].
  split; cbn; auto.
  - by rewrite length_replicate, Nat.add_1_r.
  - split; [|done]. cbn.
    pose proof (pool_ok_checkout _ _ _ _ 0%nat EmptyString
                  (pool_ok_fresh (opt_bulk_concurrency indexRel))) as H.
    rewrite Nat.add_1_r in H. apply H. done.
Qed.

Lemma started_tallied indexRel c : started indexRel c -> tallied c.
Proof. intros H. unfold tallied. by rewrite (st_log _ _ H), (st_nrequests _ _ H). Qed.

(** ** The flush rule of the entry points that run the prologue *)

Section FlushRule.

Variable replace_line_breaks strip_json_ending : string -> string.

(** With the row count in its range, [nrows == MAX_DOCS_PER_REQUEST] says
    that the count has reached the cap. *)
Lemma flush_due_iff is_final c :
  rows_in_range c ->
  flush_due is_final c = true <->
  batchSize (config c) <= len (buff (current c))
  \/ MAX_DOCS_PER_REQUEST <= nrows c
  \/ is_final = true.
Proof.
  unfold rows_in_range, flush_due, MAX_DOCS_PER_REQUEST. intros Hr.
  rewrite !orb_true_iff, Z.leb_le, Z.eqb_eq. intuition lia.
Qed.

(** Index, update, vacuum, the two deletes and mark-in-progress: the
    append polls first, then sends the current buffer exactly when the
    flush condition holds of the context it was called in, and after such
    a flush the buffer being filled is the one just checked out. *)
Lemma append_flush_rule tk m c :
  (forall xid, m <> MarkTransactionCommitted xid) ->
  let r := append_mutation replace_line_breaks strip_json_ending tk m c in
  (exists evs,
      log (final_context r) = log c ++ EvPoll :: evs
      /\ bulk_requests evs =
         (if flush_due false c then [flush_request false (entering m c)] else []))
  /\ (flush_due false c = true -> succeeded r = true ->
      exists evs i, log (final_context r) = evs ++ [EvCheckout i]
                    /\ pool_idx (current (final_context r)) = i)
  /\ (succeeded r = false -> flush_due false c = true).
Proof.
  intros Hm r.
  assert (Hp : runs_prologue m = true).
  { destruct m; try done. by destruct (Hm xid). }
  assert (H : post r (fun _ c' => append_step m c c' true)
                     (fun c' => append_step m c c' false)).
  { apply post_append; auto. }
  destruct r as [[] c'|msg c']; simpl in *;
    destruct H as [_ _ (evs & Hl & _ & Hr & He) _ _ Hf Herr _];
    rewrite Hp in *; destruct He as [evs' ->]; simpl in *.
  - split; [eauto|]. split; [|done]. intros Hd _. by apply Hf.
  - split; [eauto|]. split; [done|]. intros _. by apply Herr.
Qed.

End FlushRule.

(** ** Whole sessions *)

Lemma session_has_shape rlb sje indexRel indexName tupdesc ms tk schedule :
  let r := bulk_session rlb sje indexRel indexName tupdesc ms tk schedule in
  session_shape indexRel (length ms) (final_context r) (succeeded r).
Proof.
  intros r.
  enough (H : post r (fun _ c' => session_shape indexRel (length ms) c' true)
                     (fun c' => session_shape indexRel (length ms) c' false))
    by (by destruct r).
  subst r. unfold bulk_session.
  destruct (start_cases indexRel indexName tupdesc false)
    as [(c0 & -> & Hs)|(msg & ->)].
  - apply post_bind, post_append_all.
    + intros c1 H1. apply post_finish.
      * intros c2 H2. right. right. eauto.
      * intros c2 H2. right. right. eauto.
    + intros c1 H1. right. left. eauto.
  - by left.
Qed.

(** The requests of a session: those of the appends, then the final one if
    the drain flushed. *)
Lemma refresh_only_when_first_and_final w (reqs : list bulk_request) c flushed :
  Forall (append_request w) reqs ->
  nrequests c = Z.of_nat (length reqs) ->
  shouldRefresh (config c) = true ->
  forall (k : nat) rq,
    (reqs ++ (if flushed : bool then [flush_request true c] else [])) !! k = Some rq ->
    (rq_refresh rq = true <-> rq_is_final rq = true /\ k = 0%nat).
Proof.
  intros Hreqs Hn Hsr k rq [Hk|[Hlen Hk]]%lookup_app_Some.
  - destruct (proj1 (Forall_lookup _ _) Hreqs k rq Hk) as (Hf & Hr & _).
    rewrite Hf, Hr. intuition discriminate.
  - destruct flushed; [|by rewrite lookup_nil in Hk].
    apply list_lookup_singleton_Some in Hk as [Hk <-].
    unfold flush_request. cbn [rq_refresh rq_is_final].
    rewrite Hsr, Hn. cbn [andb]. rewrite Z.eqb_eq. split.
    + intros H. split; [done|]. lia.
    + intros [_ ->]. lia.
Qed.

(** ** Main theorems on the bulk pipeline *)

(** C3.  With the refresh interval disabled ([-1]), in a session of fewer
    than [2^31 - 1] appends: a bulk request carries [refresh=true] exactly
    when it is the final flush and the first request of the session; and
    when the session returns, the log ends with the drain followed by one
    [_refresh] request exactly when more than one bulk request was sent --
    nothing is in flight any more at that point, and no [_refresh] was sent
    earlier. *)
Theorem refresh_policy rlb sje indexRel indexName tupdesc ms tk schedule :
  opt_refresh_interval indexRel = "-1" ->
  Z.of_nat (length ms) < 2 ^ 31 - 1 ->
  let r := bulk_session rlb sje indexRel indexName tupdesc ms tk schedule in
  let requests := bulk_requests (log (final_context r)) in
  (forall (k : nat) rq,
      requests !! k = Some rq ->
      (rq_refresh rq = true <-> rq_is_final rq = true /\ k = 0%nat))
  /\ (succeeded r = true ->
      exists pre,
        log (final_context r)
        = pre ++ EvDrained ::
                 (if bool_decide (1 < length requests)%nat then [EvRefresh] else [])
        /\ (EvRefresh ∉ pre)
        /\ running (rest (final_context r)) = []
        /\ finished (rest (final_context r)) = []).
Proof.
  intros Hint Hlen r requests.
  pose proof (session_has_shape rlb sje indexRel indexName tupdesc ms tk schedule)
    as Hshape.
  fold r in Hshape. subst requests.
  destruct Hshape as [[-> ->]|[(c0 & Hs & Hrun & ->)|(c0 & c1 & Hs & Hrun & Hfin)]].
  - split; [|done]. intros k rq Hk. cbn in Hk. by rewrite lookup_nil in Hk.
  - split; [|done].
    destruct Hrun as [_ _ (evs & -> & _ & Hreqs & _) _ _ _].
    rewrite (st_log _ _ Hs), bulk_requests_app. cbn [bulk_requests omap app].
    intros k rq Hk.
    destruct (proj1 (Forall_lookup _ _) Hreqs k rq Hk) as (Hf & Hr & _).
    rewrite Hf, Hr. intuition discriminate.
  - pose proof (ar_tally _ _ _ _ Hrun (started_tallied _ _ Hs)) as Ht.
    destruct Hrun as [Hcfg _ (evs & Hl1 & Hm1 & Hreqs & Hn1) _ _ _].
    assert (Hreq1 : bulk_requests (log c1) = bulk_requests evs).
    { by rewrite Hl1, (st_log _ _ Hs), bulk_requests_app. }
    unfold tallied in Ht. rewrite Hreq1 in Ht.
    rewrite int32_small in Ht by lia.
    assert (Hsr : shouldRefresh (config c1) = true).
    { rewrite Hcfg, (st_refresh _ _ Hs). by apply bool_decide_eq_true. }
    destruct Hfin as [Hcfg2 _ Hn2 (evs2 & Hl2 & Hreq2 & Hend) Hdr _].
    assert (Hreqs2 : bulk_requests (log (final_context r))
                     = bulk_requests evs ++
                       (if 0 <? len (buff (current c1))
                        then [flush_request true c1] else [])).
    { by rewrite Hl2, bulk_requests_app, Hreq1, Hreq2. }
    rewrite Hreqs2. split.
    + by apply (refresh_only_when_first_and_final (waitForActiveShards c0)).
    + intros Hok. rewrite Hok in Hend. destruct Hend as (pre & -> & Hpre).
      destruct (Hdr Hok) as [Hrun Hfi].
      exists (log c1 ++ pre). rewrite Hl2, <- app_assoc. split; [|split; [|done]].
      * do 2 f_equal. rewrite Hcfg2, Hsr, Hn2, Ht. cbn [andb].
        rewrite length_app.
        destruct (0 <? len (buff (current c1))); cbn [length].
        -- rewrite int32_small by lia.
           destruct (Z.ltb_spec 1 (Z.of_nat (length (bulk_requests evs)) + 1));
             [rewrite bool_decide_eq_true_2|rewrite bool_decide_eq_false_2];
             auto; lia.
        -- destruct (Z.ltb_spec 1 (Z.of_nat (length (bulk_requests evs))));
             [rewrite bool_decide_eq_true_2|rewrite bool_decide_eq_false_2];
             auto; lia.
      * rewrite Hl1, (st_log _ _ Hs). intros Hin.
        apply elem_of_app in Hin as [Hin|Hin];
          [apply elem_of_app in Hin as [Hin|Hin]|].
        -- by apply list_elem_of_singleton in Hin.
        -- by destruct (proj1 (Forall_forall _ _) Hm1 _ Hin).
        -- by destruct (proj1 (Forall_forall _ _) Hpre _ Hin).
Qed.

Lemma refresh_policy_witness :
  let r := bulk_session id id sample_options None None sample_appends
                        quiet_tick [] in
  let requests := bulk_requests (log (final_context r)) in
  (forall (k : nat) rq,
      requests !! k = Some rq ->
      (rq_refresh rq = true <-> rq_is_final rq = true /\ k = 0%nat))
  /\ (succeeded r = true ->
      exists pre,
        log (final_context r)
        = pre ++ EvDrained ::
                 (if bool_decide (1 < length requests)%nat then [EvRefresh] else [])
        /\ (EvRefresh ∉ pre)
        /\ running (rest (final_context r)) = []
        /\ finished (rest (final_context r)) = []).
Proof.
  apply (refresh_policy id id sample_options None None sample_appends
                        quiet_tick []).
  - reflexivity.
  - vm_compute. reflexivity.
Defined.

(** C7.  [ElasticsearchStartBulkProcess] fills [bulkConcurrency + 1]
    slots; along the log of any session -- whatever the mutations, whatever
    the transport does, and whether or not the session ends in an error --
    the buffers checked out and not yet returned never number more than
    [bulkConcurrency + 1]; and [checkout_batch_pool] on a pool whose slots
    are all [NULL] raises at once, leaving the context and its log as they
    were (the function neither polls nor waits). *)
Theorem pool_capacity rlb sje indexRel indexName tupdesc ms tk schedule :
  let n := opt_bulk_concurrency indexRel in
  (forall c,
      ElasticsearchStartBulkProcess indexRel indexName tupdesc false = OK tt c ->
      length (pool c) = (n + 1)%nat /\ nhandles (rest c) = n)
  /\ (forall l',
         l' `prefix_of`
            log (final_context
                   (bulk_session rlb sje indexRel indexName tupdesc ms tk schedule)) ->
         checked_out l' <= Z.of_nat n + 1)
  /\ (forall c,
         (forall i, (i < nhandles (rest c) + 1)%nat -> pool c !! i = Some None) ->
         checkout_batch_pool c = ERROR "Unable to checkout from batch pool" c).
Proof.
  intros n. split; [|split].
  - intros c Hc.
    destruct (start_cases indexRel indexName tupdesc false)
      as [(c0 & H0 & Hs)|(msg & H0)]; rewrite H0 in Hc; [|done].
    injection Hc as <-. split; [apply (st_slots _ _ Hs)|apply (st_handles _ _ Hs)].
  - intros l' Hl'.
    pose proof (session_has_shape rlb sje indexRel indexName tupdesc ms tk schedule)
      as Hshape. cbv zeta in Hshape.
    set (c' := final_context _) in *.
    assert (Hok : c' = palloc0
                  \/ exists f, context_ok f c'
                               /\ bulkConcurrency (config c') = n).
    { destruct Hshape as [[-> _]|[(c0 & Hs & Hrun & _)|(c0 & c1 & Hs & Hrun & Hfin)]].
      - by left.
      - right. exists false. split.
        + apply (ar_pool _ _ _ _ Hrun), (st_pool _ _ Hs).
        + rewrite (ar_config _ _ _ _ Hrun). apply (st_concurrency _ _ Hs).
      - right.
        destruct (fs_pool _ _ _ Hfin (ar_pool _ _ _ _ Hrun (st_pool _ _ Hs)))
          as [f Hf].
        exists f. split; [done|].
        rewrite (fs_config _ _ _ Hfin), (ar_config _ _ _ _ Hrun).
        apply (st_concurrency _ _ Hs). }
    destruct Hok as [Hc'|(f & [Hp Hn] & Hcfg)].
    + rewrite Hc' in Hl'. cbn in Hl'. apply prefix_nil_inv in Hl' as ->.
      change (checked_out []) with 0. lia.
    + destruct (pk_log _ _ _ _ Hp l' Hl') as [_ Hle].
      rewrite Hn, Hcfg in Hle. lia.
  - intros c Hempty. unfold checkout_batch_pool.
    rewrite scan_pool_None; [done|].
    intros j b Hj Hb. rewrite Hempty in Hb by lia. done.
Qed.

Lemma pool_capacity_witness :
  checked_out
    (log (final_context
            (bulk_session id id sample_options None None sample_appends
                          quiet_tick []))) <= 2
  /\ checkout_batch_pool exhausted_context
     = ERROR "Unable to checkout from batch pool" exhausted_context.
Proof.
  destruct (pool_capacity id id sample_options None None sample_appends
                          quiet_tick []) as (_ & Hlog & Hfatal).
  split.
  - apply Hlog. reflexivity.
  - apply Hfatal. intros [|[|i]] Hi; [reflexivity|reflexivity|].
    vm_compute in Hi. lia.
Defined.

Section WaitForActiveShards.

Variable replace_line_breaks strip_json_ending : string -> string.

Lemma vacuum_xmax_keeps_the_flag c tk _id expected_xmax :
  let r := ElasticsearchBulkVacuumXmax tk _id expected_xmax c in
  waitForActiveShards (final_context r) = waitForActiveShards c
  /\ exists evs,
      log (final_context r) = log c ++ evs
      /\ forall rq, rq ∈ bulk_requests evs ->
                    rq_wait_for_active_shards rq = waitForActiveShards c.
Proof.
  intros r.
  set (good := fun c' : ElasticsearchBulkContext =>
                 waitForActiveShards c' = waitForActiveShards c
                 /\ exists evs,
                     log c' = log c ++ evs
                     /\ Forall (fun rq => rq_wait_for_active_shards rq
                                          = waitForActiveShards c)
                               (bulk_requests evs)).
  enough (H : post r (fun _ => good) good).
  { assert (Hg : good (final_context r)) by (by destruct r).
    destruct Hg as [Hw (evs & Hl & Hall)]. split; [done|].
    exists evs. split; [done|]. by apply Forall_forall. }
  assert (H1 : forall c1 ok, append_step (VacuumXmax _id expected_xmax) c c1 ok -> good c1).
  { intros c1 ok [_ Hw (evs & Hl & _ & Hr & _) _ _ _ _ _]. split.
    - rewrite Hw. cbn. by rewrite orb_false_r.
    - exists evs. split; [done|]. rewrite Hr.
      destruct (_ && _); constructor; [|constructor].
      reflexivity. }
  subst r.
  change (ElasticsearchBulkVacuumXmax tk _id expected_xmax)
    with (append_mutation replace_line_breaks strip_json_ending tk
                          (VacuumXmax _id expected_xmax)).
  apply post_append; eauto.
Qed.

(** C4, as the code has it.  Once a conditional delete (by creating xid or
    by deleting xid) is appended in any context, the flag
    [waitForActiveShards] is set and stays set, and every bulk request sent
    from the start of that append on -- by that append, by any later
    append, by the final drain -- carries [wait_for_active_shards=all],
    also when the session ends in an error.  A vacuum-xmax append does not
    set the flag: in any context it leaves the flag as it finds it, and
    the request it sends, if it sends one, carries the directive only when
    the flag was set before. *)
Theorem delete_forces_wait_for_active_shards c tk d ms tkf schedule :
  ((exists _id x, d = DeleteRowByXmin _id x \/ d = DeleteRowByXmax _id x) ->
   let r := (append_mutation replace_line_breaks strip_json_ending tk d ;;
             append_all replace_line_breaks strip_json_ending ms ;;
             ElasticsearchFinishBulkProcess tkf schedule) c in
   waitForActiveShards (final_context r) = true
   /\ exists evs,
       log (final_context r) = log c ++ evs
       /\ forall rq, rq ∈ bulk_requests evs -> rq_wait_for_active_shards rq = true)
  /\ (forall _id expected_xmax,
         let r := ElasticsearchBulkVacuumXmax tk _id expected_xmax c in
         waitForActiveShards (final_context r) = waitForActiveShards c
         /\ exists evs,
             log (final_context r) = log c ++ evs
             /\ forall rq, rq ∈ bulk_requests evs ->
                           rq_wait_for_active_shards rq = waitForActiveShards c).
Proof.
  split; [|apply vacuum_xmax_keeps_the_flag].
  intros Hd r.
  assert (Hsw : sets_wait d = true).
  { destruct Hd as (_id & x & [-> | ->]); reflexivity. }
  set (good := fun c' : ElasticsearchBulkContext =>
                 waitForActiveShards c' = true
                 /\ exists evs,
                     log c' = log c ++ evs
                     /\ Forall (fun rq => rq_wait_for_active_shards rq = true)
                               (bulk_requests evs)).
  enough (H : post r (fun _ => good) good).
  { assert (Hg : good (final_context r)) by (by destruct r).
    destruct Hg as [Hw (evs & Hl & Hall)]. split; [done|].
    exists evs. split; [done|]. by apply Forall_forall. }
  assert (H1 : forall c1 ok, append_step d c c1 ok -> good c1).
  { intros c1 ok [_ Hw (evs & Hl & _ & Hr & _) _ _ _ _ _]. split.
    - by rewrite Hw, Hsw, orb_true_r.
    - exists evs. split; [done|]. rewrite Hr.
      destruct (_ && _); constructor; [|constructor].
      unfold entering. by rewrite Hsw. }
  assert (H2 : forall n c1 c2 ok, good c1 -> appends_run n c1 c2 ok -> good c2).
  { intros n c1 c2 ok [Hw1 (evs1 & Hl1 & Hall1)]
           [_ Hw (evs & Hl & _ & Hr & _) _ _ _]. split; [auto|].
    exists (evs1 ++ evs). rewrite Hl, Hl1, app_assoc. split; [done|].
    rewrite bulk_requests_app. apply Forall_app. split; [done|].
    eapply Forall_impl; [exact Hr|]. intros rq (_ & _ & Hrq). auto. }
  assert (H3 : forall c2 c3 ok, good c2 -> finish_step c2 c3 ok -> good c3).
  { intros c2 c3 ok [Hw2 (evs2 & Hl2 & Hall2)] [_ Hw _ (evs & Hl & Hr & _) _ _].
    split; [congruence|].
    exists (evs2 ++ evs). rewrite Hl, Hl2, app_assoc. split; [done|].
    rewrite bulk_requests_app, Hr. apply Forall_app. split; [done|].
    destruct (0 <? _); constructor; [|constructor]. exact Hw2. }
  subst r. apply post_bind, post_append; [|by eauto].
  intros c1 Hs1. apply post_bind, post_append_all; [|by eauto].
  intros c2 Hs2. apply post_finish; eauto.
Qed.

End WaitForActiveShards.

Lemma delete_forces_wait_for_active_shards_witness :
  let r := (append_mutation id id quiet_tick (DeleteRowByXmax "1" 9) ;;
            append_all id id sample_appends ;;
            ElasticsearchFinishBulkProcess quiet_tick []) sample_context in
  waitForActiveShards (final_context r) = true
  /\ exists evs,
      log (final_context r) = log sample_context ++ evs
      /\ forall rq, rq ∈ bulk_requests evs -> rq_wait_for_active_shards rq = true.
Proof.
  destruct (delete_forces_wait_for_active_shards id id sample_context
              quiet_tick (DeleteRowByXmax "1" 9) sample_appends quiet_tick [])
    as [Hdelete _].
  apply Hdelete. exists "1", 9. right. reflexivity.
Defined.

(** C4 as stated also counts [vacuum-xmax] among the mutations that set
    the flag.  A session that only appends a vacuum-xmax sends its one
    request without [wait_for_active_shards=all] and ends with the flag
    clear. *)
Lemma vacuum_xmax_leaves_wait_flag_clear :
  let r := bulk_session id id sample_options None None
                        [(quiet_tick, VacuumXmax "1" 5)] quiet_tick [] in
  succeeded r = true
  /\ waitForActiveShards (final_context r) = false
  /\ map rq_wait_for_active_shards (bulk_requests (log (final_context r))) = [false].
Proof. vm_compute. repeat split. Qed.

(** C1 fails on [ElasticsearchBulkMarkTransactionCommitted]: in a context
    where a flush is due the function only appends to the current buffer --
    it does not poll, sends nothing and checks nothing out -- whereas
    [ElasticsearchBulkMarkTransactionInProgress], called in the same
    context, polls and sends the buffer. *)
Theorem mark_committed_skips_the_flush tk xid c :
  flush_due false c = true ->
  (exists c',
      ElasticsearchBulkMarkTransactionCommitted xid c = OK tt c'
      /\ log c' = log c
      /\ rest c' = rest c
      /\ pool c' = pool c
      /\ nrequests c' = nrequests c
      /\ nrows c' = nrows c
      /\ pool_idx (current c') = pool_idx (current c)
      /\ buff (current c')
         = (buff (current c) +:+ ledger_action) +:+ committed_script xid)
  /\ (exists evs,
         log (final_context (ElasticsearchBulkMarkTransactionInProgress tk xid c))
         = log c ++ EvPoll :: evs
         /\ bulk_requests evs = [flush_request false c]).
Proof.
  intros Hdue. split.
  - eexists. split; [reflexivity|]. cbn. repeat split; auto.
  - destruct (append_flush_rule id id tk (MarkTransactionInProgress xid) c)
      as ((evs & Hl & Hr) & _); [done|].
    exists evs. split; [exact Hl|]. by rewrite Hr, Hdue.
Qed.

Lemma mark_committed_skips_the_flush_witness :
  flush_due false sample_context = true
  /\ log (final_context
            (ElasticsearchBulkMarkTransactionCommitted 8 sample_context))
     = log sample_context
  /\ bulk_requests
       (log (final_context
               (ElasticsearchBulkMarkTransactionInProgress quiet_tick 8 sample_context)))
     = [flush_request false sample_context].
Proof.
  assert (Hdue : flush_due false sample_context = true) by reflexivity.
  destruct (mark_committed_skips_the_flush quiet_tick 8 sample_context Hdue)
    as ((c' & Hc' & Hlog & _) & _).
  split; [exact Hdue|]. split.
  - rewrite Hc'. exact Hlog.
  - vm_compute. reflexivity.
Defined.

End BulkProofs.

(* ================================================================== *)
(** * Facts about scroll cursors *)
(* ================================================================== *)

Module ScrollProofs.
Import Scroll ScrollSpec.

Section AnyBackend.

Context {B : Type} `{Backend B}.

Lemma open_count_ok q use_id needSort needScore limit sortField direction hl extra
    (w : world B) :
  let o := ElasticsearchOpenScroll q use_id needSort needScore limit sortField
                                   direction hl extra w in
  count_ok (outcome_context o) /\ cnt (outcome_context o) = 0.
Proof.
  unfold ElasticsearchOpenScroll.
  destruct (rest_call_search _ w) as [response w'].
  destruct (rs_error response); cbn; unfold count_ok; cbn.
  - lia.
  - pose proof (u64_range (rs_total response)). lia.
Qed.

Lemma fetch_more_counts c (w : world B) :
  cnt (outcome_context (fetch_more c w)) = cnt c
  /\ total (outcome_context (fetch_more c w)) = total c.
Proof.
  unfold fetch_more. destruct (rest_call_scroll _ w) as [response w'].
  by destruct (rs_error response).
Qed.

Lemma fetch_more_defined c (w : world B) c' w' :
  fetch_more c w <> SUNDEFINED c' w'.
Proof.
  unfold fetch_more. destruct (rest_call_scroll _ w) as [response w0].
  by destruct (rs_error response).
Qed.

Lemma take_hit_counts want c (w : world B) :
  match take_hit want c w with
  | SOK _ c' _ => cnt c' = u64 (cnt c + 1) /\ total c' = total c
                  /\ currpos c' = u64 (currpos c + 1)
  | SERR _ c' _ | SUNDEFINED c' _ => c' = c
  end.
Proof.
  unfold take_hit. destruct (hits c) as [|page|]; [done| |done].
  by destruct (page !! _).
Qed.

(** The unpacking of the row locator, in arithmetic. *)
Lemma ItemPointerSet_from_uint64_unpacks x :
  ItemPointerSet_from_uint64 x
  = mkItemPointer ((x / 2 ^ 32) mod 2 ^ 32) (x mod 2 ^ 16).
Proof.
  unfold ItemPointerSet_from_uint64.
  by rewrite !Z.land_ones, Z.shiftr_div_pow2 by lia.
Qed.

(** A hit that is taken is the one at the position, and it is handed out
    as the out parameters say. *)
Lemma take_hit_hands_out want c (w : world B) it c' w' :
  take_hit want c w = SOK it c' w' ->
  exists pg h,
    hits c = Ref pg
    /\ pg !! Z.to_nat (currpos c) = Some h
    /\ hits c' = Ref pg
    /\ hitEntry c' = Ref h
    /\ it = handed_out want c h
    /\ usingId c' = usingId c
    /\ hasHighlights c' = hasHighlights c
    /\ w' = w.
Proof.
  unfold take_hit. destruct (hits c) as [|pg|] eqn:Hpg; [done| |done].
  destruct (pg !! _) as [h|] eqn:Hh; [|done].
  intros [= <- <- <-]. exists pg, h. cbn. repeat split; try done.
  unfold handed_out. rewrite ItemPointerSet_from_uint64_unpacks.
  by destruct (usingId c), (out_ctid want).
Qed.

Lemma next_cases want c (w : world B) :
  ElasticsearchGetNextItemPointer want c w =
  if total c <=? cnt c then
    SERR ("Attempt to read past total number of hits of " +:+ Bulk.print_lu (total c))
         c w
  else if currpos c =? u64 (nhits c) then
         match fetch_more c w with
         | SOK _ c' w' => take_hit want c' w'
         | SERR msg c' w' => SERR msg c' w'
         | SUNDEFINED c' w' => SUNDEFINED c' w'
         end
       else take_hit want c w.
Proof. reflexivity. Qed.

(** What a fetch that returns leaves of the cursor. *)
Lemma fetch_more_keeps c (w : world B) x c1 w1 :
  fetch_more c w = SOK x c1 w1 ->
  currpos c1 = 0 /\ cnt c1 = cnt c /\ total c1 = total c
  /\ usingId c1 = usingId c /\ hasHighlights c1 = hasHighlights c.
Proof.
  unfold fetch_more. destruct (rest_call_scroll _ w) as [response w0].
  destruct (rs_error response); [done|]. by intros [= <- <- <-].
Qed.

(** A call of next that returns hands out the hit at the position it read
    from: the position of the cursor, or the start of the page it
    fetched. *)
Lemma next_hands_out want c (w : world B) it c' w' :
  ElasticsearchGetNextItemPointer want c w = SOK it c' w' ->
  exists pg h,
    hits c' = Ref pg
    /\ hitEntry c' = Ref h
    /\ pg !! Z.to_nat (if currpos c =? u64 (nhits c) then 0 else currpos c) = Some h
    /\ it = handed_out want c h.
Proof.
  rewrite next_cases. destruct (total c <=? cnt c); [done|].
  destruct (currpos c =? u64 (nhits c)).
  - destruct (fetch_more c w) as [[] c1 w1|msg c1 w1|c1 w1] eqn:Hf; [|done|done].
    destruct (fetch_more_keeps _ _ _ _ _ Hf) as (Hpos & _ & _ & Hid & Hhl).
    intros Hk.
    destruct (take_hit_hands_out _ _ _ _ _ _ Hk)
      as (pg & h & _ & Hh & Hpg & He & -> & _).
    exists pg, h. rewrite Hpos in Hh. repeat split; try done.
    unfold handed_out. by rewrite Hid, Hhl.
  - intros Hk.
    destruct (take_hit_hands_out _ _ _ _ _ _ Hk)
      as (pg & h & _ & Hh & Hpg & He & -> & _).
    by exists pg, h.
Qed.

Lemma next_count_ok want c (w : world B) :
  count_ok c ->
  let c' := outcome_context (ElasticsearchGetNextItemPointer want c w) in
  count_ok c' /\ total c' = total c.
Proof.
  intros [Hc Ht]. cbv zeta. rewrite next_cases.
  destruct (Z.leb_spec (total c) (cnt c)); [done|].
  assert (Hstep : forall c1 (w1 : world B),
             cnt c1 = cnt c -> total c1 = total c ->
             count_ok (outcome_context (take_hit want c1 w1))
             /\ total (outcome_context (take_hit want c1 w1)) = total c).
  { intros c1 w1 Hc1 Ht1. pose proof (take_hit_counts want c1 w1) as Hk.
    destruct (take_hit want c1 w1) as [it c2 w2|msg c2 w2|c2 w2]; cbn.
    - destruct Hk as (Hk & Hk' & _). unfold count_ok.
      rewrite Hk, Hk', Hc1, Ht1, u64_small; lia.
    - subst c2. unfold count_ok. rewrite Hc1, Ht1. lia.
    - subst c2. unfold count_ok. rewrite Hc1, Ht1. lia. }
  destruct (currpos c =? u64 (nhits c)); [|by apply Hstep].
  pose proof (fetch_more_counts c w) as [Hf Hf'].
  destruct (fetch_more c w) as [[] c1 w1|msg c1 w1|c1 w1]; cbn in *.
  - by apply Hstep.
  - unfold count_ok. rewrite Hf, Hf'. lia.
  - unfold count_ok. rewrite Hf, Hf'. lia.
Qed.

Lemma next_past_total want c (w : world B) :
  cnt c = total c ->
  ElasticsearchGetNextItemPointer want c w
  = SERR ("Attempt to read past total number of hits of " +:+ Bulk.print_lu (total c))
         c w.
Proof. intros Hc. rewrite next_cases, Hc, Z.leb_refl. done. Qed.

Lemma next_advances want c (w : world B) it c' w' :
  count_ok c ->
  ElasticsearchGetNextItemPointer want c w = SOK it c' w' ->
  cnt c' = cnt c + 1
  /\ currpos c' = u64 ((if currpos c =? u64 (nhits c) then 0 else currpos c) + 1).
Proof.
  intros [Hc Ht]. rewrite next_cases.
  destruct (Z.leb_spec (total c) (cnt c)); [done|].
  destruct (currpos c =? u64 (nhits c)).
  - pose proof (fetch_more_counts c w) as [Hf Hf'].
    assert (Hpos : forall x c1 w1, fetch_more c w = SOK x c1 w1 -> currpos c1 = 0).
    { unfold fetch_more. destruct (rest_call_scroll _ w) as [response w0].
      destruct (rs_error response); [done|]. by intros x c1 w1 [= <- <- <-]. }
    destruct (fetch_more c w) as [[] c1 w1|msg c1 w1|c1 w1]; [|done|done]. cbn in *.
    specialize (Hpos tt c1 w1 eq_refl).
    intros Hk. pose proof (take_hit_counts want c1 w1) as Hk'. rewrite Hk in Hk'.
    destruct Hk' as (-> & _ & ->). rewrite Hf, Hpos, u64_small by lia. done.
  - intros Hk. pose proof (take_hit_counts want c w) as Hk'. rewrite Hk in Hk'.
    destruct Hk' as (-> & _ & ->). rewrite u64_small by lia. done.
Qed.

End AnyBackend.

(** ** The request of an open *)

Lemma open_scroll_size q use_id needSort needScore limit sortField direction hl extra :
  sq_size (open_scroll_request q use_id needSort needScore limit sortField
                               direction hl extra)
  = if limit =? 0 then MAX_DOCS_PER_REQUEST else limit.
Proof.
  unfold open_scroll_request. destruct sortField; [done|]. by destruct needSort.
Qed.

(** ** Cursors over the paging engine *)

Lemma page_of_cons h l : page_of (h :: l) = Some (h :: l).
Proof. reflexivity. Qed.

Lemma paged_open hs q use_id needSort needScore limit sortField direction hl extra :
  0 <= limit ->
  Z.of_nat (length hs) < 2 ^ 31 ->
  exists c0 w0,
    ElasticsearchOpenScroll q use_id needSort needScore limit sortField direction
                            hl extra (paged_world hs) = SOK tt c0 w0
    /\ cnt c0 = 0
    /\ sent w0 = [ReqSearch (open_scroll_request q use_id needSort needScore limit
                                                 sortField direction hl extra)]
    /\ usingId c0 = use_id
    /\ hasHighlights c0 = match hl with [] => false | _ => true end
    /\ paged_inv c0 w0 hs.
Proof.
  intros Hlimit Hsmall.
  unfold ElasticsearchOpenScroll, rest_call_search, paged_world.
  cbn [es_search paged_backend engine sent paged_search pg_all pg_serial app].
  set (rq := open_scroll_request _ _ _ _ _ _ _ _ _).
  set (n := Z.to_nat (sq_size rq)).
  assert (Hn : (0 < n)%nat).
  { subst n rq. rewrite open_scroll_size. unfold MAX_DOCS_PER_REQUEST.
    destruct (Z.eqb_spec limit 0); lia. }
  cbn [rs_error rs_total rs_scroll_id rs_hits].
  rewrite (u64_small (Z.of_nat (length hs))) by lia.
  eexists _, _. split; [reflexivity|]. split; [reflexivity|]. split; [reflexivity|].
  split; [reflexivity|]. split; [reflexivity|].
  assert (Htake : (length (take n hs) <= length hs)%nat)
    by (rewrite length_take; lia).
  assert (Hdrop : (length (drop n hs) <= length hs)%nat)
    by (rewrite length_drop; lia).
  destruct hs as [|h hs].
  - split; cbn; try done; try lia. by rewrite drop_nil.
  - replace (0 <? Z.of_nat (length (h :: hs))) with true
      by (symmetry; apply Z.ltb_lt; rewrite length_cons; lia).
    destruct n as [|n]; [lia|].
    cbn [take page_of array_length] in *.
    unfold page. cbn -[Z.of_nat int32 Z.pow].
    rewrite int32_small by (cbn [length] in *; lia).
    cbn [length] in *.
    split; cbn -[Z.of_nat int32 Z.pow]; try done; try lia.
    + rewrite length_drop. lia.
    + change (Z.to_nat 0) with 0%nat. cbn [drop app]. by rewrite take_drop.
Qed.

Lemma paged_scroll_next b k h rest :
  pg_size b = S k ->
  pg_pending b = h :: rest ->
  paged_scroll (token (pg_serial b)) b
  = (mkResponse None (token (S (pg_serial b))) (Z.of_nat (length (pg_all b)))
                (Some (h :: take k rest)),
     mkPaged (pg_all b) (drop k rest) (S k) (S (pg_serial b))).
Proof.
  intros Hk Hp. unfold paged_scroll.
  rewrite bool_decide_eq_true_2 by done. by rewrite Hk, Hp.
Qed.

Lemma paged_next want c w h rest :
  paged_inv c w (h :: rest) ->
  exists c' w',
    ElasticsearchGetNextItemPointer want c w = SOK (handed_out want c h) c' w'
    /\ cnt c' = cnt c + 1
    /\ usingId c' = usingId c
    /\ hasHighlights c' = hasHighlights c
    /\ paged_inv c' w' rest.
Proof.
  intros Hinv.
  enough (Hgoal : exists it c' w',
             ElasticsearchGetNextItemPointer want c w = SOK it c' w'
             /\ hitEntry c' = Ref h
             /\ cnt c' = cnt c + 1
             /\ usingId c' = usingId c
             /\ hasHighlights c' = hasHighlights c
             /\ paged_inv c' w' rest).
  { destruct Hgoal as (it & c' & w' & Hn & Hh & Hrest).
    destruct (next_hands_out _ _ _ _ _ _ Hn) as (pg & h' & _ & Hh' & _ & ->).
    rewrite Hh in Hh'. injection Hh' as <-. by exists c', w'. }
  revert Hinv.
  intros [Htot Hsmall [Hc0 Hcnt] Hpos Hnh Hpage Hpend Hrest Htok Hsize].
  rewrite length_cons in Hcnt.
  rewrite next_cases.
  destruct (Z.leb_spec (total c) (cnt c)); [lia|].
  rewrite (u64_small (nhits c)) by lia.
  destruct (Z.eqb_spec (currpos c) (nhits c)) as [Heq|Hne].
  - (* the page is exhausted: fetch the next one *)
    rewrite Heq, Hnh, Nat2Z.id, drop_all in Hrest. cbn [app] in Hrest.
    unfold fetch_more, rest_call_scroll.
    cbn [es_scroll paged_backend].
    destruct (pg_size (engine w)) as [|k] eqn:Hk; [lia|].
    rewrite Htok, (paged_scroll_next _ k h rest Hk (eq_sym Hrest)).
    cbn [rs_error rs_scroll_id rs_hits].
    unfold take_hit.
    cbn [hits currpos Z.to_nat lookup list_lookup usingId].
    eexists _, _, _. split; [reflexivity|].
    assert (Hk' : (length (take k rest) <= length (pg_pending (engine w)))%nat).
    { rewrite <- Hrest, length_take, length_cons. lia. }
    assert (Hd' : (length (drop k rest) <= length (pg_pending (engine w)))%nat).
    { rewrite <- Hrest, length_drop, length_cons. lia. }
    split; [reflexivity|]. split.
    { cbn [cnt]. apply u64_small. lia. }
    split; [reflexivity|]. split; [reflexivity|].
    assert (Hpg : Z.of_nat (S (length (take k rest))) < 2 ^ 31).
    { rewrite length_take. rewrite <- Hrest, length_cons in Hpend. lia. }
    split; unfold page; cbn -[Z.of_nat int32 Z.pow u64 token].
    + done.
    + done.
    + rewrite u64_small by lia. lia.
    + rewrite int32_small by lia. change (u64 (0 + 1)) with 1. lia.
    + apply int32_small. lia.
    + done.
    + lia.
    + change (Z.to_nat (u64 (0 + 1))) with 1%nat.
      change (drop 1 (h :: take k rest)) with (take k rest).
      by rewrite take_drop.
    + done.
    + lia.
  - (* within the page *)
    unfold page in *. unfold take_hit.
    destruct (hits c) as [|pg|] eqn:Hhits;
      [cbn [length] in Hnh; lia| |cbn [length] in Hnh; lia].
    assert (Hlt : (Z.to_nat (currpos c) < length pg)%nat) by lia.
    destruct (lookup_lt_is_Some_2 _ _ Hlt) as [x Hx].
    rewrite (drop_S _ _ _ Hx) in Hrest. injection Hrest as <- Hrest'.
    rewrite Hx.
    eexists _, _, _. split; [reflexivity|].
    split; [reflexivity|]. split.
    { cbn [cnt]. apply u64_small. lia. }
    split; [reflexivity|]. split; [reflexivity|].
    split; unfold page; cbn -[Z.of_nat int32 Z.pow u64 token]; try done.
    + rewrite u64_small by lia. lia.
    + rewrite u64_small by lia. lia.
    + rewrite u64_small by lia.
      replace (Z.to_nat (currpos c + 1)) with (S (Z.to_nat (currpos c))) by lia.
      done.
Qed.

Lemma handed_out_ext want c c' h :
  usingId c' = usingId c ->
  hasHighlights c' = hasHighlights c ->
  handed_out want c' h = handed_out want c h.
Proof. intros Hid Hhl. unfold handed_out. by rewrite Hid, Hhl. Qed.

Lemma paged_read_all want rest : forall c w,
  paged_inv c w rest ->
  exists c' w',
    read_hits want (length rest) c w = Some (map (handed_out want c) rest, c', w')
    /\ cnt c' = cnt c + Z.of_nat (length rest)
    /\ paged_inv c' w' [].
Proof.
  induction rest as [|h rest IH]; intros c w Hinv.
  - exists c, w. cbn [length read_hits]. split; [done|]. split; [lia|done].
  - destruct (paged_next want c w h rest Hinv)
      as (c1 & w1 & Hn & Hc & Hid & Hhl & Hinv1).
    destruct (IH c1 w1 Hinv1) as (c' & w' & Hr & Hc' & Hinv').
    exists c', w'. cbn [length read_hits map]. rewrite Hn, Hr.
    split.
    + do 4 f_equal. apply List.map_ext. intros h'. by apply handed_out_ext.
    + split; [|done]. rewrite Hc', Hc. lia.
Qed.

(** ** Main theorems on scroll cursors *)

(** C2.  For any search engine: the cursor that an open leaves has consumed
    nothing and its count is within the total; a call of next leaves the
    total as it is and keeps the count within it, whether it returns or
    raises; called when the count equals the total it raises "Attempt to
    read past total number of hits of" and the total, with the cursor and
    the world untouched (nothing is fetched, no hit is returned); and a
    call that returns has advanced the count by one and the position by one
    (from zero when it fetched a page), and what it hands out through the
    out parameters is the hit of the page at the position it read from.
    Over the paging engine, for any list of fewer than [2^31] hits, any
    limit and any choice of out parameters: the open succeeds with the
    number of hits as total, that many calls of next hand out the hits one
    by one in order, each once, and one more call raises. *)
Theorem cursor_reads_each_hit_once :
  (forall B (HB : Backend B) q use_id needSort needScore limit sortField direction
          hl extra (w : world B),
      let o := ElasticsearchOpenScroll q use_id needSort needScore limit sortField
                                       direction hl extra w in
      cnt (outcome_context o) = 0 /\ count_ok (outcome_context o))
  /\ (forall B (HB : Backend B) want c (w : world B),
         count_ok c ->
         let c' := outcome_context (ElasticsearchGetNextItemPointer want c w) in
         count_ok c' /\ total c' = total c)
  /\ (forall B (HB : Backend B) want c (w : world B),
         cnt c = total c ->
         ElasticsearchGetNextItemPointer want c w
         = SERR ("Attempt to read past total number of hits of "
                 +:+ Bulk.print_lu (total c)) c w)
  /\ (forall B (HB : Backend B) want c (w : world B) it c' w',
         count_ok c ->
         ElasticsearchGetNextItemPointer want c w = SOK it c' w' ->
         let from := if currpos c =? u64 (nhits c) then 0 else currpos c in
         cnt c' = cnt c + 1
         /\ currpos c' = u64 (from + 1)
         /\ exists pg h,
             hits c' = Ref pg
             /\ pg !! Z.to_nat from = Some h
             /\ it = handed_out want c h)
  /\ (forall hs q use_id needSort needScore limit sortField direction hl extra want,
         0 <= limit ->
         Z.of_nat (length hs) < 2 ^ 31 ->
         exists c0 w0 c1 w1,
           ElasticsearchOpenScroll q use_id needSort needScore limit sortField
                                   direction hl extra (paged_world hs)
           = SOK tt c0 w0
           /\ total c0 = Z.of_nat (length hs)
           /\ usingId c0 = use_id
           /\ hasHighlights c0 = match hl with [] => false | _ => true end
           /\ read_hits want (length hs) c0 w0
              = Some (map (handed_out want c0) hs, c1, w1)
           /\ cnt c1 = total c1
           /\ ElasticsearchGetNextItemPointer want c1 w1
              = SERR ("Attempt to read past total number of hits of "
                      +:+ Bulk.print_lu (Z.of_nat (length hs))) c1 w1).
Proof.
  split; [|split; [|split; [|split]]].
  - intros. subst o. split; apply open_count_ok.
  - intros. by apply next_count_ok.
  - intros. by apply next_past_total.
  - intros B HB want c w it c' w' Hok Hn from. subst from.
    destruct (next_advances _ _ _ _ _ _ Hok Hn) as [Hc Hp].
    destruct (next_hands_out _ _ _ _ _ _ Hn) as (pg & h & Hpg & _ & Hh & Hit).
    split; [done|]. split; [done|]. by exists pg, h.
  - intros hs q use_id needSort needScore limit sortField direction hl extra want
           Hl Hs.
    destruct (paged_open hs q use_id needSort needScore limit sortField direction
                         hl extra Hl Hs)
      as (c0 & w0 & Hopen & Hcnt & _ & Hid & Hhl & Hinv).
    destruct (paged_read_all want hs c0 w0 Hinv)
      as (c1 & w1 & Hread & Hcnt1 & Hinv1).
    exists c0, w0, c1, w1. split; [done|].
    assert (Hend : cnt c1 = total c1).
    { destruct (pi_cnt _ _ _ Hinv1) as [_ H1]. cbn [length] in H1. lia. }
    assert (Htot : total c0 = Z.of_nat (length hs)).
    { pose proof (pi_cnt _ _ _ Hinv) as [_ H0]. rewrite Hcnt in H0. lia. }
    assert (Htot1 : total c1 = Z.of_nat (length hs)) by lia.
    do 5 (split; [done|]).
    by rewrite (next_past_total want c1 w1 Hend), Htot1.
Qed.

Lemma cursor_reads_each_hit_once_witness :
  exists c0 w0 c1 w1,
    ElasticsearchOpenScroll "{}" false false false 10 None SORTBY_DEFAULT [] []
                            (paged_world scenario_hits)
    = SOK tt c0 w0
    /\ total c0 = Z.of_nat (length scenario_hits)
    /\ usingId c0 = false
    /\ hasHighlights c0 = false
    /\ read_hits every_out (length scenario_hits) c0 w0
       = Some (map (handed_out every_out c0) scenario_hits, c1, w1)
    /\ cnt c1 = total c1
    /\ ElasticsearchGetNextItemPointer every_out c1 w1
       = SERR "Attempt to read past total number of hits of 25" c1 w1.
Proof.
  destruct cursor_reads_each_hit_once as (_ & _ & _ & _ & Hpaged).
  apply (Hpaged scenario_hits "{}" false false false 10 None SORTBY_DEFAULT [] []
                every_out).
  - lia.
  - vm_compute. reflexivity.
Defined.



(** C5 fails above the cap: the open asks for [limit] hits per page
    whenever the limit is not zero, also when the limit is larger than
    [MAX_DOCS_PER_REQUEST]; only up to the cap is that the minimum of the
    two, and a limit of zero asks for the cap. *)
Theorem page_size_is_not_capped q use_id needSort needScore limit sortField
    direction hl extra :
  let size := sq_size (open_scroll_request q use_id needSort needScore limit
                                           sortField direction hl extra) in
  (limit = 0 -> size = MAX_DOCS_PER_REQUEST)
  /\ (0 < limit <= MAX_DOCS_PER_REQUEST -> size = Z.min limit MAX_DOCS_PER_REQUEST)
  /\ (MAX_DOCS_PER_REQUEST < limit ->
      size = limit /\ size <> Z.min limit MAX_DOCS_PER_REQUEST).
Proof.
  intros size. subst size. rewrite open_scroll_size. unfold MAX_DOCS_PER_REQUEST.
  destruct (Z.eqb_spec limit 0); lia.
Qed.

Lemma page_size_is_not_capped_witness :
  sq_size (open_scroll_request "{}" false false false 10001 None SORTBY_DEFAULT [] [])
  = 10001
  /\ Z.min 10001 MAX_DOCS_PER_REQUEST = 10000.
Proof.
  destruct (page_size_is_not_capped "{}" false false false 10001 None
                                    SORTBY_DEFAULT [] []) as (_ & _ & Hbig).
  split; [|reflexivity].
  apply Hbig. vm_compute. reflexivity.
Defined.

(** C6, as the code has it.  An explicit sort field is used as given;
    without one, a needed sort is by [_score] when scores are wanted or a
    limit was passed, and by [zdb_ctid] otherwise.  The direction is the
    caller's: ascending for [SORTBY_ASC], descending for [SORTBY_DESC] and
    [SORTBY_USING]; only [SORTBY_DEFAULT] takes a default, which is
    descending for the default [_score] sort and ascending in every other
    case. *)
Theorem sort_policy q use_id needSort needScore limit sortField direction hl extra :
  let rq := open_scroll_request q use_id needSort needScore limit sortField
                                direction hl extra in
  let ranked := needScore || (0 <? limit) in
  let order (default : string) :=
    match direction with
    | SORTBY_DEFAULT => default
    | SORTBY_ASC => "asc"
    | SORTBY_DESC | SORTBY_USING => "desc"
    end in
  sq_track_scores rq = ranked
  /\ (forall f, sortField = Some f -> sq_sort rq = SortBy f (order "asc"))
  /\ (sortField = None -> needSort = true -> ranked = true ->
      sq_sort rq = SortBy "_score" (order "desc"))
  /\ (sortField = None -> needSort = true -> ranked = false ->
      sq_sort rq = SortBy "zdb_ctid" (order "asc")).
Proof.
  intros rq ranked order. subst rq ranked order. unfold open_scroll_request.
  split; [|split; [|split]].
  - destruct sortField; [done|]. by destruct needSort.
  - intros f ->. by destruct direction.
  - intros -> -> ->. by destruct direction.
  - intros -> -> ->. by destruct direction.
Qed.

Lemma sort_policy_witness :
  sq_sort (open_scroll_request "{}" false true false 5 None SORTBY_DEFAULT [] [])
  = SortBy "_score" "desc"
  /\ sq_sort (open_scroll_request "{}" false true false 0 None SORTBY_DEFAULT [] [])
     = SortBy "zdb_ctid" "asc"
  /\ sq_sort (open_scroll_request "{}" false false false 0 (Some "title")
                                  SORTBY_DESC [] [])
     = SortBy "title" "desc".
Proof.
  split; [|split].
  - apply (sort_policy "{}" false true false 5 None SORTBY_DEFAULT [] []);
      reflexivity.
  - apply (sort_policy "{}" false true false 0 None SORTBY_DEFAULT [] []);
      reflexivity.
  - apply (sort_policy "{}" false false false 0 (Some "title") SORTBY_DESC [] []).
    reflexivity.
Defined.

(** C6 as stated: with no sort field, a needed sort and scores wanted, the
    sort would be by score descending whatever else is passed.  With the
    direction [SORTBY_ASC] it is by score ascending. *)
Lemma explicit_direction_overrides_default_order :
  sq_sort (open_scroll_request "{}" false true true 0 None SORTBY_ASC [] [])
  = SortBy "_score" "asc".
Proof. reflexivity. Qed.

End ScrollProofs.

(* ================================================================== *)
(** * Facts about the ledger *)
(* ================================================================== *)

Module LedgerProofs.
Import Ledger.

Lemma string_app_cons x (a b : string) : String x a +:+ b = String x (a +:+ b).
Proof. reflexivity. Qed.

Lemma string_app_assoc (a b c : string) : (a +:+ b) +:+ c = a +:+ (b +:+ c).
Proof.
  induction a as [|x a IH]; [done|]. rewrite !string_app_cons. by rewrite IH.
Qed.

Lemma string_app_nil_r (a : string) : a +:+ EmptyString = a.
Proof.
  induction a as [|x a IH]; [done|]. rewrite string_app_cons. by rewrite IH.
Qed.

Lemma len_pos_app a b : 0 < len a -> 0 < len (a +:+ b).
Proof. rewrite BulkProofs.len_append. unfold len. lia. Qed.

(** [%lu] prints at least one digit. *)
Lemma pretty_N_go_nonempty (x : N) (s : string) :
  s <> EmptyString -> pretty_N_go x s <> EmptyString.
Proof.
  revert s. induction (N.lt_wf_0 x) as [x _ IH]. intros s Hs.
  destruct (decide (x = 0%N)) as [->|Hx].
  - by rewrite pretty_N_go_0.
  - rewrite pretty_N_go_step by lia. apply IH; [|done].
    apply N.div_lt; lia.
Qed.

Lemma print_lu_nonempty xid : 0 < len (print_lu xid).
Proof.
  assert (H : print_lu xid <> EmptyString).
  { unfold print_lu. pose proof (u64_range xid) as Hr.
    destruct (u64 xid) as [|p|p] eqn:Hu; [done| |lia].
    change (pretty (Z.pos p)) with (pretty (N.pos p)).
    unfold pretty, pretty_N. destruct (decide (N.pos p = 0%N)); [done|].
    rewrite pretty_N_go_step by lia. by apply pretty_N_go_nonempty. }
  unfold len. destruct (print_lu xid); [done|]. cbn [String.length]. lia.
Qed.

(** The loop, started on a non-empty [xidsArray], puts a comma before each
    further id. *)
Lemma xids_loop_from acc xids :
  0 < len acc ->
  foldl (fun xidsArray xid =>
           (if 0 <? len xidsArray then xidsArray +:+ "," else xidsArray)
           +:+ print_lu xid) acc xids
  = acc +:+ String.concat EmptyString (map (fun x => "," +:+ print_lu x) xids).
Proof.
  revert acc. induction xids as [|x xids IH]; intros acc Hacc.
  - cbn. by rewrite string_app_nil_r.
  - cbn [foldl map]. rewrite (proj2 (Z.ltb_lt 0 (len acc)) Hacc).
    rewrite IH by (by do 2 apply len_pos_app).
    rewrite !string_app_assoc. do 2 f_equal.
    destruct xids; cbn; [by rewrite string_app_nil_r|done].
Qed.

Lemma concat_comma x (l : list string) :
  String.concat "," (x :: l)
  = x +:+ String.concat EmptyString (map (fun y => "," +:+ y) l).
Proof.
  revert x. induction l as [|y l IH]; intros x.
  - cbn. by rewrite string_app_nil_r.
  - change (String.concat "," (x :: y :: l))
      with (x +:+ "," +:+ String.concat "," (y :: l)).
    rewrite IH. f_equal. cbn [map].
    destruct l; cbn; [by rewrite string_app_nil_r|done].
Qed.

(** The array that the loop builds is the comma-separated list of the ids,
    printed in decimal, in the order given. *)
Lemma xids_array_is_join xids :
  xids_array xids = String.concat "," (map print_lu xids).
Proof.
  destruct xids as [|x xids]; [done|].
  unfold xids_array. cbn [foldl map]. change (0 <? len EmptyString) with false.
  cbn [String.append]. rewrite xids_loop_from by apply print_lu_nonempty.
  rewrite concat_comma. f_equal. by rewrite map_map.
Qed.

(** C9.  For a non-empty list of ids the function sends exactly one
    request: an update of the document [zdb_aborted_xids] whose script is
    [removeAll] over exactly the given ids (comma-separated, in decimal, in
    order), with [refresh=true] whatever the index's refresh interval is.
    For the empty list it sends nothing. *)
Theorem remove_aborted_sends_one_refreshing_update refresh_interval xids sent :
  (xids <> [] ->
   ElasticsearchRemoveAbortedTransactions refresh_interval xids sent
   = sent ++ [mkUpdate "zdb_aborted_xids" 128 true
                       (RemoveAllXids (String.concat "," (map print_lu xids)))])
  /\ (xids = [] ->
      ElasticsearchRemoveAbortedTransactions refresh_interval xids sent = sent).
Proof.
  unfold ElasticsearchRemoveAbortedTransactions. split.
  - intros Hne. destruct xids as [|x xids]; [done|].
    cbn [length Nat.ltb Nat.leb]. by rewrite xids_array_is_join.
  - by intros ->.
Qed.

Lemma remove_aborted_sends_one_refreshing_update_witness :
  ElasticsearchRemoveAbortedTransactions "1s" [5; 7; 0; 18446744073709551615] []
  = [mkUpdate "zdb_aborted_xids" 128 true
              (RemoveAllXids "5,7,0,18446744073709551615")]
  /\ ElasticsearchRemoveAbortedTransactions "1s" [] [] = [].
Proof.
  destruct (remove_aborted_sends_one_refreshing_update
              "1s" [5; 7; 0; 18446744073709551615] []) as [Hsome _].
  destruct (remove_aborted_sends_one_refreshing_update "1s" [] []) as [_ Hnone].
  split.
  - rewrite Hsome by discriminate. vm_compute. reflexivity.
  - apply Hnone. reflexivity.
Defined.

End LedgerProofs.

(* ================================================================== *)
(** * Facts about the scoring registry *)
(* ================================================================== *)

Module ScoringProofs.
Import Scoring ScoringSpec.

Section RegistryFacts.

Context {callback_arg : Type}.

Lemma add_entry_scores_fold ctid score (e : ZDBScoringSupportData callback_arg) :
  add_entry_scores ctid score e
  = foldl float4_add score
          (map (fun ca => fst ca ctid (snd ca)) (zip (callbacks e) (callback_data e))).
Proof.
  unfold add_entry_scores. generalize (zip (callbacks e) (callback_data e)).
  intros l. revert score. induction l as [|ca l IH]; intros score; cbn; auto.
Qed.

Lemma lookup_from_cons oid ctid score (e : ZDBScoringSupportData callback_arg)
    entries :
  lookup_from oid ctid score (e :: entries)
  = lookup_from oid ctid
      (if oid =? heapOid e then add_entry_scores ctid score e else score) entries.
Proof. reflexivity. Qed.

Lemma matching_values_cons oid ctid (e : ZDBScoringSupportData callback_arg)
    entries :
  matching_values oid ctid (e :: entries)
  = (if oid =? heapOid e
     then map (fun ca => fst ca ctid (snd ca)) (zip (callbacks e) (callback_data e))
     else []) ++ matching_values oid ctid entries.
Proof. reflexivity. Qed.

Lemma lookup_from_values oid ctid score
    (entries : list (ZDBScoringSupportData callback_arg)) :
  lookup_from oid ctid score entries
  = foldl float4_add score (matching_values oid ctid entries).
Proof.
  revert score. induction entries as [|e entries IH]; intros score; [done|].
  rewrite lookup_from_cons, matching_values_cons, foldl_app, IH.
  destruct (oid =? heapOid e); [|done].
  by rewrite add_entry_scores_fold.
Qed.

Lemma lookup_from_absent oid ctid score
    (entries : list (ZDBScoringSupportData callback_arg)) :
  oid ∉ map heapOid entries -> lookup_from oid ctid score entries = score.
Proof.
  induction entries as [|e entries IH]; intros Hin; [done|].
  rewrite lookup_from_cons.
  apply not_elem_of_cons in Hin as [Hne Hin].
  destruct (Z.eqb_spec oid (heapOid e)); [done|]. auto.
Qed.

Lemma register_oids oid cb d (entries : list (ZDBScoringSupportData callback_arg)) :
  map heapOid (scoring_register_callback oid cb d entries)
  = if bool_decide (oid ∈ map heapOid entries) then map heapOid entries
    else map heapOid entries ++ [oid].
Proof.
  induction entries as [|e entries IH]; [done|].
  cbn [scoring_register_callback map].
  destruct (Z.eqb_spec oid (heapOid e)) as [->|Hne].
  - rewrite bool_decide_eq_true_2 by apply list_elem_of_here. done.
  - cbn [map]. rewrite IH.
    destruct (bool_decide (oid ∈ map heapOid entries)) eqn:Hin.
    + apply bool_decide_eq_true in Hin.
      rewrite bool_decide_eq_true_2 by (by apply list_elem_of_further). done.
    + apply bool_decide_eq_false in Hin.
      rewrite bool_decide_eq_false_2; [done|].
      by intros [?|?]%elem_of_cons.
Qed.

Lemma register_ok oid cb d (entries : list (ZDBScoringSupportData callback_arg)) :
  registry_ok entries -> registry_ok (scoring_register_callback oid cb d entries).
Proof.
  intros [Hnd Hlen]. split.
  - rewrite register_oids. case_bool_decide as Hin; [done|].
    apply NoDup_app. split; [done|]. split; [|apply NoDup_singleton].
    intros x Hx ->%list_elem_of_singleton. done.
  - clear Hnd. induction Hlen as [|e entries He Hes IH]; cbn.
    + constructor; [done|constructor].
    + destruct (oid =? heapOid e); constructor; auto.
      cbn. rewrite !length_app, He. done.
Qed.

Lemma register_lookup_other oid oid' cb d ctid score (entries : list (ZDBScoringSupportData callback_arg)) :
  oid <> oid' ->
  lookup_from oid ctid score (scoring_register_callback oid' cb d entries)
  = lookup_from oid ctid score entries.
Proof.
  intros Hne. revert score. induction entries as [|e entries IH]; intros score.
  - cbn. by destruct (Z.eqb_spec oid oid').
  - cbn [scoring_register_callback].
    destruct (Z.eqb_spec oid' (heapOid e)) as [He|He].
    + rewrite !lookup_from_cons. cbn [heapOid]. rewrite <- He.
      by destruct (Z.eqb_spec oid oid').
    + rewrite !lookup_from_cons. apply IH.
Qed.

Lemma register_lookup_same oid cb d ctid score (entries : list (ZDBScoringSupportData callback_arg)) :
  registry_ok entries ->
  lookup_from oid ctid score (scoring_register_callback oid cb d entries)
  = float4_add (lookup_from oid ctid score entries) (cb ctid d).
Proof.
  intros [Hnd Hlen]. revert score.
  induction entries as [|e entries IH]; intros score.
  - cbn. by rewrite Z.eqb_refl.
  - apply NoDup_cons in Hnd as [Hfresh Hnd].
    apply Forall_cons in Hlen as [He Hlen].
    cbn [scoring_register_callback].
    destruct (Z.eqb_spec oid (heapOid e)) as [Heq|Hne].
    + rewrite !lookup_from_cons. cbn [heapOid]. rewrite <- Heq, Z.eqb_refl.
      rewrite !lookup_from_absent by (by rewrite Heq).
      unfold add_entry_scores. cbn [callbacks callback_data].
      rewrite zip_with_app by done. cbn [zip_with]. by rewrite foldl_snoc.
    + rewrite !lookup_from_cons.
      destruct (Z.eqb_spec oid (heapOid e)); [done|]. by apply IH.
Qed.

Lemma register_all_snoc (rs : list (registration callback_arg)) r :
  register_all (rs ++ [r])
  = scoring_register_callback (reg_oid r) (reg_callback r) (reg_data r)
                              (register_all rs).
Proof. unfold register_all. by rewrite foldl_snoc. Qed.

Lemma register_all_ok (rs : list (registration callback_arg)) :
  registry_ok (register_all rs).
Proof.
  induction rs as [|r rs IH] using rev_ind.
  - split; constructor.
  - rewrite register_all_snoc. by apply register_ok.
Qed.

Lemma lookup_register_all oid ctid (rs : list (registration callback_arg)) :
  scoring_lookup_score oid ctid (register_all rs) = sum_of_registered oid ctid rs.
Proof.
  change (scoring_lookup_score oid ctid (register_all rs))
    with (lookup_from oid ctid float4_zero (register_all rs)).
  induction rs as [|r rs IH] using rev_ind; [done|].
  rewrite register_all_snoc. unfold sum_of_registered.
  rewrite List.filter_app, foldl_app. fold (sum_of_registered oid ctid rs).
  cbn [List.filter]. destruct (Z.eqb_spec oid (reg_oid r)) as [<-|Hne].
  - rewrite register_lookup_same by apply register_all_ok. by rewrite IH.
  - rewrite register_lookup_other by done. by rewrite IH.
Qed.

End RegistryFacts.

(** C10.  Whatever is in the registry, the lookup adds up, from [0.0] and
    in order, the values of the callbacks of every entry of the relation,
    and [zdb_score] on a [ctid] column reference is that lookup for the
    relation of the range-table entry.  After any sequence of
    registrations from an empty registry the result is the sum, in the
    order of registration, of the values of the callbacks registered for
    the relation; it is [0.0] when none was registered for it. *)
Theorem score_is_sum_of_registered_callbacks :
  forall (callback_arg : Type) (oid : Z) (ctid : ItemPointerData),
    (forall entries : list (ZDBScoringSupportData callback_arg),
        scoring_lookup_score oid ctid entries
        = foldl float4_add float4_zero (matching_values oid ctid entries))
    /\ (forall (entries : list (ZDBScoringSupportData callback_arg)) varno rt_relid,
           rt_relid varno = oid ->
           zdb_score ctid (Var varno) rt_relid entries
           = inr (scoring_lookup_score oid ctid entries))
    /\ (forall rs : list (registration callback_arg),
           scoring_lookup_score oid ctid (register_all rs)
           = foldl float4_add float4_zero
                   (map (fun r => reg_callback r ctid (reg_data r))
                        (List.filter (fun r => oid =? reg_oid r) rs)))
    /\ (forall rs : list (registration callback_arg),
           (forall r, r ∈ rs -> reg_oid r <> oid) ->
           scoring_lookup_score oid ctid (register_all rs) = float4_zero).
Proof.
  intros callback_arg oid ctid.
  assert (Hsum : forall rs : list (registration callback_arg),
             sum_of_registered oid ctid rs
             = foldl float4_add float4_zero
                     (map (fun r => reg_callback r ctid (reg_data r))
                          (List.filter (fun r => oid =? reg_oid r) rs))).
  { intros rs. unfold sum_of_registered.
    generalize (List.filter (fun r => oid =? reg_oid r) rs). intros l.
    generalize float4_zero.
    induction l as [|r l IH]; intros z; cbn; auto. }
  split; [|split; [|split]].
  - intros entries. apply (lookup_from_values oid ctid float4_zero).
  - intros entries varno rt_relid <-. reflexivity.
  - intros rs. by rewrite lookup_register_all, Hsum.
  - intros rs Hnone. rewrite lookup_register_all, Hsum.
    replace (List.filter (fun r => oid =? reg_oid r) rs) with (@nil (registration callback_arg));
      [done|].
    symmetry. induction rs as [|r rs IH]; [done|]. cbn [List.filter].
    destruct (Z.eqb_spec oid (reg_oid r)) as [Heq|_].
    + destruct (Hnone r); [apply list_elem_of_here|done].
    + apply IH. intros r' Hr'. apply Hnone. by apply list_elem_of_further.
Qed.

Lemma score_is_sum_of_registered_callbacks_witness :
  zdb_score (mkItemPointer 0 1) (Var 1) (fun _ => 16384)
            (register_all sample_registrations)
  = inr (float4_add (float4_add (float4_add float4_zero one) one) half)
  /\ scoring_lookup_score 16386 (mkItemPointer 0 1)
                          (register_all sample_registrations)
     = float4_zero.
Proof.
  destruct (score_is_sum_of_registered_callbacks float4 16384 (mkItemPointer 0 1))
    as (_ & Hscore & Hsum & _).
  destruct (score_is_sum_of_registered_callbacks float4 16386 (mkItemPointer 0 1))
    as (_ & _ & _ & Hzero).
  split.
  - rewrite (Hscore _ 1%nat (fun _ => 16384) eq_refl), Hsum. vm_compute. reflexivity.
  - apply Hzero. intros r Hr.
    repeat (apply elem_of_cons in Hr as [->|Hr]; [discriminate|]).
    by apply elem_of_nil in Hr.
Defined.

End ScoringProofs.

(* ================================================================== *)
(** * Facts about index management and aggregates *)
(* ================================================================== *)

Module AdminProofs.
Import Admin AdminSpec.

Section CallFacts.

Context {ZDBQueryType : Type}.
Variable convert_to_query_dsl : Relation -> ZDBQueryType -> string.
Variable cluster : list rest_request -> rest_request -> string + string.

Lemma rest_call_cases method url postData level sent :
  rest_call cluster method url postData level sent
  = match cluster sent (mkCall method url postData level) with
    | inr response => Returned response (sent ++ [mkCall method url postData level])
    | inl msg => Raised msg (sent ++ [mkCall method url postData level])
    end.
Proof. reflexivity. Qed.

Lemma rest_call_requests method url postData level sent :
  requests_of (rest_call cluster method url postData level sent)
  = sent ++ [mkCall method url postData level].
Proof. rewrite rest_call_cases. by destruct (cluster _ _). Qed.

Lemma validate_alias_none indexRel sent :
  ZDBIndexOptionsGetAlias indexRel = None ->
  validate_alias indexRel sent
  = Raised ("index '" +:+ RelationGetRelationName indexRel
            +:+ "' doesn't have an alias") sent.
Proof. unfold validate_alias. by intros ->. Qed.

Lemma validate_alias_some indexRel alias sent :
  ZDBIndexOptionsGetAlias indexRel = Some alias ->
  validate_alias indexRel sent = Returned tt sent.
Proof. unfold validate_alias. by intros ->. Qed.

(** ** Main theorems on aggregates *)

(** X12.  An aggregate or a count on an index without alias raises "index
    '...' doesn't have an alias" before anything is sent; on an index with
    an alias it sends exactly one request, a [POST] to the alias (not to
    the index name). *)
Theorem aggregates_need_an_alias response_count indexRel query agg arbitrary q sent :
  (ZDBIndexOptionsGetAlias indexRel = None ->
   let msg := "index '" +:+ RelationGetRelationName indexRel
              +:+ "' doesn't have an alias" in
   makeAggRequest convert_to_query_dsl cluster indexRel query agg arbitrary sent
   = Raised msg sent
   /\ ElasticsearchCount convert_to_query_dsl cluster response_count indexRel q sent
      = Raised msg sent)
  /\ (forall alias, ZDBIndexOptionsGetAlias indexRel = Some alias ->
      (exists body,
          requests_of (makeAggRequest convert_to_query_dsl cluster indexRel query agg
                                      arbitrary sent)
          = sent ++ [mkCall "POST"
                            (ZDBIndexOptionsGetUrl indexRel +:+ alias
                             +:+ "/_search?size=0")
                            (Some body) (ZDBIndexOptionsGetCompressionLevel indexRel)])
      /\ (exists body,
             requests_of (ElasticsearchCount convert_to_query_dsl cluster
                                             response_count indexRel q sent)
             = sent ++ [mkCall "POST"
                               (ZDBIndexOptionsGetUrl indexRel +:+ alias
                                +:+ "/_count?filter_path=count")
                               (Some body)
                               (ZDBIndexOptionsGetCompressionLevel indexRel)])).
Proof.
  split.
  - intros Hna. cbv zeta. unfold makeAggRequest, ElasticsearchCount, rest_bind.
    by rewrite (validate_alias_none _ _ Hna).
  - intros alias Ha. unfold makeAggRequest, ElasticsearchCount, rest_bind.
    rewrite (validate_alias_some _ _ _ Ha), Ha. cbn [percent_s default].
    split; eexists.
    + apply rest_call_requests.
    + rewrite rest_call_cases. destruct (cluster _ _); reflexivity.
Qed.

(** X13.  In a terms aggregate a size of 0 stands for [INT32_MAX], and an
    order that is none of [count], [term], [reverse_count] and
    [reverse_term] is ignored: the request is the one sent for no order at
    all. *)
Theorem terms_size_and_order_defaults indexRel field query order size sent :
  ElasticsearchTerms convert_to_query_dsl cluster indexRel field query order 0 sent
  = ElasticsearchTerms convert_to_query_dsl cluster indexRel field query order
                       (2 ^ 31 - 1) sent
  /\ (order ∉ ["count"; "term"; "reverse_count"; "reverse_term"] ->
      makeTermsOrderClause order = EmptyString
      /\ ElasticsearchTerms convert_to_query_dsl cluster indexRel field query order size
                            sent
         = ElasticsearchTerms convert_to_query_dsl cluster indexRel field query
                              EmptyString size sent
      /\ terms_agg_only_keys convert_to_query_dsl cluster indexRel field query order
                             size sent
         = terms_agg_only_keys convert_to_query_dsl cluster indexRel field query
                               EmptyString size sent).
Proof.
  split; [reflexivity|].
  intros Hin.
  assert (Hc : makeTermsOrderClause order = EmptyString).
  { unfold makeTermsOrderClause.
    repeat match goal with
           | |- context [String.eqb ?a order] =>
               destruct (String.eqb_spec a order) as [<-|_];
               [exfalso; apply Hin;
                repeat first [apply list_elem_of_here | apply list_elem_of_further]|]
           end.
    reflexivity. }
  split; [exact Hc|].
  unfold ElasticsearchTerms, terms_agg_only_keys. rewrite Hc. split; reflexivity.
Qed.

(** ** Main theorems on the keys of a terms aggregate *)

Section ArrayFacts.

Context {json : Type}.
Variable parse_json_object : string -> json.
Variable get_json_object_object : json -> string -> bool -> option json.
Variable get_json_object_array : json -> string -> bool -> option json.
Variable get_json_array_length : json -> Z.
Variable get_json_array_element_object : json -> Z -> json.
Variable get_json_object_string_force : json -> string -> string.

Lemma accumulate_keys_from buckets astate :
  accumulate_keys get_json_array_length get_json_array_element_object
                  get_json_object_string_force buckets astate
  = match bucket_keys get_json_array_length get_json_array_element_object
                      get_json_object_string_force buckets with
    | [] => astate
    | keys => Some (default [] astate ++ keys)
    end.
Proof.
  unfold accumulate_keys, bucket_keys.
  generalize (seq 0 (Z.to_nat (get_json_array_length buckets))). intros l.
  revert astate. induction l as [|i l IH]; intros astate; [done|].
  cbn [foldl map]. rewrite IH. unfold accumArrayResult. cbn [default].
  destruct (map _ l) as [|k keys]; [done|].
  unfold id. by rewrite <- app_assoc.
Qed.

(** X14.  [ElasticsearchTermsAsArray] gives the keys of the buckets of
    [aggregations.the_agg], in the order of the response, and gives [NULL]
    -- never an empty array -- when there is no bucket, be it that a
    member on the way is missing or that the array is empty; a failure of
    the request is passed on.  Unlike the other aggregates it asks the
    index by its name and needs no alias. *)
Theorem terms_as_array_is_null_without_keys indexRel field query order size sent :
  let r := ElasticsearchTermsAsArray convert_to_query_dsl cluster parse_json_object
             get_json_object_object get_json_object_array get_json_array_length
             get_json_array_element_object get_json_object_string_force
             indexRel field query order size sent in
  let keys_of response :=
    match buckets_of get_json_object_object get_json_object_array
                     (parse_json_object response) with
    | Some buckets =>
        match bucket_keys get_json_array_length get_json_array_element_object
                          get_json_object_string_force buckets with
        | [] => None
        | keys => Some keys
        end
    | None => None
    end in
  (forall response sent',
      terms_agg_only_keys convert_to_query_dsl cluster indexRel field query order size
                          sent = Returned response sent' ->
      r = Returned (keys_of response) sent')
  /\ (forall msg sent',
         terms_agg_only_keys convert_to_query_dsl cluster indexRel field query order
                             size sent = Raised msg sent' ->
         r = Raised msg sent')
  /\ (forall keys sent', r = Returned (Some keys) sent' -> keys <> [])
  /\ (exists body,
         requests_of r
         = sent ++ [mkCall "POST"
                      (ZDBIndexOptionsGetUrl indexRel
                       +:+ percent_s (ZDBIndexOptionsGetIndexName indexRel)
                       +:+ "/_search?size=0&filter_path=aggregations.the_agg.buckets.key")
                      (Some body) (ZDBIndexOptionsGetCompressionLevel indexRel)]).
Proof.
  intros r keys_of.
  assert (Hret : forall response sent',
             terms_agg_only_keys convert_to_query_dsl cluster indexRel field query
                                 order size sent = Returned response sent' ->
             r = Returned (keys_of response) sent').
  { intros response sent' Hk. subst r keys_of.
    unfold ElasticsearchTermsAsArray, rest_bind. rewrite Hk.
    unfold rest_ret, buckets_of. f_equal.
    destruct (get_json_object_object _ "aggregations" true) as [aggregations|];
      [|done].
    destruct (get_json_object_object aggregations "the_agg" true) as [the_agg|];
      [|done].
    destruct (get_json_object_array the_agg "buckets" true) as [buckets|]; [|done].
    rewrite accumulate_keys_from. by destruct (bucket_keys _ _ _ _). }
  assert (Hraise : forall msg sent',
             terms_agg_only_keys convert_to_query_dsl cluster indexRel field query
                                 order size sent = Raised msg sent' ->
             r = Raised msg sent').
  { intros msg sent' Hk. subst r. unfold ElasticsearchTermsAsArray, rest_bind.
    by rewrite Hk. }
  split; [exact Hret|]. split; [exact Hraise|]. split.
  - intros keys sent' Hr.
    destruct (terms_agg_only_keys convert_to_query_dsl cluster indexRel field query
                                  order size sent) as [response s1|msg s1] eqn:Hk.
    + rewrite (Hret _ _ eq_refl) in Hr. injection Hr as Hkeys _.
      subst keys_of. cbv beta in Hkeys.
      destruct (buckets_of _ _ _) as [buckets|]; [|done].
      destruct (bucket_keys _ _ _ _) as [|k ks]; [done|].
      by injection Hkeys as <-.
    + by rewrite (Hraise _ _ eq_refl) in Hr.
  - eexists.
    assert (Hreq : requests_of r
                   = requests_of (terms_agg_only_keys convert_to_query_dsl cluster
                                    indexRel field query order size sent)).
    { destruct (terms_agg_only_keys convert_to_query_dsl cluster indexRel field query
                                    order size sent) as [response s1|msg s1] eqn:Hk.
      - by rewrite (Hret _ _ eq_refl).
      - by rewrite (Hraise _ _ eq_refl). }
    rewrite Hreq. unfold terms_agg_only_keys. apply rest_call_requests.
Qed.

End ArrayFacts.

(** ** Main theorems on lists in aggregates *)

Lemma concat_empty_cons (x : string) (l : list string) :
  String.concat EmptyString (x :: l) = x +:+ String.concat EmptyString l.
Proof. destruct l; cbn; [by rewrite LedgerProofs.string_app_nil_r|done]. Qed.

Lemma filters_loop_from indexRel i (entries : list (string * ZDBQueryType)) agg :
  0 < i ->
  filters_loop convert_to_query_dsl indexRel i entries agg
  = agg +:+ String.concat EmptyString
              (map (fun lf => "," +:+ Bulk.q lf.1 +:+ ":"
                              +:+ convert_to_query_dsl indexRel lf.2) entries).
Proof.
  revert i agg. induction entries as [|[label filter] entries IH]; intros i agg Hi.
  - cbn. by rewrite LedgerProofs.string_app_nil_r.
  - cbn [filters_loop map fst snd]. rewrite (proj2 (Z.ltb_lt 0 i) Hi).
    rewrite IH by lia. rewrite concat_empty_cons.
    by rewrite !LedgerProofs.string_app_assoc.
Qed.

Lemma fields_loop_from i (fields : list string) agg :
  0 < i ->
  fields_loop i fields agg
  = agg +:+ String.concat EmptyString (map (fun f => "," +:+ Bulk.q f) fields).
Proof.
  revert i agg. induction fields as [|field fields IH]; intros i agg Hi.
  - cbn. by rewrite LedgerProofs.string_app_nil_r.
  - cbn [fields_loop map]. rewrite (proj2 (Z.ltb_lt 0 i) Hi).
    rewrite IH by lia. rewrite concat_empty_cons.
    by rewrite !LedgerProofs.string_app_assoc.
Qed.

(** X18.  The loops of [ElasticsearchFilters], [ElasticsearchAdjacencyMatrix],
    [ElasticsearchMatrixStats] and [ElasticsearchTopHits] append the
    entries they are given (["label":query], or ["field"]) in order,
    separated by single commas, with no comma before the first or after
    the last; for no entry they append nothing. *)
Theorem aggregate_lists_are_comma_separated indexRel
    (entries : list (string * ZDBQueryType)) (fields : list string) agg :
  filters_loop convert_to_query_dsl indexRel 0 entries agg
  = agg +:+ String.concat ","
              (map (fun lf => Bulk.q lf.1 +:+ ":"
                              +:+ convert_to_query_dsl indexRel lf.2) entries)
  /\ fields_loop 0 fields agg = agg +:+ String.concat "," (map Bulk.q fields).
Proof.
  split.
  - destruct entries as [|[label filter] entries];
      [cbn; by rewrite LedgerProofs.string_app_nil_r|].
    cbn [filters_loop map fst snd]. change (0 <? 0) with false. cbv iota.
    rewrite filters_loop_from by lia.
    rewrite LedgerProofs.concat_comma, map_map, LedgerProofs.string_app_assoc.
    reflexivity.
  - destruct fields as [|field fields];
      [cbn; by rewrite LedgerProofs.string_app_nil_r|].
    cbn [fields_loop map]. change (0 <? 0) with false. cbv iota.
    rewrite fields_loop_from by lia.
    rewrite LedgerProofs.concat_comma, map_map, LedgerProofs.string_app_assoc.
    reflexivity.
Qed.

(** ** Main theorems on samplers *)

(** X15.  On an index of [n] shards, [0 < n < 2^31], a sampler asked for
    [shard_size < 2^31] documents samples [max(1, shard_size / n)] per
    shard: at least one, and when [shard_size] is at least [n], as many as
    fit [n] times into [shard_size]; the number is printed as it is. *)
Theorem sampler_shard_size_bounds indexRel shard_size :
  0 < ZDBIndexOptionsGetNumberOfShards indexRel < 2 ^ 31 ->
  0 <= shard_size < 2 ^ 31 ->
  let n := ZDBIndexOptionsGetNumberOfShards indexRel in
  let v := shard_sample_size indexRel shard_size in
  1 <= v <= Z.max 1 shard_size
  /\ (n <= shard_size -> v * n <= shard_size < (v + 1) * n)
  /\ (shard_size < n -> v = 1)
  /\ Bulk.print_d v = pretty v.
Proof.
  intros Hn Hs n v. subst n v. unfold shard_sample_size.
  rewrite !Z.mod_small by lia.
  set (n := ZDBIndexOptionsGetNumberOfShards indexRel) in *.
  pose proof (Z.div_mod shard_size n ltac:(lia)) as Hdm.
  pose proof (Z.mod_pos_bound shard_size n ltac:(lia)) as Hmod.
  assert (Hq : 0 <= shard_size / n) by (apply Z.div_pos; lia).
  assert (Hle : shard_size / n <= shard_size).
  { apply Z.div_le_upper_bound; [lia|]. nia. }
  split; [lia|]. split; [|split].
  - intros Hge. assert (1 <= shard_size / n).
    { apply Z.div_le_lower_bound; lia. }
    rewrite Z.max_r by lia. nia.
  - intros Hlt. rewrite Z.div_small by lia. reflexivity.
  - unfold Bulk.print_d. rewrite int32_small by lia. reflexivity.
Qed.

(** ** Main theorems on index management *)

Variable str_tolower : string -> string.
Variable database_name : string.
Variable MyDatabaseId : Z.
Variable lookup_analysis_thing : string -> string.

(** X16.  [ElasticsearchUpdateSettings] switches the alias only when the
    old and the new alias differ -- a missing one being the default alias
    name, or the configured alias for the new one -- and then always puts
    the refresh interval and the replica count, unless the alias request
    failed.  Called without aliases on an index that has none configured,
    it only puts the settings. *)
Theorem update_settings_switches_a_changed_alias indexRel oldAlias newAlias sent :
  let old := default (make_alias_name str_tolower database_name indexRel true)
                     oldAlias in
  let new := default (make_alias_name str_tolower database_name indexRel false)
                     newAlias in
  let level := ZDBIndexOptionsGetCompressionLevel indexRel in
  let put := mkCall "PUT"
                    (ZDBIndexOptionsGetUrl indexRel
                     +:+ percent_s (ZDBIndexOptionsGetIndexName indexRel)
                     +:+ "/_settings")
                    (Some (index_settings indexRel)) level in
  let switch := mkCall "POST" (ZDBIndexOptionsGetUrl indexRel +:+ "_aliases")
                       (Some (alias_actions indexRel old new)) level in
  let r := ElasticsearchUpdateSettings cluster str_tolower database_name indexRel
                                       oldAlias newAlias sent in
  (old = new -> requests_of r = sent ++ [put])
  /\ (old <> new ->
      requests_of r = sent ++ switch :: match cluster sent switch with
                                        | inr _ => [put]
                                        | inl _ => []
                                        end)
  /\ (oldAlias = None -> newAlias = None ->
      ZDBIndexOptionsGetAlias indexRel = None -> old = new).
Proof.
  intros old new level put switch r.
  assert (Hr : r = ElasticsearchUpdateSettings cluster str_tolower database_name
                     indexRel oldAlias newAlias sent) by reflexivity.
  unfold ElasticsearchUpdateSettings in Hr.
  change (match oldAlias with
          | Some a => a
          | None => make_alias_name str_tolower database_name indexRel true
          end) with old in Hr.
  change (match newAlias with
          | Some a => a
          | None => make_alias_name str_tolower database_name indexRel false
          end) with new in Hr.
  cbv zeta in Hr.
  assert (Hfin : forall sent',
             requests_of (ElasticsearchFinalizeIndexCreation cluster indexRel sent')
             = sent' ++ [put]).
  { intros sent'. unfold ElasticsearchFinalizeIndexCreation, rest_bind.
    cbv zeta. rewrite rest_call_cases. fold level put.
    by destruct (cluster sent' put). }
  clearbody r. split; [|split].
  - intros Heq. rewrite Heq, String.eqb_refl in Hr. cbn [negb] in Hr.
    rewrite Hr. apply Hfin.
  - intros Hne. apply String.eqb_neq in Hne. rewrite Hne in Hr. cbn [negb] in Hr.
    rewrite Hr. unfold rest_bind at 1 2. rewrite rest_call_cases. fold level switch.
    destruct (cluster sent switch) as [msg|response]; [reflexivity|].
    unfold rest_ret. rewrite Hfin, <- app_assoc. reflexivity.
  - intros -> -> Ha. subst old new. cbn [default].
    unfold make_alias_name. by rewrite Ha.
Qed.

(** X17.  [ElasticsearchCreateIndex] first deletes the index that the
    options name, and only when that request was answered puts the new
    index, under the configured name if there is one and under a generated
    one otherwise; it returns that name. *)
Theorem create_index_deletes_first indexRel mapping rnd aliasName sent :
  let name := default (generate_uuid_index_name MyDatabaseId indexRel rnd)
                      (ZDBIndexOptionsGetIndexName indexRel) in
  let level := ZDBIndexOptionsGetCompressionLevel indexRel in
  let delete := mkCall "DELETE"
                       (ZDBIndexOptionsGetUrl indexRel
                        +:+ percent_s (ZDBIndexOptionsGetIndexName indexRel))
                       None level in
  let put := mkCall "PUT" (ZDBIndexOptionsGetUrl indexRel +:+ name)
                    (Some (create_index_settings lookup_analysis_thing indexRel
                                                 mapping aliasName))
                    level in
  let r := ElasticsearchCreateIndex cluster MyDatabaseId lookup_analysis_thing
                                    indexRel mapping rnd aliasName sent in
  (forall msg, cluster sent delete = inl msg -> r = Raised msg (sent ++ [delete]))
  /\ (forall response, cluster sent delete = inr response ->
      requests_of r = sent ++ [delete; put]
      /\ forall response', cluster (sent ++ [delete]) put = inr response' ->
                           r = Returned name (sent ++ [delete; put])).
Proof.
  intros name level delete put r.
  assert (Hr : r = ElasticsearchCreateIndex cluster MyDatabaseId
                     lookup_analysis_thing indexRel mapping rnd aliasName sent)
    by reflexivity.
  unfold ElasticsearchCreateIndex in Hr.
  change (match ZDBIndexOptionsGetIndexName indexRel with
          | Some name => name
          | None => generate_uuid_index_name MyDatabaseId indexRel rnd
          end) with name in Hr.
  cbv zeta in Hr. unfold ElasticsearchDeleteIndex in Hr.
  unfold rest_bind at 1 2 in Hr. rewrite rest_call_cases in Hr.
  fold level delete in Hr.
  clearbody r. split.
  - intros msg Hd. by rewrite Hd in Hr.
  - intros response Hd. rewrite Hd in Hr. unfold rest_ret at 1 in Hr.
    unfold rest_bind in Hr. rewrite rest_call_cases in Hr. fold put in Hr.
    split.
    + rewrite Hr. destruct (cluster (sent ++ [delete]) put);
        cbn [requests_of]; by rewrite <- app_assoc.
    + intros response' Hp. rewrite Hp in Hr. rewrite Hr.
      unfold rest_ret. by rewrite <- app_assoc.
Qed.

(** X19.  A request for an endpoint that does not start with a slash goes
    to the index; it is the request that the endpoint
    [/<index name>/<endpoint>], addressed to the root of the cluster,
    gives. *)
Theorem arbitrary_request_root_and_index_agree indexRel name method endpoint
    postData sent :
  ZDBIndexOptionsGetIndexName indexRel = Some name ->
  starts_with_slash endpoint = false ->
  ElasticsearchArbitraryRequest cluster indexRel method
                                ("/" +:+ name +:+ "/" +:+ endpoint) postData sent
  = ElasticsearchArbitraryRequest cluster indexRel method endpoint postData sent.
Proof.
  intros Hname Hs. unfold ElasticsearchArbitraryRequest.
  rewrite Hs, Hname. reflexivity.
Qed.

End CallFacts.

Lemma aggregates_need_an_alias_witness :
  makeAggRequest sample_dsl sample_cluster unaliased_relation (Some "{}") "{}" false []
  = Raised "index 'idx' doesn't have an alias" []
  /\ map rc_url (requests_of (makeAggRequest sample_dsl sample_cluster
                                             sample_relation (Some "{}") "{}" false []))
     = ["http://localhost:9200/my_alias/_search?size=0"].
Proof.
  destruct (aggregates_need_an_alias sample_dsl sample_cluster (fun _ => 0)
              unaliased_relation (Some "{}") "{}" false "{}" []) as [Hnone _].
  destruct (aggregates_need_an_alias sample_dsl sample_cluster (fun _ => 0)
              sample_relation (Some "{}") "{}" false "{}" []) as [_ Hsome].
  split.
  - apply Hnone. reflexivity.
  - destruct (Hsome "my_alias" eq_refl) as [(body & ->) _]. reflexivity.
Defined.

Lemma terms_size_and_order_defaults_witness :
  makeTermsOrderClause "descending" = EmptyString
  /\ ElasticsearchTerms sample_dsl sample_cluster sample_relation "title" None
                        "descending" 0 []
     = ElasticsearchTerms sample_dsl sample_cluster sample_relation "title" None
                          EmptyString 2147483647 [].
Proof.
  destruct (terms_size_and_order_defaults sample_dsl sample_cluster sample_relation
              "title" None "descending" 0 []) as [Hsize Horder].
  destruct Horder as (Hc & Ho & _).
  { intros Hin. repeat (apply elem_of_cons in Hin as [Hin|Hin]; [discriminate|]).
    by apply elem_of_nil in Hin. }
  split; [exact Hc|]. rewrite Ho. reflexivity.
Defined.

Lemma terms_as_array_is_null_without_keys_witness :
  returned (ElasticsearchTermsAsArray sample_dsl sample_cluster sample_parse
              sample_member sample_member sample_length sample_element
              sample_string_force unaliased_relation "title" None "count" 0 [])
  = Some None
  /\ returned (ElasticsearchTermsAsArray sample_dsl bucket_cluster sample_parse
                 sample_member sample_member sample_length sample_element
                 sample_string_force unaliased_relation "title" None "count" 0 [])
     = Some (Some ["a"; "b"]).
Proof.
  split.
  - destruct (terms_as_array_is_null_without_keys sample_dsl sample_cluster
                sample_parse sample_member sample_member sample_length sample_element
                sample_string_force unaliased_relation "title" None "count" 0 [])
      as (Hret & _).
    rewrite (Hret "{}" _ eq_refl). reflexivity.
  - destruct (terms_as_array_is_null_without_keys sample_dsl bucket_cluster
                sample_parse sample_member sample_member sample_length sample_element
                sample_string_force unaliased_relation "title" None "count" 0 [])
      as (Hret & _).
    rewrite (Hret "{...}" _ eq_refl). reflexivity.
Defined.

Lemma sampler_shard_size_bounds_witness :
  shard_sample_size sample_relation 12 = 2
  /\ shard_sample_size sample_relation 3 = 1.
Proof.
  split.
  - destruct (sampler_shard_size_bounds sample_relation 12) as (_ & H & _);
      [cbn; lia|lia|].
    cbn [ZDBIndexOptionsGetNumberOfShards sample_relation] in H. lia.
  - destruct (sampler_shard_size_bounds sample_relation 3) as (_ & _ & H & _);
      [cbn; lia|lia|].
    apply H. cbn. lia.
Defined.

Lemma update_settings_switches_a_changed_alias_witness :
  map rc_url (requests_of (ElasticsearchUpdateSettings sample_cluster id "db"
                             unaliased_relation None None []))
  = ["http://localhost:9200/16384.2200.16390.16400-1/_settings"]
  /\ map rc_url (requests_of (ElasticsearchUpdateSettings sample_cluster id "db"
                                sample_relation None None []))
     = ["http://localhost:9200/_aliases";
        "http://localhost:9200/16384.2200.16390.16400-1/_settings"].
Proof.
  split.
  - destruct (update_settings_switches_a_changed_alias sample_cluster id "db"
                unaliased_relation None None []) as (Hsame & _ & Hdefault).
    rewrite Hsame by (apply Hdefault; reflexivity). reflexivity.
  - destruct (update_settings_switches_a_changed_alias sample_cluster id "db"
                sample_relation None None []) as (_ & Hdiffer & _).
    rewrite Hdiffer by discriminate. reflexivity.
Defined.

Lemma create_index_deletes_first_witness :
  ElasticsearchCreateIndex failing_cluster 16384 (fun _ => EmptyString) new_relation
                           EmptyString 1 "my_alias" []
  = Raised "couldn't connect to host"
           [mkCall "DELETE" "http://localhost:9200/(null)" None 1]
  /\ returned (ElasticsearchCreateIndex sample_cluster 16384 (fun _ => EmptyString)
                 new_relation EmptyString 1 "my_alias" [])
     = Some "16384.2200.16390.16400-1".
Proof.
  split.
  - destruct (create_index_deletes_first failing_cluster 16384 (fun _ => EmptyString)
                new_relation EmptyString 1 "my_alias" []) as [Hfail _].
    apply Hfail. reflexivity.
  - destruct (create_index_deletes_first sample_cluster 16384 (fun _ => EmptyString)
                new_relation EmptyString 1 "my_alias" []) as [_ Hok].
    destruct (Hok "{}" eq_refl) as [_ Hput].
    rewrite (Hput "{}" eq_refl). vm_compute. reflexivity.
Defined.

Lemma arbitrary_request_root_and_index_agree_witness :
  ElasticsearchArbitraryRequest sample_cluster sample_relation "GET"
                                "/16384.2200.16390.16400-1/_stats" None []
  = ElasticsearchArbitraryRequest sample_cluster sample_relation "GET" "_stats" None [].
Proof.
  apply (arbitrary_request_root_and_index_agree sample_cluster sample_relation
           "16384.2200.16390.16400-1" "GET" "_stats" None []); reflexivity.
Defined.

End AdminProofs.

(* ================================================================== *)
(** * Further facts about the bulk pipeline *)
(* ================================================================== *)

Module BulkExtras.
Import Bulk BulkSpec BulkTextSpec BulkProofs.

(** ** The start of a session *)

Lemma start_exact indexRel indexName tupdesc ivc name :
  match indexName with Some n => Some n | None => opt_index_name indexRel end
  = Some name ->
  ElasticsearchStartBulkProcess indexRel indexName tupdesc ivc
  = OK tt (mkContext
             (mkConfig (opt_batch_size indexRel) (opt_bulk_concurrency indexRel)
                       (bool_decide (opt_refresh_interval indexRel = "-1"))
                       (match tupdesc with Some j => j | None => false end)
                       (match tupdesc with Some _ => true | None => false end))
             false (mkRest (opt_bulk_concurrency indexRel) [] [])
             (None :: replicate (opt_bulk_concurrency indexRel) (Some EmptyString))
             (mkEntry EmptyString 0) 0 0 0 (mkTallies 0 0 0 0 0) [EvCheckout 0]).
Proof.
  intros Hname. unfold ElasticsearchStartBulkProcess. rewrite Hname.
  unfold bind, checkout_batch_pool, rest_multi_init.
  cbn [pool rest nhandles]. rewrite Nat.add_1_r. reflexivity.
Qed.

(** X4.  [ElasticsearchStartBulkProcess] raises exactly when no index name
    is passed and none is configured, with "The 'uuid' property is not set
    on" and the name of the index relation, and then nothing has been set
    up; otherwise it returns a context whose buffer is the empty one of slot 0,
    whose other [bulkConcurrency] slots hold empty buffers, with every
    counter at zero and the wait flag clear. *)
Theorem start_needs_an_index_name indexRel indexName tupdesc ivc :
  let r := ElasticsearchStartBulkProcess indexRel indexName tupdesc ivc in
  (indexName = None -> opt_index_name indexRel = None ->
   r = ERROR ("The 'uuid' property is not set on " +:+ opt_relation_name indexRel)
             palloc0)
  /\ (indexName <> None \/ opt_index_name indexRel <> None ->
      exists c,
        r = OK tt c
        /\ current c = mkEntry EmptyString 0
        /\ pool c = None :: replicate (opt_bulk_concurrency indexRel)
                                      (Some EmptyString)
        /\ log c = [EvCheckout 0]
        /\ waitForActiveShards c = false
        /\ (nrows c, ntotal c, nrequests c) = (0, 0, 0)
        /\ counts c = mkTallies 0 0 0 0 0
        /\ batchSize (config c) = opt_batch_size indexRel
        /\ bulkConcurrency (config c) = opt_bulk_concurrency indexRel
        /\ (shouldRefresh (config c) = true <-> opt_refresh_interval indexRel = "-1")).
Proof.
  cbv zeta. split.
  - intros -> Hn. unfold ElasticsearchStartBulkProcess. by rewrite Hn.
  - intros Hname.
    assert (exists name,
               match indexName with Some n => Some n | None => opt_index_name indexRel end
               = Some name) as [name Hn].
    { destruct indexName as [n|]; [by exists n|].
      destruct (opt_index_name indexRel) as [n|]; [by exists n|].
      by destruct Hname. }
    eexists. split; [apply (start_exact _ _ _ _ _ Hn)|].
    cbn. repeat split; try done.
    + by intros ?%bool_decide_eq_true.
    + by intros ?; apply bool_decide_eq_true.
Qed.

Lemma start_needs_an_index_name_witness :
  ElasticsearchStartBulkProcess (mkOptions "idx_rel" None 15 1 "-1") None None false
  = ERROR "The 'uuid' property is not set on idx_rel" palloc0
  /\ succeeded (ElasticsearchStartBulkProcess (mkOptions "idx_rel" None 15 1 "-1") (Some "idx")
                                              None false) = true.
Proof.
  destruct (start_needs_an_index_name (mkOptions "idx_rel" None 15 1 "-1") None None false)
    as [Hnone _].
  destruct (start_needs_an_index_name (mkOptions "idx_rel" None 15 1 "-1") (Some "idx") None
                                      false) as [_ Hsome].
  split.
  - apply Hnone; reflexivity.
  - destruct Hsome as (c & -> & _); [by left|reflexivity].
Defined.

Section SessionFacts.

Variable replace_line_breaks strip_json_ending : string -> string.

(** X3.  A session in which nothing is appended sends nothing: started
    with an index name and finished at once, it returns after the drain
    without a poll, a bulk request or a refresh, whatever the options and
    whatever the transport would do. *)
Theorem empty_session_sends_nothing indexRel indexName tupdesc tk schedule :
  indexName <> None \/ opt_index_name indexRel <> None ->
  let r := bulk_session replace_line_breaks strip_json_ending indexRel indexName
                        tupdesc [] tk schedule in
  succeeded r = true /\ log (final_context r) = [EvCheckout 0; EvDrained].
Proof.
  intros Hname.
  assert (exists name,
             match indexName with Some n => Some n | None => opt_index_name indexRel end
             = Some name) as [name Hn].
  { destruct indexName as [n|]; [by exists n|].
    destruct (opt_index_name indexRel) as [n|]; [by exists n|].
    by destruct Hname. }
  cbv zeta. unfold bulk_session. rewrite (start_exact _ _ _ _ _ Hn).
  destruct (bool_decide (opt_refresh_interval indexRel = "-1")); split; reflexivity.
Qed.

(** ** The text that is posted *)

Lemma posted_app l1 l2 : posted (l1 ++ l2) = posted l1 +:+ posted l2.
Proof.
  unfold posted. rewrite bulk_requests_app, foldr_app.
  generalize (foldr (fun r s => buff (rq_post r) +:+ s) EmptyString (bulk_requests l2)).
  intros t. induction (bulk_requests l1) as [|r rs IH]; cbn [foldr]; [done|].
  by rewrite IH, LedgerProofs.string_app_assoc.
Qed.

Lemma posted_snoc_requests l evs (rs : list bulk_request) :
  bulk_requests evs = rs ->
  posted (l ++ EvPoll :: evs)
  = posted l +:+ foldr (fun r s => buff (rq_post r) +:+ s) EmptyString rs.
Proof. intros <-. by rewrite posted_app. Qed.

Lemma clean_insert_None p i : clean p -> clean (<[i := None]> p).
Proof.
  intros Hp j b [(_ & [=] & _)|[_ Hj]]%list_lookup_insert_Some. by apply (Hp j).
Qed.

Lemma clean_return p (es : list PostDataEntry) :
  clean p -> clean (foldl return_buffer p es).
Proof.
  revert p. induction es as [|e es IH]; intros p Hp; [done|].
  cbn [foldl]. apply IH. unfold return_buffer.
  intros j b [(_ & [= <-] & _)|[_ Hj]]%list_lookup_insert_Some; [done|].
  by apply (Hp j).
Qed.

Lemma keeps_refl c : keeps c c.
Proof. by repeat split. Qed.

Lemma keeps_trans c1 c2 c3 : keeps c1 c2 -> keeps c2 c3 -> keeps c1 c3.
Proof.
  intros (? & ? & ? & ?) (? & ? & ? & ?). repeat split; try congruence. auto.
Qed.

Lemma post_keeps_perform done c (Q : bool -> ElasticsearchBulkContext -> Prop) E :
  (forall b c', keeps c c' -> Q b c') -> post (rest_multi_perform done c) Q E.
Proof. intros HQ. unfold rest_multi_perform. cbn. apply HQ. by repeat split. Qed.

Lemma post_keeps_cleanup finalize fast c
    (Q : unit -> ElasticsearchBulkContext -> Prop) E :
  (forall c', keeps c c' -> Q tt c') ->
  post (rest_multi_partial_cleanup finalize fast c) Q E.
Proof.
  intros HQ. unfold rest_multi_partial_cleanup. cbn. apply HQ.
  repeat split. cbn. apply clean_return.
Qed.

Lemma post_keeps_call wait rq c (Q : unit -> ElasticsearchBulkContext -> Prop) E :
  (forall c', keeps c c' -> Q tt c') -> post (rest_multi_call wait rq c) Q E.
Proof.
  intros HQ.
  assert (Hend : forall c1,
             keeps c c1 ->
             post ((modify (fun c => set_rest (mkRest (nhandles (rest c))
                                       (running (rest c) ++ [rq_post rq])
                                       (finished (rest c))) c) ;;
                    emit (EvBulk rq)) c1) Q E).
  { intros c1 (Hcur & Hcfg & Hrows & Hp). apply post_modify.
    unfold emit, modify, post. apply HQ. by repeat split. }
  unfold rest_multi_call. apply post_gets, post_bind.
  destruct (negb _); unfold when.
  - apply post_bind, post_keeps_cleanup. intros c1 H1.
    apply post_gets. destruct (negb _).
    + apply post_bind, post_keeps_perform. intros b c2 H2.
      apply post_keeps_cleanup. intros c3 H3.
      apply Hend. eauto using keeps_trans.
    + apply Hend. done.
  - apply Hend, keeps_refl.
Qed.

(** After [bulk_prologue(context, false)] the pool still holds only empty
    buffers, and if the call flushed, the buffer it checked out is
    empty. *)
Lemma prologue_clean tk c :
  clean (pool c) ->
  post (bulk_prologue false tk c)
       (fun _ c' => clean (pool c')
                    /\ (flush_due false c = true -> buff (current c') = EmptyString))
       (fun _ => True).
Proof.
  intros Hp. unfold bulk_prologue.
  apply post_bind, post_keeps_perform. intros b c1 H1.
  apply post_bind.
  apply (post_mono _ (fun _ c2 => keeps c1 c2) _ (fun _ => False)); [| |done].
  { destruct b; unfold when.
    - apply post_keeps_cleanup. auto.
    - apply keeps_refl. }
  intros [] c2 H2.
  pose proof (keeps_trans _ _ _ H1 H2) as (Hcur & Hcfg & Hrows & Hclean).
  assert (Hdue : flush_due false c2 = flush_due false c).
  { unfold flush_due. congruence. }
  apply post_gets. rewrite Hdue.
  destruct (flush_due false c); unfold when.
  2:{ apply post_ret. split; [auto|done]. }
  apply post_gets. unfold id. apply post_bind, post_keeps_call.
  intros c3 (_ & _ & _ & Hclean3).
  apply post_modify, post_modify. cbn [negb].
  apply post_bind, post_checkout; [|done].
  intros i buf Hi. unfold modify, post. cbn.
  assert (Hc3 : clean (pool c3)) by auto.
  split; [by apply clean_insert_None|].
  intros _. by apply (Hc3 i).
Qed.

Lemma post_conj {A} (r : result A) (Q1 Q2 : A -> ElasticsearchBulkContext -> Prop)
    (E1 E2 : ElasticsearchBulkContext -> Prop) :
  post r Q1 E1 -> post r Q2 E2 ->
  post r (fun a c => Q1 a c /\ Q2 a c) (fun c => E1 c /\ E2 c).
Proof. by destruct r. Qed.

(** [bulk_prologue(context, false)] keeps the account of the text: what it
    sends is the buffer that was being filled, and the buffer it goes on
    with is empty. *)
Lemma prologue_text tk c txt :
  accounted txt c ->
  post (bulk_prologue false tk c)
       (fun _ c' => accounted txt c' /\ config c' = config c)
       (fun _ => True).
Proof.
  intros [Hp Htxt].
  eapply post_mono;
    [apply (post_conj _ _ _ _ _ (prologue_clean tk c Hp)
                      (post_prologue false tk c
                         (fun _ c' => prologue_step false c c' true)
                         (fun _ => True)
                         (fun c' H => H) (fun _ _ => I)))| |done].
  intros [] c' [[Hclean Hempty] [Hcfg _ _ _ (evs & Hlog & Hreq & _) _ _ Hkept _ _]].
  split; [|exact Hcfg]. split; [exact Hclean|].
  rewrite Hlog, (posted_snoc_requests _ _ _ Hreq).
  destruct (flush_due false c).
  - rewrite Hempty by done. cbn [foldr flush_request rq_post].
    by rewrite !LedgerProofs.string_app_nil_r.
  - destruct Hkept as [-> _]; [by left|]. cbn [foldr].
    by rewrite LedgerProofs.string_app_nil_r.
Qed.

(** ** What the entry points write *)

Lemma wa_ret : writes_alike (ret tt).
Proof. intros c c0 b0 Hj Hb. exists c, c0. by repeat split. Qed.

Lemma wa_seq (m k : bulk unit) :
  writes_alike m -> writes_alike k -> writes_alike (m ;; k).
Proof.
  intros Hm Hk c c0 b0 Hj Hb.
  destruct (Hm c c0 b0 Hj Hb) as (c1 & c01 & Hc1 & Hc01 & Hcfg & Hcfg0 & Hl & Hp & Hb1).
  destruct (Hk c1 c01 b0) as (c2 & c02 & Hc2 & Hc02 & Hcfg' & Hcfg0' & Hl' & Hp' & Hb2);
    [congruence|done|].
  exists c2, c02. unfold bind. rewrite Hc1, Hc01.
  repeat split; congruence.
Qed.

Lemma wa_gets {A} (f : ElasticsearchBulkContext -> A) (k : A -> bulk unit) :
  (forall c c0, containsJson (config c0) = containsJson (config c) -> f c0 = f c) ->
  (forall x, writes_alike (k x)) ->
  writes_alike (x <- gets f ;; k x).
Proof.
  intros Hf Hk c c0 b0 Hj Hb. unfold bind, gets. rewrite (Hf c c0 Hj).
  by apply Hk.
Qed.

Lemma wa_modify (f : ElasticsearchBulkContext -> ElasticsearchBulkContext) :
  (forall c, config (f c) = config c /\ current (f c) = current c
             /\ log (f c) = log c /\ pool (f c) = pool c) ->
  writes_alike (modify f).
Proof.
  intros Hf c c0 b0 Hj Hb. exists (f c), (f c0).
  destruct (Hf c) as (? & Hc & ? & ?), (Hf c0) as (? & Hc0 & ? & ?).
  repeat split; try done. by rewrite Hc, Hc0.
Qed.

Lemma wa_append s : writes_alike (appendStringInfo s).
Proof.
  intros c c0 b0 Hj Hb. eexists _, _. unfold appendStringInfo, modify.
  repeat split. cbn. by rewrite Hb, LedgerProofs.string_app_assoc.
Qed.

Lemma wa_when b (m : bulk unit) : writes_alike m -> writes_alike (when b m).
Proof. intros Hm. destruct b; [done|apply wa_ret]. Qed.

Lemma wa_bump f : writes_alike (bump f).
Proof. by apply wa_modify. Qed.

Lemma wa_epilogue : writes_alike bulk_epilogue.
Proof. apply wa_seq; by apply wa_modify. Qed.

Local Ltac alike :=
  cbv zeta;
  lazymatch goal with
  | |- writes_alike bulk_epilogue => apply wa_epilogue
  | |- writes_alike (bump _) => apply wa_bump
  | |- writes_alike (appendStringInfo _) => apply wa_append
  | |- writes_alike (ret tt) => apply wa_ret
  | |- writes_alike (when _ _) => apply wa_when; alike
  | |- writes_alike (bind (gets _) _) =>
      apply wa_gets; [intros ? ? Hj; exact Hj|intros ?; alike]
  | |- writes_alike (bind _ (fun _ => _)) => apply wa_seq; alike
  end.

(** The rest of an entry point, run on an accounted context and on an
    empty buffer. *)
Lemma tail_text (tail : bulk unit) c1 c0 txt :
  writes_alike tail ->
  accounted txt c1 ->
  containsJson (config c0) = containsJson (config c1) ->
  buff (current c0) = EmptyString ->
  post (tail c1)
       (fun _ c' => accounted (txt +:+ buff (current (final_context (tail c0)))) c'
                    /\ config c' = config c1)
       (fun _ => True).
Proof.
  intros Hw [Hp Htxt] Hj Hb0.
  destruct (Hw c1 c0 (buff (current c1)))
    as (c' & c0' & -> & -> & Hcfg & _ & Hl & Hpool & Hb);
    [done|by rewrite Hb0, LedgerProofs.string_app_nil_r|].
  cbn. split; [|exact Hcfg]. split; [by rewrite Hpool|].
  by rewrite Hl, Hb, <- LedgerProofs.string_app_assoc, Htxt.
Qed.

(** Each append adds the lines of its mutation to the account. *)
Lemma append_text tk m c txt :
  accounted txt c ->
  post (append_mutation replace_line_breaks strip_json_ending tk m c)
       (fun _ c' =>
          accounted (txt +:+ rendered replace_line_breaks strip_json_ending
                                      (containsJson (config c)) m) c'
          /\ config c' = config c)
       (fun _ => True).
Proof.
  intros Hacc.
  set (j := containsJson (config c)).
  assert (Hrun : forall (pre : ElasticsearchBulkContext -> ElasticsearchBulkContext)
                        (tail : bulk unit),
             (forall c, config (pre c) = config c /\ current (pre c) = current c
                        /\ log (pre c) = log c /\ pool (pre c) = pool c) ->
             (exists c0, bulk_prologue false quiet_tick (pre (blank j)) = OK tt c0
                         /\ containsJson (config c0) = j
                         /\ buff (current c0) = EmptyString) ->
             writes_alike tail ->
             post ((bulk_prologue false tk ;; tail) (pre c))
                  (fun _ c' =>
                     accounted
                       (txt +:+ buff (current (final_context
                                  ((bulk_prologue false quiet_tick ;; tail)
                                     (pre (blank j))))))
                       c'
                     /\ config c' = config c)
                  (fun _ => True)).
  { intros pre tail Hpre (c0 & Hrun0 & Hj0 & Hb0) Htail.
    destruct (Hpre c) as (Hc1 & Hc2 & Hc3 & Hc4).
    assert (Hacc' : accounted txt (pre c)).
    { destruct Hacc as [Hp Ht]. split; [by rewrite Hc4|by rewrite Hc3, Hc2]. }
    apply post_bind.
    eapply post_mono; [apply (prologue_text tk _ txt Hacc')| |done].
    intros [] c1 [Hacc1 Hcfg1]. cbv beta.
    unfold bind at 1. rewrite Hrun0.
    eapply post_mono;
      [apply (tail_text tail c1 c0 txt Htail Hacc1)| |done].
    - rewrite Hj0, Hcfg1, Hc1. done.
    - exact Hb0.
    - intros [] c' [H1 H2]. split; [exact H1|]. by rewrite H2, Hcfg1. }
  assert (Hid : exists c0, bulk_prologue false quiet_tick (id (blank j)) = OK tt c0
                           /\ containsJson (config c0) = j
                           /\ buff (current c0) = EmptyString)
    by (eexists; repeat split; reflexivity).
  assert (Hwait : exists c0,
             bulk_prologue false quiet_tick (set_waitForActiveShards true (blank j))
             = OK tt c0
             /\ containsJson (config c0) = j
             /\ buff (current c0) = EmptyString)
    by (eexists; repeat split; reflexivity).
  destruct m; cbn [append_mutation]; unfold rendered; cbn [append_mutation].
  - unfold ElasticsearchBulkInsertRow.
    destruct ctid, (cmax =? InvalidCommandId), (xmax =? InvalidTransactionId);
      (apply (Hrun id); [done|exact Hid|alike]).
  - unfold ElasticsearchBulkUpdateTuple. apply (Hrun id); [done|exact Hid|alike].
  - unfold ElasticsearchBulkVacuumXmax. apply (Hrun id); [done|exact Hid|alike].
  - unfold ElasticsearchBulkDeleteRowByXmin.
    apply (Hrun (set_waitForActiveShards true)); [done|exact Hwait|alike].
  - unfold ElasticsearchBulkDeleteRowByXmax.
    apply (Hrun (set_waitForActiveShards true)); [done|exact Hwait|alike].
  - unfold ElasticsearchBulkMarkTransactionInProgress.
    apply (Hrun id); [done|exact Hid|alike].
  - unfold ElasticsearchBulkMarkTransactionCommitted.
    eapply post_mono; [apply (tail_text _ c (blank j) txt)| |done];
      [alike|done|done|done|].
    intros [] c' H. exact H.
Qed.

Lemma run_text ms c txt :
  accounted txt c ->
  post (append_all replace_line_breaks strip_json_ending ms c)
       (fun _ c' =>
          accounted (txt +:+ rendered_all replace_line_breaks strip_json_ending
                                          (containsJson (config c)) ms) c'
          /\ config c' = config c)
       (fun _ => True).
Proof.
  revert c txt. induction ms as [|[tk m] ms IH]; intros c txt Hacc;
    cbn [append_all rendered_all foldr snd].
  - apply post_ret. by rewrite LedgerProofs.string_app_nil_r.
  - apply post_bind.
    eapply post_mono; [apply (append_text tk m c txt Hacc)| |done].
    intros [] c1 [Hacc1 Hcfg1]. cbv beta.
    eapply post_mono; [apply (IH c1 _ Hacc1)| |done].
    intros [] c2 [Hacc2 Hcfg2]. cbv beta.
    rewrite Hcfg1, LedgerProofs.string_app_assoc in Hacc2.
    split; [exact Hacc2|congruence].
Qed.

Lemma len_zero s : len s <= 0 -> s = EmptyString.
Proof. destruct s; [done|]. unfold len. cbn [String.length]. lia. Qed.

Lemma finish_text tk schedule c txt :
  accounted txt c ->
  post (ElasticsearchFinishBulkProcess tk schedule c)
       (fun _ c' => posted (log c') = txt) (fun _ => True).
Proof.
  intros [_ Htxt]. apply post_finish; [|done].
  intros c' [_ _ _ (evs & Hlog & Hreq & _) _ _].
  rewrite Hlog, posted_app. unfold posted at 2. rewrite Hreq.
  destruct (Z.ltb_spec 0 (len (buff (current c)))) as [Hpos|Hzero].
  - cbn [foldr flush_request rq_post]. by rewrite LedgerProofs.string_app_nil_r.
  - cbn [foldr]. rewrite (len_zero _ Hzero) in Htxt. exact Htxt.
Qed.

Lemma start_accounted indexRel indexName tupdesc ivc c0 :
  ElasticsearchStartBulkProcess indexRel indexName tupdesc ivc = OK tt c0 ->
  accounted EmptyString c0
  /\ containsJson (config c0) = match tupdesc with Some j => j | None => false end.
Proof.
  intros Hstart.
  destruct (match indexName with
            | Some n => Some n
            | None => opt_index_name indexRel
            end) as [name|] eqn:Hn.
  - rewrite (start_exact _ _ _ _ _ Hn) in Hstart. injection Hstart as <-.
    split; [|done]. split; [|done]. cbn [pool].
    intros [|i] b Hi; [done|]. cbn in Hi.
    by apply lookup_replicate in Hi as [[= <-] _].
  - unfold ElasticsearchStartBulkProcess in Hstart. by rewrite Hn in Hstart.
Qed.

(** X1.  Nothing that is appended is lost, sent twice or reordered: when a
    session returns, the bodies of its bulk requests, put one after the
    other in the order of dispatch, are the lines of the mutations that
    were appended, in the order of the appends -- the lines of a mutation
    being what its entry point writes into an empty buffer. *)
Theorem posted_text_is_appended_text indexRel indexName tupdesc ms tk schedule :
  let r := bulk_session replace_line_breaks strip_json_ending indexRel indexName
                        tupdesc ms tk schedule in
  succeeded r = true ->
  posted (log (final_context r))
  = rendered_all replace_line_breaks strip_json_ending
                 (match tupdesc with Some j => j | None => false end) ms.
Proof.
  cbv zeta. unfold bulk_session.
  destruct (ElasticsearchStartBulkProcess indexRel indexName tupdesc false)
    as [[] c0|msg c0] eqn:Hstart; [|done].
  destruct (start_accounted _ _ _ _ _ Hstart) as [Hacc Hj].
  intros Hok.
  assert (H : post ((append_all replace_line_breaks strip_json_ending ms ;;
                     ElasticsearchFinishBulkProcess tk schedule) c0)
                   (fun _ c' =>
                      posted (log c')
                      = rendered_all replace_line_breaks strip_json_ending
                          (match tupdesc with Some j => j | None => false end) ms)
                   (fun _ => True)).
  { apply post_bind.
    eapply post_mono; [apply (run_text ms c0 _ Hacc)| |done].
    intros [] c1 [Hacc1 _]. cbv beta. rewrite Hj in Hacc1.
    change (EmptyString +:+ ?t) with t in Hacc1.
    by apply finish_text. }
  destruct ((append_all replace_line_breaks strip_json_ending ms ;;
             ElasticsearchFinishBulkProcess tk schedule) c0); [exact H|done].
Qed.

(** ** Counters *)

Local Ltac fill :=
  cbn [when negb];
  repeat match goal with
         | |- post (bind (gets _) _ _) _ _ => apply post_gets
         | |- post (bind (ret _) _ _) _ _ => apply post_ret_bind
         | |- post (bind (appendStringInfo _) _ _) _ _ =>
             let text := fresh "text" in apply post_appendStringInfo; intros text
         end.

Lemma post_append_counts tk m c :
  post (append_mutation replace_line_breaks strip_json_ending tk m c)
       (fun _ c' =>
          counts c' = counted m (counts c)
          /\ ntotal c' = if runs_prologue m then int32 (ntotal c + 1) else ntotal c)
       (fun _ => True).
Proof.
  destruct m; cbn [append_mutation counted runs_prologue].
  - unfold ElasticsearchBulkInsertRow.
    destruct ctid, (cmax =? InvalidCommandId), (xmax =? InvalidTransactionId);
      (apply post_bind, post_prologue; [|done]);
      intros c1 [_ _ Hn Hc _ _ _ _ _ _]; fill; cbn; by rewrite Hn, Hc.
  - unfold ElasticsearchBulkUpdateTuple.
    apply post_bind, post_prologue; [|done].
    intros c1 [_ _ Hn Hc _ _ _ _ _ _]. fill. cbn. by rewrite Hn, Hc.
  - unfold ElasticsearchBulkVacuumXmax.
    apply post_bind, post_prologue; [|done].
    intros c1 [_ _ Hn Hc _ _ _ _ _ _]. fill. cbn. by rewrite Hn, Hc.
  - unfold ElasticsearchBulkDeleteRowByXmin. apply post_modify.
    apply post_bind, post_prologue; [|done].
    intros c1 [_ _ Hn Hc _ _ _ _ _ _]. fill. cbn. by rewrite Hn, Hc.
  - unfold ElasticsearchBulkDeleteRowByXmax. apply post_modify.
    apply post_bind, post_prologue; [|done].
    intros c1 [_ _ Hn Hc _ _ _ _ _ _]. fill. cbn. by rewrite Hn, Hc.
  - unfold ElasticsearchBulkMarkTransactionInProgress.
    apply post_bind, post_prologue; [|done].
    intros c1 [_ _ Hn Hc _ _ _ _ _ _]. fill. cbn. by rewrite Hn, Hc.
  - unfold ElasticsearchBulkMarkTransactionCommitted. fill. by cbn.
Qed.

Lemma post_run_counts ms c :
  post (append_all replace_line_breaks strip_json_ending ms c)
       (fun _ c' =>
          counts c' = foldl (fun t tm => counted tm.2 t) (counts c) ms
          /\ ntotal c'
             = foldl (fun n tm => if runs_prologue tm.2 then int32 (n + 1) else n)
                     (ntotal c) ms)
       (fun _ => True).
Proof.
  revert c. induction ms as [|[tk m] ms IH]; intros c; cbn [append_all foldl snd].
  - by apply post_ret.
  - apply post_bind.
    eapply post_mono; [apply post_append_counts| |done].
    intros [] c1 [Hc Hn]. cbv beta. rewrite <- Hc, <- Hn. apply IH.
Qed.

Lemma int32_add_l a b : int32 (int32 a + b) = int32 (a + b).
Proof.
  unfold int32.
  replace ((a + 2 ^ 31) mod 2 ^ 32 - 2 ^ 31 + b + 2 ^ 31)
    with ((a + 2 ^ 31) mod 2 ^ 32 + b) by lia.
  rewrite Zplus_mod_idemp_l. do 2 f_equal. lia.
Qed.

Lemma tally_counted k m t :
  tally k (counted m t)
  = if kind_eqb k (kind_of m) then int32 (tally k t + 1) else tally k t.
Proof. by destruct m, k. Qed.

Lemma tally_run k (ms : list (tick * mutation)) t :
  tally k (foldl (fun t tm => counted tm.2 t) t ms)
  = if 0 <? how_many k ms then int32 (tally k t + how_many k ms) else tally k t.
Proof.
  unfold how_many. revert t.
  induction ms as [|[tk m] ms IH]; intros t; cbn [foldl List.filter snd]; [done|].
  rewrite IH, tally_counted.
  destruct (kind_eqb k (kind_of m)); cbn [length]; [|done].
  destruct (0 <? Z.of_nat (length _)) eqn:Hpos.
  - match goal with
    | |- context [0 <? Z.of_nat (S ?x)] =>
        replace (0 <? Z.of_nat (S x)) with true by (symmetry; apply Z.ltb_lt; lia)
    end.
    rewrite int32_add_l. f_equal. lia.
  - apply Z.ltb_ge in Hpos.
    match goal with
    | |- context [0 <? Z.of_nat (S ?x)] =>
        replace (0 <? Z.of_nat (S x)) with true by (symmetry; apply Z.ltb_lt; lia)
    end.
    f_equal. lia.
Qed.

Lemma ntotal_run (ms : list (tick * mutation)) n :
  foldl (fun n tm => if runs_prologue tm.2 then int32 (n + 1) else n) n ms
  = if 0 <? how_many_rows ms then int32 (n + how_many_rows ms) else n.
Proof.
  unfold how_many_rows. revert n.
  induction ms as [|[tk m] ms IH]; intros n; cbn [foldl List.filter snd]; [done|].
  rewrite IH.
  replace (match m with MarkTransactionCommitted _ => false | _ => true end)
    with (runs_prologue m) by (by destruct m).
  destruct (runs_prologue m); cbn [length]; [|done].
  destruct (0 <? Z.of_nat (length _)) eqn:Hpos.
  - match goal with
    | |- context [0 <? Z.of_nat (S ?x)] =>
        replace (0 <? Z.of_nat (S x)) with true by (symmetry; apply Z.ltb_lt; lia)
    end.
    rewrite int32_add_l. f_equal. lia.
  - apply Z.ltb_ge in Hpos.
    match goal with
    | |- context [0 <? Z.of_nat (S ?x)] =>
        replace (0 <? Z.of_nat (S x)) with true by (symmetry; apply Z.ltb_lt; lia)
    end.
    f_equal. lia.
Qed.

Lemma kinds_partition (ms : list (tick * mutation)) :
  how_many KIndex ms + how_many KUpdate ms + how_many KDelete ms
  + how_many KVacuum ms + how_many KXid ms = Z.of_nat (length ms).
Proof.
  unfold how_many. induction ms as [|[tk m] ms IH]; [done|].
  destruct m; cbn -[Z.of_nat] in *; lia.
Qed.

(** X2.  In a session, each append increments the one counter of its kind
    -- index, update, delete (both conditional deletes), vacuum, or xid
    (both ledger marks) -- and the row total counts every append except
    mark-transaction-committed, which runs no epilogue.  The counters are
    C [int]s; in a session of fewer than [2^31] appends they add up to the
    number of appends. *)
Theorem counters_count_the_appends indexRel indexName tupdesc ivc ms c0 c' :
  ElasticsearchStartBulkProcess indexRel indexName tupdesc ivc = OK tt c0 ->
  append_all replace_line_breaks strip_json_ending ms c0 = OK tt c' ->
  (forall k, tally k (counts c') = int32 (how_many k ms))
  /\ ntotal c' = int32 (how_many_rows ms)
  /\ (Z.of_nat (length ms) < 2 ^ 31 ->
      (forall k, tally k (counts c') = how_many k ms)
      /\ ntotal c' = how_many_rows ms
      /\ nindex (counts c') + nupdate (counts c') + ndelete (counts c')
         + nvacuum (counts c') + nxid (counts c') = Z.of_nat (length ms)).
Proof.
  intros Hstart Hrun.
  assert (H0 : counts c0 = mkTallies 0 0 0 0 0 /\ ntotal c0 = 0).
  { destruct (match indexName with
              | Some n => Some n
              | None => opt_index_name indexRel
              end) as [name|] eqn:Hn.
    - rewrite (start_exact _ _ _ _ _ Hn) in Hstart. by injection Hstart as <-.
    - unfold ElasticsearchStartBulkProcess in Hstart. by rewrite Hn in Hstart. }
  destruct H0 as [Hcounts Hntotal].
  pose proof (post_run_counts ms c0) as Hpost. rewrite Hrun in Hpost.
  destruct Hpost as [Hc Hn].
  assert (Hk : forall k, tally k (counts c') = int32 (how_many k ms)).
  { intros k. rewrite Hc, tally_run, Hcounts.
    replace (tally k (mkTallies 0 0 0 0 0)) with 0 by (by destruct k).
    destruct (Z.ltb_spec 0 (how_many k ms)); [done|].
    assert (how_many k ms = 0) as -> by (unfold how_many in *; lia). done. }
  assert (Hr : ntotal c' = int32 (how_many_rows ms)).
  { rewrite Hn, ntotal_run, Hntotal.
    destruct (Z.ltb_spec 0 (how_many_rows ms)); [done|].
    assert (how_many_rows ms = 0) as -> by (unfold how_many_rows in *; lia). done. }
  split; [exact Hk|]. split; [exact Hr|].
  intros Hlen.
  assert (Hle : forall k, 0 <= how_many k ms <= Z.of_nat (length ms)).
  { intros k. unfold how_many. pose proof (List.filter_length_le
      (fun tm : tick * mutation => kind_eqb k (kind_of tm.2)) ms). lia. }
  assert (Hle' : 0 <= how_many_rows ms <= Z.of_nat (length ms)).
  { unfold how_many_rows.
    pose proof (List.filter_length_le
      (fun tm : tick * mutation =>
         match tm.2 with MarkTransactionCommitted _ => false | _ => true end) ms).
    lia. }
  assert (Hk' : forall k, tally k (counts c') = how_many k ms).
  { intros k. rewrite Hk. apply int32_small. specialize (Hle k). lia. }
  split; [exact Hk'|]. split.
  - rewrite Hr. apply int32_small. lia.
  - rewrite <- (kinds_partition ms).
    rewrite <- (Hk' KIndex), <- (Hk' KUpdate), <- (Hk' KDelete), <- (Hk' KVacuum),
      <- (Hk' KXid). reflexivity.
Qed.

End SessionFacts.

Lemma posted_text_is_appended_text_witness :
  posted (log (final_context
                 (bulk_session id id sample_options None None six_appends
                               quiet_tick [])))
  = rendered_all id id false six_appends.
Proof.
  apply (posted_text_is_appended_text id id sample_options None None six_appends
           quiet_tick []).
  vm_compute. reflexivity.
Defined.

Lemma counters_count_the_appends_witness :
  let c' := final_context (append_all id id six_appends started_sample) in
  counts c' = mkTallies 1 1 1 1 2 /\ ntotal c' = 5.
Proof.
  intros c'.
  destruct (counters_count_the_appends id id sample_options None None false
              six_appends started_sample c') as (Hk & Hn & _).
  { reflexivity. }
  { vm_compute. reflexivity. }
  split; [|rewrite Hn; reflexivity].
  pose proof (Hk KIndex) as H1. pose proof (Hk KUpdate) as H2.
  pose proof (Hk KDelete) as H3. pose proof (Hk KVacuum) as H4.
  pose proof (Hk KXid) as H5.
  destruct (counts c') as [a b c d e].
  vm_compute in H1, H2, H3, H4, H5. congruence.
Defined.

Lemma empty_session_sends_nothing_witness :
  log (final_context (bulk_session id id sample_options None None [] quiet_tick []))
  = [EvCheckout 0; EvDrained].
Proof.
  apply (empty_session_sends_nothing id id sample_options None None quiet_tick []).
  right. discriminate.
Defined.

End BulkExtras.

(* ================================================================== *)
(** * Further facts about scroll cursors *)
(* ================================================================== *)

Module ScrollExtras.
Import Scroll ScrollSpec ScrollMemorySpec ScrollProofs.

Lemma unpack_packed blk off :
  0 <= blk < 2 ^ 32 -> 0 <= off < 2 ^ 16 ->
  ItemPointerSet_from_uint64 (Z.lor (Z.shiftl blk 32) off) = mkItemPointer blk off.
Proof.
  intros Hblk Hoff. unfold ItemPointerSet_from_uint64. f_equal.
  - rewrite Z.shiftr_lor, Z.shiftr_shiftl_l by lia.
    change (32 - 32) with 0. rewrite Z.shiftl_0_r.
    rewrite (Z.shiftr_div_pow2 off) by lia.
    rewrite (Z.div_small off) by lia.
    rewrite Z.lor_0_r, Z.land_ones by lia. apply Z.mod_small. lia.
  - rewrite Z.land_lor_distr_l, !Z.land_ones, Z.shiftl_mul_pow2 by lia.
    replace (blk * 2 ^ 32) with (blk * 2 ^ 16 * 2 ^ 16) by lia.
    rewrite Z.mod_mul by lia. rewrite Z.lor_0_l. apply Z.mod_small. lia.
Qed.

Lemma zip_with_snoc {X Y Z'} (f : X -> Y -> Z') (k : list Y) : forall l a b,
  l !! length k = Some a ->
  zip_with f l (k ++ [b]) = zip_with f l k ++ [f a b].
Proof.
  induction k as [|y k IH]; intros [|x l] a b Hl; try done.
  - cbn in Hl. injection Hl as ->. by destruct l.
  - cbn [length] in Hl. cbn. f_equal. by apply IH.
Qed.

Lemma read_entries_length (reads : list bool) : forall pg,
  (length reads <= length pg)%nat ->
  (length reads <= length (concat (zip_with read_entries pg reads))
   <= 2 * length reads)%nat.
Proof.
  induction reads as [|b reads IH]; intros [|h pg] Hlen; cbn [length] in *;
    try lia.
  - cbn. lia.
  - cbn. lia.
  - cbn [zip_with concat read_entries]. rewrite length_app.
    specialize (IH pg ltac:(lia)). destruct b; cbn [length read_entries]; lia.
Qed.

Section AnyBackend.

Context {B : Type} `{Backend B}.

(** X5.  A call of next that returns hands out the hit of the page at
    the position it read from.  On a cursor that does not pass ids
    through, a caller who passes [ctid] gets the row locator unpacked from
    the 64-bit [zdb_ctid] of that hit, the block number from bits 32 to 63
    and the offset from bits 0 to 15: both are in range, and a [zdb_ctid]
    put together as [(blk << 32) | off] gives back exactly [blk] and
    [off].  On a cursor that passes ids through, or for a caller who
    passes no [ctid], no locator is set; the id handed out is the [_id] of
    the hit on a cursor that passes ids through and [NULL] otherwise. *)
Theorem ctid_is_decoded_from_its_halves want c (w : world B) it c' w' :
  ElasticsearchGetNextItemPointer want c w = SOK it c' w' ->
  exists pg h,
    hits c' = Ref pg
    /\ pg !! Z.to_nat (if currpos c =? u64 (nhits c) then 0 else currpos c) = Some h
    /\ (usingId c = false -> out_ctid want = true ->
        exists ip,
          it_ctid it = Some ip
          /\ 0 <= ip_blkid ip < 2 ^ 32
          /\ 0 <= ip_posid ip < 2 ^ 16
          /\ forall blk off,
              0 <= blk < 2 ^ 32 -> 0 <= off < 2 ^ 16 ->
              hit_zdb_ctid h = Z.lor (Z.shiftl blk 32) off ->
              ip = mkItemPointer blk off)
    /\ (usingId c = true \/ out_ctid want = false -> it_ctid it = None)
    /\ (out_id want = true ->
        it_id it = Some (if usingId c then Some (hit_id h) else None)).
Proof.
  intros Hn.
  destruct (next_hands_out _ _ _ _ _ _ Hn) as (pg & h & Hpg & _ & Hh & ->).
  exists pg, h. split; [done|]. split; [done|].
  unfold handed_out. cbn [it_ctid it_id]. split; [|split].
  - intros -> ->. eexists. split; [reflexivity|]. cbn [ip_blkid ip_posid].
    split; [apply Z.mod_pos_bound; lia|]. split; [apply Z.mod_pos_bound; lia|].
    intros blk off Hblk Hoff Hx.
    rewrite <- ItemPointerSet_from_uint64_unpacks, Hx. by apply unpack_packed.
  - intros [-> | ->]; [done|]. by destruct (usingId c).
  - by intros ->.
Qed.

Lemma take_hit_keeps want c (w : world B) :
  outcome_world (take_hit want c w) = w
  /\ scrollId (outcome_context (take_hit want c w)) = scrollId c
  /\ hits (outcome_context (take_hit want c w)) = hits c
  /\ nhits (outcome_context (take_hit want c w)) = nhits c
  /\ total (outcome_context (take_hit want c w)) = total c.
Proof.
  unfold take_hit. destruct (hits c) as [|pg|] eqn:Hh; [done| |done].
  by destruct (pg !! _).
Qed.

Lemma next_requests want c (w : world B) :
  sent (outcome_world (ElasticsearchGetNextItemPointer want c w))
  = sent w ++ (if (cnt c <? total c) && (currpos c =? u64 (nhits c))
               then [ReqScroll (scrollId c)] else []).
Proof.
  rewrite next_cases.
  destruct (Z.leb_spec (total c) (cnt c)) as [Hle|Hlt].
  - replace (cnt c <? total c) with false by (symmetry; apply Z.ltb_ge; lia).
    cbn. by rewrite app_nil_r.
  - replace (cnt c <? total c) with true by (symmetry; apply Z.ltb_lt; lia).
    cbn [andb]. destruct (currpos c =? u64 (nhits c)).
    + unfold fetch_more, rest_call_scroll.
      destruct (es_scroll (scrollId c) (engine w)) as [response b'].
      destruct (rs_error response); [done|].
      match goal with
      | |- context [take_hit want ?c1 ?w1] =>
          by destruct (take_hit_keeps want c1 w1) as (-> & _)
      end.
    + destruct (take_hit_keeps want c w) as (-> & _). by rewrite app_nil_r.
Qed.

(** X6.  A call of next sends at most one request: the continuation for
    the stored scroll id, exactly when hits remain ([cnt < total]) and the
    page is exhausted ([currpos == nhits]).  In every other case it does
    not touch the engine, and keeps the scroll id, the page and the total
    it has. *)
Theorem next_fetches_only_on_an_exhausted_page want c (w : world B) :
  let o := ElasticsearchGetNextItemPointer want c w in
  let fetches := (cnt c <? total c) && (currpos c =? u64 (nhits c)) in
  sent (outcome_world o)
  = sent w ++ (if fetches then [ReqScroll (scrollId c)] else [])
  /\ (fetches = false ->
      outcome_world o = w
      /\ scrollId (outcome_context o) = scrollId c
      /\ hits (outcome_context o) = hits c
      /\ nhits (outcome_context o) = nhits c
      /\ total (outcome_context o) = total c).
Proof.
  cbv zeta. split; [apply next_requests|].
  rewrite next_cases.
  destruct (Z.leb_spec (total c) (cnt c)) as [Hle|Hlt]; [done|].
  replace (cnt c <? total c) with true by (symmetry; apply Z.ltb_lt; lia).
  cbn [andb]. destruct (currpos c =? u64 (nhits c)); [done|].
  intros _. apply take_hit_keeps.
Qed.

(** A call of next reads through no dangling pointer when the page is
    exhausted, or when the page pointer is not dangling. *)
Lemma next_defined want c (w : world B) c' w' :
  currpos c = u64 (nhits c) \/ hits c <> Dangling ->
  ElasticsearchGetNextItemPointer want c w <> SUNDEFINED c' w'.
Proof.
  intros Hc. rewrite next_cases. destruct (total c <=? cnt c); [done|].
  assert (Htake : forall c1 (w1 : world B),
             hits c1 <> Dangling -> take_hit want c1 w1 <> SUNDEFINED c' w').
  { intros c1 w1 Hc1. unfold take_hit. destruct (hits c1) as [|pg|]; [done| |done].
    by destruct (pg !! _). }
  destruct (Z.eqb_spec (currpos c) (u64 (nhits c))) as [Heq|Hne].
  - unfold fetch_more. destruct (rest_call_scroll _ w) as [response w0].
    destruct (rs_error response); [done|]. apply Htake. cbn [hits].
    by destruct (rs_hits response).
  - apply Htake. by destruct Hc.
Qed.

(** X7.  When the continuation that next fetches fails, no hit is
    consumed.  If the response carries an [error], next raises with the
    text of the response, and the cursor keeps its scroll id, count and
    position; but the memory of a cursor that had a page was reset before
    the error was seen: it holds the failed response only, and the page
    pointer is left dangling.  The call that follows does not read
    through it: it fetches again, with the same scroll id.  If the reader
    finds no error in the response and gives [NULL] for [hits.hits], next
    raises "No results found when loading next scroll context" on a
    cursor that has taken over the new scroll id and has no page. *)
Theorem failed_continuation_consumes_nothing want c (w : world B) response b' :
  cnt c < total c ->
  currpos c = u64 (nhits c) ->
  es_scroll (scrollId c) (engine w) = (response, b') ->
  let o := ElasticsearchGetNextItemPointer want c w in
  (forall body, rs_error response = Some body ->
     exists c', o = SERR body c' (mkWorld b' (sent w ++ [ReqScroll (scrollId c)]))
                /\ cnt c' = cnt c /\ total c' = total c
                /\ currpos c' = currpos c /\ nhits c' = nhits c
                /\ scrollId c' = scrollId c
                /\ (forall pg, hits c = Ref pg ->
                      hits c' = Dangling
                      /\ jsonMemoryContext c' = [JResponse response])
                /\ (forall want' (w1 : world B),
                       let o' := ElasticsearchGetNextItemPointer want' c' w1 in
                       sent (outcome_world o') = sent w1 ++ [ReqScroll (scrollId c)]
                       /\ forall c2 w2, o' <> SUNDEFINED c2 w2))
  /\ (rs_error response = None -> rs_hits response = None ->
      exists c', o = SERR "No results found when loading next scroll context" c'
                          (mkWorld b' (sent w ++ [ReqScroll (scrollId c)]))
                 /\ cnt c' = cnt c /\ currpos c' = 0
                 /\ scrollId c' = rs_scroll_id response /\ hits c' = NULL
                 /\ nhits c' = 0).
Proof.
  intros Hlt Hpos Hresp. cbv zeta. rewrite next_cases.
  replace (total c <=? cnt c) with false by (symmetry; apply Z.leb_gt; lia).
  rewrite Hpos, Z.eqb_refl.
  unfold fetch_more, rest_call_scroll. rewrite Hresp. split.
  - intros body ->. eexists. split; [reflexivity|]. cbn.
    do 5 (split; [done|]). split.
    + by intros pg ->.
    + intros want' w1.
      match goal with
      | |- context [ElasticsearchGetNextItemPointer want' ?c1 w1] =>
          set (c' := c1)
      end.
      assert (Hlt' : cnt c' < total c') by done.
      assert (Hpos' : currpos c' = u64 (nhits c')) by (cbn; by rewrite Hpos).
      split.
      * rewrite next_requests.
        replace (cnt c' <? total c') with true by (symmetry; apply Z.ltb_lt; lia).
        by rewrite Hpos', Z.eqb_refl.
      * intros c2 w2. apply next_defined. by left.
  - intros -> Hnone. unfold take_hit. cbn [hits]. rewrite Hnone.
    eexists. split; [reflexivity|]. done.
Qed.

(** X8.  The cursor never holds more than one page in memory.  When the
    open returns with a page, the memory context holds the response and
    nothing else; and each call of next that returns leaves in it exactly
    the response that brought the current page and, after it, what the
    reads of the hits taken from that page have left: the element of each
    hit, and after it the number of its row locator when the read set
    one.  That makes at least one and at most two entries for each hit
    read from the page, beside the response -- the previous page is gone
    as soon as a new one is fetched. *)
Theorem memory_holds_one_page want q use_id needSort needScore limit sortField
    direction hl extra c (w : world B) :
  (forall c0 w0 pg,
      ElasticsearchOpenScroll q use_id needSort needScore limit sortField direction
                              hl extra w = SOK tt c0 w0 ->
      hits c0 = Ref pg ->
      holds_one_page c0 /\ exists response, jsonMemoryContext c0 = [JResponse response])
  /\ (forall it c' w',
         holds_one_page c ->
         ElasticsearchGetNextItemPointer want c w = SOK it c' w' ->
         holds_one_page c'
         /\ 1 + currpos c' <= Z.of_nat (length (jsonMemoryContext c'))
            <= 1 + 2 * currpos c').
Proof.
  split.
  - intros c0 w0 pg. unfold ElasticsearchOpenScroll.
    destruct (rest_call_search _ w) as [response w1].
    destruct (rs_error response); [done|].
    intros [= <- <-]. cbn [hits].
    destruct (0 <? u64 (rs_total response)); [|done].
    destruct (rs_hits response) as [pg'|] eqn:Hr; [|done].
    intros [= <-]. split; [|by exists response].
    split; [done|]. split; [apply u64_range|].
    exists response, pg', []. repeat split; try done.
    + cbn. lia.
    + by destruct pg'.
  - intros it c' w'
           ([Hpos Hcnt] & Htot & response & pg & reads & Hhits & Hresp & Hn & Hle
            & Hmem).
    rewrite next_cases.
    destruct (Z.leb_spec (total c) (cnt c)) as [|Hlt]; [done|].
    assert (Hstep : forall c1 (w1 : world B) r1 pg1 reads1,
               cnt c1 = cnt c -> total c1 = total c ->
               0 <= currpos c1 <= cnt c1 ->
               currpos c1 + 1 < 2 ^ 64 ->
               hits c1 = Ref pg1 -> rs_hits r1 = Some pg1 ->
               Z.of_nat (length reads1) = currpos c1 ->
               jsonMemoryContext c1
               = JResponse r1 :: concat (zip_with read_entries pg1 reads1) ->
               take_hit want c1 w1 = SOK it c' w' ->
               holds_one_page c'
               /\ 1 + currpos c' <= Z.of_nat (length (jsonMemoryContext c'))
                  <= 1 + 2 * currpos c').
    { intros c1 w1 r1 pg1 reads1 Hc1 Ht1 Hp1 Hsmall Hh1 Hr1 Hn1 Hm1. unfold take_hit.
      rewrite Hh1. destruct (pg1 !! Z.to_nat (currpos c1)) as [h|] eqn:Hh; [|done].
      intros [= <- <- <-].
      assert (Hlen : (Z.to_nat (currpos c1) < length pg1)%nat)
        by (by eapply lookup_lt_Some).
      set (b := negb (usingId c1) && out_ctid want).
      assert (Hinv : holds_one_page
                       (mkScroll (usingId c1) (scrollId c1) (hasHighlights c1)
                          (u64 (cnt c1 + 1)) (u64 (currpos c1 + 1)) (total c1)
                          (Scroll.limit c1) (extraFields c1) (hits c1) (nhits c1)
                          (Ref h)
                          (jsonMemoryContext c1
                           ++ JHit h :: (if b then [JNumber (hit_zdb_ctid h)]
                                         else [])))).
      { unfold holds_one_page. cbn [currpos cnt hits jsonMemoryContext total].
        rewrite !u64_small by lia.
        split; [lia|]. split; [lia|]. exists r1, pg1, (reads1 ++ [b]).
        split; [done|]. split; [done|].
        rewrite length_app. cbn [length]. split; [lia|]. split; [lia|].
        rewrite Hm1, (zip_with_snoc _ _ _ h) by (by rewrite <- Hh; f_equal; lia).
        rewrite concat_app. cbn. by rewrite app_nil_r. }
      rewrite Hh1 in Hinv. split; [exact Hinv|].
      destruct Hinv as (_ & _ & r2 & pg2 & reads2 & _ & _ & Hn2 & Hle2 & ->).
      pose proof (read_entries_length reads2 pg2 Hle2).
      cbn [length]. lia. }
    destruct (Z.eqb_spec (currpos c) (u64 (nhits c))) as [Heq|Hne].
    + unfold fetch_more, rest_call_scroll.
      destruct (es_scroll (scrollId c) (engine w)) as [r1 b'].
      destruct (rs_error r1); [done|].
      rewrite Hhits. cbn [app after_reset].
      destruct (rs_hits r1) as [pg1|] eqn:Hr1; [|done].
      apply (Hstep _ _ r1 pg1 []); cbn; try done; try lia.
      by destruct pg1.
    + apply (Hstep c w response pg reads); try done. lia.
Qed.

End AnyBackend.

Lemma ctid_is_decoded_from_its_halves_witness :
  let c0 := outcome_context
              (ElasticsearchOpenScroll "{}" false false false 0 None SORTBY_DEFAULT
                                       [] [] (paged_world [packed_hit])) in
  let w0 := outcome_world
              (ElasticsearchOpenScroll "{}" false false false 0 None SORTBY_DEFAULT
                                       [] [] (paged_world [packed_hit])) in
  exists it c1 w1,
    ElasticsearchGetNextItemPointer every_out c0 w0 = SOK it c1 w1
    /\ it_ctid it = Some (mkItemPointer 7 3).
Proof.
  intros c0 w0.
  destruct (ElasticsearchGetNextItemPointer every_out c0 w0) as [it c1 w1| |] eqn:Hn;
    [|vm_compute in Hn; discriminate..].
  exists it, c1, w1. split; [reflexivity|].
  destruct (ctid_is_decoded_from_its_halves every_out c0 w0 it c1 w1 Hn)
    as (pg & h & Hpg & Hh & Hctid & _).
  destruct Hctid as (ip & -> & _ & _ & Hunpack); [reflexivity|reflexivity|].
  f_equal. apply Hunpack; [lia|lia|].
  vm_compute in Hn. injection Hn as _ <- _.
  vm_compute in Hpg. injection Hpg as <-.
  vm_compute in Hh. by injection Hh as <-.
Defined.

Lemma next_fetches_only_on_an_exhausted_page_witness :
  sent (outcome_world (ElasticsearchGetNextItemPointer every_out (scenario_after 3).1
                                                       (scenario_after 3).2))
  = sent (scenario_after 3).2
  /\ sent (outcome_world (ElasticsearchGetNextItemPointer every_out
                                                          (scenario_after 10).1
                                                          (scenario_after 10).2))
     = sent (scenario_after 10).2 ++ [ReqScroll (scrollId (scenario_after 10).1)].
Proof.
  split.
  - destruct (next_fetches_only_on_an_exhausted_page every_out (scenario_after 3).1
                (scenario_after 3).2) as [_ Hkeep].
    destruct Hkeep as [-> _]; [vm_compute|]; reflexivity.
  - destruct (next_fetches_only_on_an_exhausted_page every_out (scenario_after 10).1
                (scenario_after 10).2) as [Hsent _].
    rewrite Hsent. vm_compute. reflexivity.
Defined.

Lemma failed_continuation_consumes_nothing_witness :
  exists c' w',
    ElasticsearchGetNextItemPointer every_out stale_cursor (paged_world scenario_hits)
    = SERR "search_context_missing_exception" c' w'
    /\ cnt c' = 10 /\ scrollId c' = "stale" /\ hits c' = Dangling.
Proof.
  destruct (failed_continuation_consumes_nothing every_out stale_cursor
              (paged_world scenario_hits)
              (mkResponse (Some "search_context_missing_exception") EmptyString 0 None)
              (mkPaged scenario_hits [] 0 0))
    as [Herr _]; [cbn; lia|reflexivity|reflexivity|].
  destruct (Herr "search_context_missing_exception" eq_refl)
    as (c' & Hnext & Hcnt & _ & _ & _ & Hid & Hgone & _).
  eexists c', _. split; [exact Hnext|]. split; [exact Hcnt|]. split; [exact Hid|].
  by destruct (Hgone (numbered_hits 0 10) eq_refl).
Defined.

Lemma memory_holds_one_page_witness :
  Z.of_nat (length (jsonMemoryContext (scenario_after 0).1)) = 1
  /\ 2 <= Z.of_nat (length (jsonMemoryContext (scenario_after 1).1)) <= 3.
Proof.
  destruct (memory_holds_one_page every_out "{}" false false false 10 None
              SORTBY_DEFAULT [] [] (scenario_after 0).1 (paged_world scenario_hits))
    as [Hopen _].
  destruct (memory_holds_one_page every_out "{}" false false false 10 None
              SORTBY_DEFAULT [] [] (scenario_after 0).1 (scenario_after 0).2)
    as [_ Hnext].
  destruct (Hopen (scenario_after 0).1 (scenario_after 0).2 (numbered_hits 0 10))
    as [H0 [response Hmem]]; [vm_compute; reflexivity..|].
  split; [by rewrite Hmem|].
  destruct (Hnext (handed_out every_out (scenario_after 0).1 (mkHit "0" 0 float8_one None))
                  (scenario_after 1).1 (scenario_after 1).2 H0) as [_ Hlen];
    [vm_compute; reflexivity|].
  exact Hlen.
Defined.

(** ** The fields that an open asks for *)

Lemma docvalue_loop (acc : string) (extra : list string) :
  foldl (fun acc f => acc +:+ "," +:+ f) acc extra
  = acc +:+ String.concat EmptyString (map (fun f => "," +:+ f) extra).
Proof.
  revert acc. induction extra as [|f extra IH]; intros acc.
  - cbn. by rewrite LedgerProofs.string_app_nil_r.
  - cbn [foldl map]. rewrite IH, AdminProofs.concat_empty_cons.
    by rewrite !LedgerProofs.string_app_assoc.
Qed.

(** X9.  The doc-value fields that an open asks for are [zdb_ctid], always
    and first, then the extra fields of the caller in their order,
    separated by commas. *)
Theorem docvalue_fields_start_with_the_ctid q use_id needSort needScore limit
    sortField direction hl extra :
  sq_docvalue_fields (open_scroll_request q use_id needSort needScore limit sortField
                                          direction hl extra)
  = String.concat "," ("zdb_ctid" :: extra).
Proof.
  rewrite LedgerProofs.concat_comma, <- docvalue_loop.
  unfold open_scroll_request. destruct sortField; [done|]. by destruct needSort.
Qed.

End ScrollExtras.

(* ================================================================== *)
(** * Further facts about the scoring registry *)
(* ================================================================== *)

Module ScoringExtras.
Import Scoring ScoringSpec ScoringProofs.

Section RegistryFacts.

Context {callback_arg : Type}.

(** X10.  The registry keeps one entry per relation, with as many
    arguments as callbacks: this holds of the registry after any sequence
    of registrations from an empty one, and one more registration keeps
    it.  A registration never removes or reorders entries: it leaves the
    relations of the registry as they are when the relation is among
    them, and appends the relation at the end otherwise. *)
Theorem registry_keeps_one_entry_per_relation (rs : list (registration callback_arg))
    oid cb d (entries : list (ZDBScoringSupportData callback_arg)) :
  registry_ok (register_all rs)
  /\ (registry_ok entries -> registry_ok (scoring_register_callback oid cb d entries))
  /\ map heapOid (scoring_register_callback oid cb d entries)
     = (if bool_decide (oid ∈ map heapOid entries) then map heapOid entries
        else map heapOid entries ++ [oid]).
Proof.
  split; [apply register_all_ok|]. split; [apply register_ok|apply register_oids].
Qed.

(** X11.  In a registry with one entry per relation, registering a
    callback for a relation adds the value of that callback, last, to
    every score looked up for the relation, and changes no score of any
    other relation; after [scoring_support_cleanup] every score is [0.0]
    again. *)
Theorem registering_adds_to_the_score oid oid' cb d ctid
    (entries : list (ZDBScoringSupportData callback_arg)) :
  registry_ok entries ->
  scoring_lookup_score oid ctid (scoring_register_callback oid cb d entries)
  = float4_add (scoring_lookup_score oid ctid entries) (cb ctid d)
  /\ (oid' <> oid ->
      scoring_lookup_score oid' ctid (scoring_register_callback oid cb d entries)
      = scoring_lookup_score oid' ctid entries)
  /\ scoring_lookup_score oid ctid (scoring_support_cleanup callback_arg) = float4_zero.
Proof.
  intros Hok. split; [|split].
  - apply (register_lookup_same oid cb d ctid float4_zero entries Hok).
  - intros Hne. by apply (register_lookup_other oid' oid cb d ctid float4_zero entries).
  - reflexivity.
Qed.

End RegistryFacts.

Lemma registry_keeps_one_entry_per_relation_witness :
  map heapOid (register_all sample_registrations) = [16384; 16385]
  /\ registry_ok (scoring_register_callback 16386 constant_score one
                                            (register_all sample_registrations)).
Proof.
  destruct (registry_keeps_one_entry_per_relation sample_registrations 16386
              constant_score one (register_all sample_registrations))
    as (Hall & Hone & _).
  split; [reflexivity|]. apply Hone, Hall.
Defined.

Lemma registering_adds_to_the_score_witness :
  scoring_lookup_score 16385 (mkItemPointer 0 1)
    (scoring_register_callback 16385 doubled_score one
                               (register_all sample_registrations))
  = float4_add two two
  /\ scoring_lookup_score 16384 (mkItemPointer 0 1)
       (scoring_register_callback 16385 doubled_score one
                                  (register_all sample_registrations))
     = scoring_lookup_score 16384 (mkItemPointer 0 1)
                            (register_all sample_registrations).
Proof.
  destruct (registering_adds_to_the_score 16385 16384 doubled_score one
              (mkItemPointer 0 1) (register_all sample_registrations))
    as (Hsame & Hother & _); [apply register_all_ok|].
  split.
  - rewrite Hsame. vm_compute. reflexivity.
  - apply Hother. discriminate.
Defined.

End ScoringExtras.

(* ================================================================== *)
(** * Facts about the search for [zdb.score()] *)
(* ================================================================== *)

Module WalkerProofs.
Import Walker WalkerSpec.

(** Induction on expression trees, with the hypothesis for every
    sub-node. *)
Lemma Node_induction (P : Node -> Prop) :
  P NullNode ->
  (forall funcid args, Forall P args -> P (FuncExpr funcid args)) ->
  (forall varnoold, P (Var varnoold)) ->
  (forall subnodes, Forall P subnodes -> P (OtherNode subnodes)) ->
  forall node, P node.
Proof.
  intros Hnull Hfunc Hvar Hother.
  fix IH 1. intros [|funcid args|varnoold|subnodes].
  - exact Hnull.
  - apply Hfunc. induction args as [|node args IHargs]; constructor; [apply IH|done].
  - apply Hvar.
  - apply Hother.
    induction subnodes as [|node subnodes IHs]; constructor; [apply IH|done].
Qed.

Section WalkFacts.

Variable rt_relid : nat -> Z.

(** What the walker does when it meets a call of [zdb.score] with the
    arguments [args]. *)
Definition on_score_call (args : list Node) (context : WantScoresWalkerContext)
  : walked :=
  match args with
  | Var varnoold :: _ =>
      Walked true
        (if rt_relid varnoold =? heapRelid context then
           mkWalkerContext (funcOid context) (scan context) (heapRelid context)
                           true (foundScan context) (depth context) (depth context)
         else context)
  | _ => WalkError "argument to zdb.score() must be the 'ctid' system column"
  end.

Lemma walk_subnodes_first l context :
  Forall (fun node =>
            forall context,
              want_scores_expr_walker rt_relid node context
              = match first_call (funcOid context) node with
                | Some args => on_score_call args context
                | None => Walked false context
                end) l ->
  walk_subnodes (want_scores_expr_walker rt_relid) l context
  = match first_found (first_call (funcOid context)) l with
    | Some args => on_score_call args context
    | None => Walked false context
    end.
Proof.
  induction 1 as [|node l Hnode _ IH]; [done|].
  cbn [walk_subnodes first_found]. rewrite Hnode.
  destruct (first_call (funcOid context) node) as [args|]; [|exact IH].
  unfold on_score_call. destruct args as [|[] ?]; done.
Qed.

(** X20.  The walker stops at the first call of [zdb.score] that it
    meets, going through the tree node before sub-nodes and left to
    right: it returns [false] and leaves the context alone when there is
    no such call; it raises when the first argument of that call is not a
    column reference; otherwise it returns [true], and it notes the
    function as found, at the current depth, exactly when the column
    belongs to the heap relation.  Whatever follows that call in the tree
    is not looked at. *)
Theorem walker_stops_at_the_first_score_call node context :
  want_scores_expr_walker rt_relid node context
  = match first_call (funcOid context) node with
    | Some (Var varnoold :: _) =>
        Walked true
          (if rt_relid varnoold =? heapRelid context then
             mkWalkerContext (funcOid context) (scan context) (heapRelid context)
                             true (foundScan context) (depth context) (depth context)
           else context)
    | Some _ => WalkError "argument to zdb.score() must be the 'ctid' system column"
    | None => Walked false context
    end.
Proof.
  change (want_scores_expr_walker rt_relid node context
          = match first_call (funcOid context) node with
            | Some args => on_score_call args context
            | None => Walked false context
            end).
  revert context. induction node as [|funcid args IH|varnoold|subnodes IH]
    using Node_induction; intros context; cbn [want_scores_expr_walker first_call].
  - done.
  - destruct (funcid =? funcOid context); [done|]. by apply walk_subnodes_first.
  - done.
  - by apply walk_subnodes_first.
Qed.

End WalkFacts.

(** A call on the [ctid] of another relation ends the walk: the call on
    the heap relation's [ctid] after it is not seen. *)
Example a_call_on_another_relation_hides_the_next :
  want_scores_expr_walker sample_rtable two_score_calls sample_walker_context
  = Walked true sample_walker_context.
Proof. reflexivity. Qed.

End WalkerProofs.
